(** * Keyed LSB steganography: a shallow embedding of [steganography.py]

    The Python functions of the repository are transcribed one by one as
    Rocq functions.  Python integers are [Z]; a Python [str] is the list of
    its code points; exceptions are values of an error monad; the PIL image
    is a finite map from coordinates to channel tuples that is threaded
    through the functions that mutate it; the global pseudo-random
    generator of the [random] module is an abstract state type with the
    operations the program uses. *)

From Stdlib Require Import ZArith String Ascii DecimalString.
From stdpp Require Import base tactics option list gmap.

Local Open Scope Z_scope.

(** ** Python strings and exceptions *)

(** A Python [str]: the sequence of its code points. *)
Abbreviation str := (list Z) (only parsing).

(** A string literal of the source. *)
Definition lit (s : string) : str :=
  map (fun a => Z.of_nat (nat_of_ascii a)) (list_ascii_of_string s).

(** The characters the bit strings are made of. *)
Definition c0 : Z := 48.
Definition c1 : Z := 49.

(** [len(x)] *)
Definition len {A} (l : list A) : Z := Z.of_nat (length l).

(** [str(n)] for an integer [n]. *)
Definition str_of_int (n : Z) : str := lit (NilZero.string_of_int (Z.to_int n)).

(** The exceptions that the program or the library calls it makes can
    raise.  [ValueError] carries its message; the messages of the library's
    own [ValueError]s are shortened to their fixed text. *)
Inductive exn :=
| ValueError (msg : str)
| IndexError
| TypeError
| OverflowError
| UnicodeEncodeError
| UnicodeDecodeError.

Inductive result (A : Type) :=
| OK (a : A)
| Raise (e : exn).
Arguments OK {A} a.
Arguments Raise {A} e.

#[global] Instance result_ret : MRet result := fun A a => OK a.
#[global] Instance result_bind : MBind result := fun A B k r =>
  match r with
  | OK a => k a
  | Raise e => Raise e
  end.

(** ** Python sequence indexing and slicing *)

(** [l[i]]: negative indices count from the end, and an index outside
    [-len(l) .. len(l)-1] raises [IndexError]. *)
Definition py_index {A} (l : list A) (i : Z) : result A :=
  let j := if i <? 0 then len l + i else i in
  if j <? 0 then Raise IndexError
  else match l !! Z.to_nat j with
       | Some a => OK a
       | None => Raise IndexError
       end.

(** [l[i] = v] on a list. *)
Definition py_setitem {A} (l : list A) (i : Z) (v : A) : result (list A) :=
  let j := if i <? 0 then len l + i else i in
  if (j <? 0) || (len l <=? j) then Raise IndexError
  else OK (<[Z.to_nat j := v]> l).

(** The bound of a slice, clipped the way Python does. *)
Definition slice_bound {A} (l : list A) (k : Z) : nat :=
  Z.to_nat (if k <? 0 then len l + k else k).

(** [l[:k]] *)
Definition slice_to {A} (l : list A) (k : Z) : list A := take (slice_bound l k) l.

(** [l[k:]] *)
Definition slice_from {A} (l : list A) (k : Z) : list A := drop (slice_bound l k) l.

(** ** Binary literals *)

Fixpoint bin_pos (p : positive) : str :=
  match p with
  | xH => [c1]
  | xO q => bin_pos q ++ [c0]
  | xI q => bin_pos q ++ [c1]
  end.

(** [bin(n)] *)
Definition bin (n : Z) : str :=
  match n with
  | Z0 => lit "0b0"
  | Zpos p => lit "0b" ++ bin_pos p
  | Zneg p => lit "-0b" ++ bin_pos p
  end.

(** [s.replace('0b', '')]: every occurrence of the two characters, scanned
    from the left, is dropped. *)
Fixpoint replace_0b (s : str) : str :=
  match s with
  | [] => []
  | a :: r =>
      match r with
      | [] => [a]
      | b :: r' =>
          if (a =? 48) && (b =? 98) then replace_0b r' else a :: replace_0b r
      end
  end.

(** [s.zfill(w)]: zeros are put in front, after a leading sign if any. *)
Definition zfill (w : Z) (s : str) : str :=
  let pad := replicate (Z.to_nat (w - len s)) c0 in
  match s with
  | c :: r => if (c =? 43) || (c =? 45) then c :: pad ++ r else pad ++ s
  | [] => pad
  end.

(** The value of a run of binary digits, most significant first; [None]
    when a character is not a binary digit. *)
Fixpoint digits_value (acc : Z) (s : str) : option Z :=
  match s with
  | [] => Some acc
  | c :: r =>
      if c =? c0 then digits_value (2 * acc) r
      else if c =? c1 then digits_value (2 * acc + 1) r
      else None
  end.

Definition int_error : exn := ValueError (lit "invalid literal for int() with base 2").

(** [int(s, 2)] on the literals this program builds: binary digits with an
    optional leading minus sign.  The other forms the builtin accepts
    (surrounding white space, a plus sign, a [0b] prefix, underscores
    between digits) are never built by the program and are not modelled:
    the statements below that read a bit string assume it is made of
    binary digits only. *)
Definition int2 (s : str) : result Z :=
  match s with
  | [] => Raise int_error
  | c :: r =>
      if c =? 45 then
        match r, digits_value 0 r with
        | _ :: _, Some v => OK (- v)
        | _, _ => Raise int_error
        end
      else
        match digits_value 0 s with
        | Some v => OK v
        | None => Raise int_error
        end
  end.

(** [integer_conversion(data, 'binary')] *)
Definition integer_conversion_binary (data : Z) : str :=
  zfill 8 (replace_0b (bin data)).

(** [integer_conversion(data, method)] for any other [method]. *)
Definition integer_conversion_integer (data : str) : result Z := int2 data.

(** [decimal_encoding(text)]: the code points read as base-256 digits.
    [ord] is defined on every character of a [str], so the handler of the
    source is never entered. *)
Definition decimal_encoding (text : str) : Z :=
  fold_left (fun a b => a * 256 + b) text 0.

(** [range(n)] *)
Definition py_range (n : Z) : list Z := map Z.of_nat (seq 0 (Z.to_nat n)).

(** [product(a, b)]: the pairs in lexicographic order, [a] outermost. *)
Definition product {A B} (a : list A) (b : list B) : list (A * B) :=
  x ← a; map (pair x) b.

(** [for i, a in enumerate(l): s = body(i, a, s)], started at index [i]. *)
Fixpoint for_enumerate {A S} (body : Z -> A -> S -> result S)
    (i : Z) (l : list A) (s : S) : result S :=
  match l with
  | [] => OK s
  | a :: l' => s' ← body i a s; for_enumerate body (i + 1) l' s'
  end.

(** [for a in l: s = body(a, s)] *)
Fixpoint for_each {A S} (body : A -> S -> result S) (l : list A) (s : S) : result S :=
  match l with
  | [] => OK s
  | a :: l' => s' ← body a s; for_each body l' s'
  end.

(** ** The image *)

(** A pixel is the tuple of its channel values; an image maps each of its
    coordinates to a pixel.  Reading or writing a coordinate the image
    does not have raises [IndexError].

    The images are those of several bands (RGB, RGBA), on which
    [Image.getpixel] returns a tuple.  On an image of one band it returns
    an [int], which the program can neither sum nor turn into a list: the
    statements that the program returns, or raises a given exception, are
    made for pixels of three channels or more. *)
Abbreviation pixel := (list Z) (only parsing).
Abbreviation coord := (Z * Z)%type (only parsing).

Record Image := mkImage {
  image_size : Z * Z;
  image_data : gmap (Z * Z) (list Z)
}.

Definition getpixel (img : Image) (xy : coord) : result pixel :=
  match image_data img !! xy with
  | Some p => OK p
  | None => Raise IndexError
  end.

Definition putpixel (img : Image) (xy : coord) (p : pixel) : result Image :=
  match image_data img !! xy with
  | Some _ => OK (mkImage (image_size img) (<[xy := p]> (image_data img)))
  | None => Raise IndexError
  end.

(** The class [Size] that [load_image] builds from [image.size]. *)
Record Size := mkSize { WIDTH : Z; HEIGHT : Z; PIXELS : Z }.

Definition size_of (img : Image) : Size :=
  let size := image_size img in
  mkSize size.1 size.2 (size.1 * size.2).

(** ** The configuration *)

(** The class [Configuration] of [build_object].  The two dictionaries
    keep their insertion order. *)
Record Configuration := mkConfiguration {
  COLOURS : list (str * Z);
  INDEXS : list (str * Z);
  VOLUME : Z;
  METHOD : str;
  NOISE : bool;
  KEY : Z
}.

(** [d[k] = v] on a dictionary: a known key keeps its place. *)
Fixpoint dict_set (d : list (str * Z)) (k : str) (v : Z) : list (str * Z) :=
  match d with
  | [] => [(k, v)]
  | (k', v') :: d' => if bool_decide (k' = k) then (k, v) :: d' else (k', v') :: dict_set d' k v
  end.

(** [{names[i]: i for i in l}] *)
Definition dict_of_indices (names : list str) (l : list Z) : result (list (str * Z)) :=
  for_each (fun i d => name ← py_index names i; OK (dict_set d name i)) l [].

Definition values (d : list (str * Z)) : list Z := map snd d.

Definition colour_list : list str := [lit "red"; lit "green"; lit "blue"].
Definition index_list : list str :=
  [lit "1st"; lit "2nd"; lit "3rd"; lit "4th"; lit "5th"; lit "6th"; lit "7th"; lit "8th"].

Definition build_object (key : Z) (method : str) (noise : bool)
    (colours indexs : option (list Z)) : result Configuration :=
  let colours := default [0; 1; 2] colours in
  let indexs := default [6; 7] indexs in
  cs ← dict_of_indices colour_list colours;
  ixs ← dict_of_indices index_list indexs;
  OK {| COLOURS := cs;
        INDEXS := ixs;
        VOLUME := if bool_decide (method = lit "all")
                  then len colours * len indexs else len indexs;
        METHOD := method;
        NOISE := noise;
        KEY := key |}.

(** [for i in l: table[i] = "1"] *)
Definition mark_table (table : list str) (l : list Z) : result (list str) :=
  for_each (fun i t => py_setitem t i (lit "1")) l table.

Definition generate_header (cfg : Configuration) : result str :=
  let colours := values (COLOURS cfg) in
  let indexs := values (INDEXS cfg) in
  let method := METHOD cfg in
  let method_bool := if bool_decide (method = lit "random") then lit "1" else lit "0" in
  colour_table ← mark_table (replicate 3 (lit "0")) colours;
  index_table ← mark_table (replicate 8 (lit "0")) indexs;
  OK (method_bool ++ concat colour_table ++ concat index_table).

(** ** The text codec *)

(** The UTF-8 encoding of one code point; surrogates have none. *)
Definition utf8_encode_char (c : Z) : option (list Z) :=
  if c <? 0 then None
  else if c <? 0x80 then Some [c]
  else if c <? 0x800 then Some [0xC0 + c / 64; 0x80 + c mod 64]
  else if c <? 0x10000 then
    if (0xD800 <=? c) && (c <=? 0xDFFF) then None
    else Some [0xE0 + c / 4096; 0x80 + (c / 64) mod 64; 0x80 + c mod 64]
  else if c <? 0x110000 then
    Some [0xF0 + c / 262144; 0x80 + (c / 4096) mod 64;
          0x80 + (c / 64) mod 64; 0x80 + c mod 64]
  else None.

(** [bytearray(text, 'utf-8')] *)
Definition utf8_encode (text : str) : result (list Z) :=
  match mapM utf8_encode_char text with
  | Some bs => OK (concat bs)
  | None => Raise UnicodeEncodeError
  end.

Definition is_cont (b : Z) : bool := (0x80 <=? b) && (b <=? 0xBF).

(** The strict UTF-8 decoder: over-long forms, surrogates, code points
    above 0x10FFFF and truncated sequences are refused. *)
Fixpoint utf8_decode (bs : list Z) : option str :=
  match bs with
  | [] => Some []
  | b1 :: r1 =>
      if (0 <=? b1) && (b1 <? 0x80) then cons b1 <$> utf8_decode r1
      else if (0xC2 <=? b1) && (b1 <=? 0xDF) then
        match r1 with
        | b2 :: r2 =>
            if is_cont b2
            then cons ((b1 - 0xC0) * 64 + (b2 - 0x80)) <$> utf8_decode r2
            else None
        | _ => None
        end
      else if (0xE0 <=? b1) && (b1 <=? 0xEF) then
        match r1 with
        | b2 :: b3 :: r3 =>
            let c := (b1 - 0xE0) * 4096 + (b2 - 0x80) * 64 + (b3 - 0x80) in
            if is_cont b2 && is_cont b3 && (0x800 <=? c)
               && negb ((0xD800 <=? c) && (c <=? 0xDFFF))
            then cons c <$> utf8_decode r3
            else None
        | _ => None
        end
      else if (0xF0 <=? b1) && (b1 <=? 0xF4) then
        match r1 with
        | b2 :: b3 :: b4 :: r4 =>
            let c := (b1 - 0xF0) * 262144 + (b2 - 0x80) * 4096
                     + (b3 - 0x80) * 64 + (b4 - 0x80) in
            if is_cont b2 && is_cont b3 && is_cont b4
               && (0x10000 <=? c) && (c <=? 0x10FFFF)
            then cons c <$> utf8_decode r4
            else None
        | _ => None
        end
      else None
  end.

(** The [k] low-order base-256 digits of [n], least significant first. *)
Fixpoint base256_digits (n : Z) (k : nat) : list Z :=
  match k with
  | O => []
  | S k' => n mod 256 :: base256_digits (n / 256) k'
  end.

(** [n.to_bytes(length, byteorder='big')] *)
Definition to_bytes (n : Z) (length : Z) : result (list Z) :=
  if (n <? 0) || (256 ^ length <=? n) then Raise OverflowError
  else OK (rev (base256_digits n (Z.to_nat length))).

(** [binary_conversion(data, 'binary')] *)
Definition binary_conversion_binary (data : str) : result str :=
  bytes ← utf8_encode data;
  OK (concat (map (fun byte => zfill 8 (drop 2 (bin byte))) bytes)).

(** [binary_conversion(data, method)] for any other [method]. *)
Definition binary_conversion_text (data : str) : result str :=
  n ← int2 data;
  byte_list ← to_bytes n (len data / 8);
  match utf8_decode byte_list with
  | Some text => OK text
  | None => Raise UnicodeDecodeError
  end.

(** ** The program proper

    The generator of the [random] module is kept abstract: a state that
    [seed] sets from an integer or from a string, a draw of [k] distinct
    positions among [n], which is all that [sample] asks of it, and a draw
    of one integer of a range for [randint].  Every function of the program
    seeds the generator before it draws, so no state outlives a call. *)

Abbreviation slot := (Z * Z * Z * Z)%type (only parsing).

Section Program.

Context {rng : Type}.
Variable seed_int : Z -> rng.
Variable seed_str : str -> rng.
Variable draw_indices : rng -> nat -> nat -> list nat * rng.
Variable draw_int : rng -> Z -> Z -> Z * rng.

Definition sample_error : exn :=
  ValueError (lit "Sample larger than population or is negative").

(** [sample(population, k)] on the generator in state [g]. *)
Definition sample {A} (g : rng) (population : list A) (k : Z)
    : result (list A * rng) :=
  if (k <? 0) || (len population <? k) then Raise sample_error
  else
    let '(idx, g') := draw_indices g (length population) (Z.to_nat k) in
    picked ← mapM (fun j => py_index population (Z.of_nat j)) idx;
    OK (picked, g').

(** [randint(a, b)] on the generator in state [g]. *)
Definition randint (g : rng) (a b : Z) : result (Z * rng) :=
  if b <? a then Raise (ValueError (lit "empty range for randrange()"))
  else OK (draw_int g a b).

Definition shuffle {A} (key : Z) (data : list A) : result (list A) :=
  let g := seed_int key in
  r ← sample g data (len data);
  OK r.1.

(** [[sample(options, k = number_picked) for _ in range(n)]] *)
Fixpoint sample_repeat {A} (g : rng) (options : list A) (number_picked : Z)
    (n : nat) : result (list (list A)) :=
  match n with
  | O => OK []
  | S n' =>
      r ← sample g options number_picked;
      rest ← sample_repeat r.2 options number_picked n';
      OK (r.1 :: rest)
  end.

Definition random_sample {A} (key : Z) (options : list A) (length : Z)
    (number_picked : Z) : result (list (list A)) :=
  let g := seed_int key in
  sample_repeat g options number_picked (Z.to_nat length).

Definition generate_context (key : str) (img : Image) (size : Size)
    (key_pixels : Z) : result (list coord * Z) :=
  let key := decimal_encoding key in
  let key := key * (PIXELS size * 99) in
  coords ← shuffle key (product (py_range (WIDTH size)) (py_range (HEIGHT size)));
  pixels ← mapM (fun point => c ← py_index coords point; getpixel img (c.1, c.2))
                (py_range (key_pixels - 1));
  let key := key * foldr Z.add 0 (map (foldr Z.add 0) pixels) in
  coords ← shuffle key (slice_from coords key_pixels);
  OK (coords, key).

(** The body of the loop of [attach_header]. *)
Definition write_header_bit (colours : list Z) (header : str) (coords : list coord)
    (i : Z) (position : coord) (img : Image) : result Image :=
  pixel ← getpixel img (position.1, position.2);
  colour ← py_index colours i;
  channel ← py_index pixel colour;
  let value := integer_conversion_binary channel in
  bit ← py_index header i;
  modified_value ← integer_conversion_integer (slice_to value (-1) ++ [bit]);
  pixel ← py_setitem pixel colour modified_value;
  target ← py_index coords i;
  putpixel img (target.1, target.2) pixel.

Definition attach_header (img : Image) (key : Z) (header : str)
    (coords : list coord) : result (list coord * Image) :=
  let length := len header in
  let header_coords := slice_to coords (length - 1) in
  colours ← random_sample key [0; 1; 2] length 1;
  let colours := concat colours in
  img ← for_enumerate (write_header_bit colours header coords) 0 header_coords img;
  OK (slice_from coords length, img).

(** [generate_numbers(min_value, max_value, number_values)]; [entropy] is
    what [token_hex(64)] reads from the operating system. *)
Fixpoint randint_repeat (g : rng) (min_value max_value : Z) (n : nat) : result str :=
  match n with
  | O => OK []
  | S n' =>
      r ← randint g min_value max_value;
      rest ← randint_repeat r.2 min_value max_value n';
      OK (str_of_int r.1 ++ rest)
  end.

Definition generate_numbers (entropy : str) (min_value max_value number_values : Z)
    : result str :=
  let g := seed_str entropy in
  randint_repeat g min_value max_value (Z.to_nat number_values).

Definition capacity_error (by_ : Z) : exn :=
  ValueError (lit "Message size exceeded by " ++ str_of_int by_ ++ lit " bits").

Definition generate_message (entropy : str) (cfg : Configuration) (data : str)
    (coords : list slot) : result str :=
  let capacity := len coords in
  data ← binary_conversion_binary data;
  let end_key_size := len (integer_conversion_binary capacity) in
  let data_size := len data in
  let size := end_key_size + data_size in
  if capacity <? size then Raise (capacity_error (size - capacity))
  else
    noise ← (if NOISE cfg then generate_numbers entropy 0 1 (capacity - size)
             else OK (lit ""));
    let end_key := zfill end_key_size (integer_conversion_binary data_size) in
    OK (end_key ++ data ++ noise).

Definition generate_coords (cfg : Configuration) (size : Size)
    (pixel_coords : list coord) : result (list slot) :=
  let colours := values (COLOURS cfg) in
  let indexs := values (INDEXS cfg) in
  let method := METHOD cfg in
  let key := KEY cfg in
  let length := PIXELS size in
  let random := bool_decide (method = lit "random") in
  picks ← (if random then random_sample key colours length 1 else OK []);
  data_coords ← for_enumerate (fun i coordinate data_coords =>
      chosen ← (if random then py_index picks i else OK colours);
      OK (data_coords ++
          (colour ← chosen;
           map (fun index => (coordinate.1, coordinate.2, colour, index)) indexs)))
    0 pixel_coords [];
  shuffle key data_coords.

(** The body of the loop of [attach_data]. *)
Definition write_data_bit (binary_message : str) (coords : list slot)
    (i : Z) (position : slot) (img : Image) : result Image :=
  let '(x, y, colour, index) := position in
  pixel ← getpixel img (x, y);
  channel ← py_index pixel colour;
  let value := integer_conversion_binary channel in
  bit ← py_index binary_message i;
  value ← py_setitem value index bit;
  modified_value ← integer_conversion_integer value;
  pixel ← py_setitem pixel colour modified_value;
  target ← py_index coords i;
  putpixel img (target.1.1.1, target.1.1.2) pixel.

Definition attach_data (img : Image) (cfg : Configuration) (binary_message : str)
    (coords : list slot) : result Image :=
  let coords := if negb (NOISE cfg) then slice_to coords (len binary_message)
                else coords in
  for_enumerate (write_data_bit binary_message coords) 0 coords img.

(** [extract_header] and [extract_message] have the body [pass]: they
    return [None]. *)
Definition extract_header (img : Image) (key : str) (coords : list coord)
    : option (str * bool * option (list Z) * option (list Z) * list coord) := None.

Definition extract_message : option str := None.

(** [data_insert] between [load_image] and [save_image]: from the image
    loaded to the image saved. *)
Definition data_insert (entropy : str) (img : Image) (key data method : str)
    (colours indexs : option (list Z)) (noise : bool) : result Image :=
  let size := size_of img in
  '(coords, image_key) ← generate_context key img size 16;
  cfg ← build_object image_key method noise colours indexs;
  header ← generate_header cfg;
  '(cut_coords, img) ← attach_header img image_key header coords;
  data_coords ← generate_coords cfg size cut_coords;
  binary_message ← generate_message entropy cfg data data_coords;
  attach_data img cfg binary_message data_coords.

(** [data_extract] after [load_image].  Unpacking the [None] that
    [extract_header] returns raises [TypeError]; the function has no
    [return], so it would give [None] if it came to its end. *)
Definition data_extract (img : Image) (key : str) : result (option str) :=
  let size := size_of img in
  '(coords, image_key) ← generate_context key img size 16;
  match extract_header img key coords with
  | None => Raise TypeError
  | Some (method, noise, colours, indexs, cut_coords) =>
      cfg ← build_object image_key method noise colours indexs;
      data_coords ← generate_coords cfg size cut_coords;
      let binary_message := extract_message in
      OK None
  end.

(** The pixels that [generate_context] reads to bind the key to the image:
    those at the first [key_pixels - 1] coordinates of the first shuffle. *)
Definition bootstrap_pixels (key : str) (img : Image) (size : Size)
    (key_pixels : Z) : result (list pixel) :=
  coords ← shuffle (decimal_encoding key * (PIXELS size * 99))
             (product (py_range (WIDTH size)) (py_range (HEIGHT size)));
  mapM (fun point => c ← py_index coords point; getpixel img (c.1, c.2))
       (py_range (key_pixels - 1)).

End Program.

(** A small generator to run the program on: the state is a counter, the
    positions drawn are the first [k] of [0 .. n-1], taken from the front
    or from the back according to the parity of the counter. *)
Module Toy.
Definition seed_int (key : Z) : Z := key.
Definition seed_str (s : str) : Z := decimal_encoding s.
Definition draw_indices (g : Z) (n k : nat) : list nat * Z :=
  (take k (if Z.even g then seq 0 n else rev (seq 0 n)), g + 1).
Definition draw_int (g : Z) (a b : Z) : Z * Z :=
  (if Z.even g then a else b, g + 1).
End Toy.

(** The image of the given size with every channel of every pixel at [v]. *)
Definition flat_image (w h v : Z) : Image :=
  mkImage (w, h)
    (list_to_map (map (fun xy => (xy, [v; v; v])) (product (py_range w) (py_range h)))).

(** The configuration that [data_insert] builds by default: method
    "random", the three channels, the two low bit positions. *)
Definition default_cfg : Configuration :=
  mkConfiguration [(lit "red", 0); (lit "green", 1); (lit "blue", 2)]
    [(lit "7th", 6); (lit "8th", 7)] 2 (lit "random") false 5.

(** ** The image files

    The directory of the images is a finite map from paths to images:
    [Image.open] finds the image stored at a path or fails, and
    [Image.save] stores an image at a path. *)

(** [s.endswith(suffix)] *)
Definition endswith (s suffix : str) : bool :=
  bool_decide (drop (length s - length suffix) s = suffix).

(** [load_image(filename, type)] *)
Definition load_image (files : gmap (list Z) Image) (filename type : str)
    : result (Image * Size) :=
  let filename := if negb (endswith filename type) then filename ++ type else filename in
  match files !! (lit "Images/" ++ filename) with
  | Some image => OK (image, size_of image)
  | None => Raise (ValueError (lit "No .PNG at Images/" ++ filename))
  end.

(** [save_image(filename, Image, type)]: the directory after the image is
    saved. *)
Definition save_image (files : gmap (list Z) Image) (filename : str) (img : Image)
    (type : str) : gmap (list Z) Image :=
  let filename := if endswith filename type
                  then slice_to filename (-4) ++ lit "_result" ++ type
                  else filename ++ lit "_result" ++ type in
  <[lit "Images/" ++ filename := img]> files.

(** The path that [load_image] opens and the path that [save_image] writes,
    for the default type. *)
Definition load_path (filename : str) : list Z :=
  lit "Images/"
  ++ (if negb (endswith filename (lit ".png")) then filename ++ lit ".png" else filename).

Definition save_path (filename : str) : list Z :=
  lit "Images/"
  ++ (if endswith filename (lit ".png")
      then slice_to filename (-4) ++ lit "_result" ++ lit ".png"
      else filename ++ lit "_result" ++ lit ".png").

(** ** Vocabulary of the statements *)

(** The character that flags the presence of [k] in [l]. *)
Definition presence (l : list Z) (k : Z) : Z :=
  if bool_decide (k ∈ l) then c1 else c0.

(** The presence bitmap of [l] over [0 .. n-1]. *)
Definition bitmap (n : Z) (l : list Z) : str := map (presence l) (py_range n).


(** The slots of the method "all": every coordinate, every channel, every
    bit position, in that nesting. *)
Definition all_slots (colours indexs : list Z) (coords : list coord) : list slot :=
  coordinate ← coords; colour ← colours;
  map (fun index => (coordinate.1, coordinate.2, colour, index)) indexs.

(** The slots of the method "random": the i-th coordinate with the i-th
    channel drawn, at every bit position. *)
Fixpoint random_slots (picks indexs : list Z) (coords : list coord)
    {struct coords} : list slot :=
  match coords, picks with
  | coordinate :: coords', colour :: picks' =>
      map (fun index => (coordinate.1, coordinate.2, colour, index)) indexs
      ++ random_slots picks' indexs coords'
  | _, _ => []
  end.

(** A binary digit, and a string of binary digits. *)
Definition is_bit (c : Z) : Prop := c = c0 \/ c = c1.
Definition bitstring (s : str) : Prop := Forall is_bit s.

(** [n.bit_length()]: the number of binary digits of [n]. *)
Definition bit_length (n : Z) : Z :=
  match n with
  | Z0 => 0
  | Zpos p | Zneg p => Zpos (Pos.size p)
  end.

(** The binary digits of a natural number, without prefix and without
    padding. *)
Definition digits (n : Z) : str :=
  match n with
  | Zpos p => bin_pos p
  | _ => [c0]
  end.

(** The width that [generate_message] gives to the length prefix: the
    local [end_key_size] of the source. *)
Definition length_prefix_width (capacity : Z) : Z :=
  len (integer_conversion_binary capacity).

(** The pixels outside of [region] are the same in both images. *)
Definition same_outside (region : list (Z * Z)) (img img' : Image) : Prop :=
  forall xy, xy ∉ region -> image_data img' !! xy = image_data img !! xy.

(** The bit at place [index] of a channel byte, place 0 being the most
    significant of the eight. *)
Definition byte_bit (v index : Z) : bool := Z.testbit v (7 - index).

(** The byte [v] with the bit at place [index] set to the binary digit [b]. *)
Definition write_bit (v index b : Z) : Z :=
  if bool_decide (b = c1) then Z.setbit v (7 - index) else Z.clearbit v (7 - index).

(** The value of channel [colour] of the pixel at [(x, y)]. *)
Definition channel_value (img : Image) (x y colour : Z) : option Z :=
  p ← image_data img !! (x, y);
  if colour <? 0 then None else p !! Z.to_nat colour.

(** The bit that a slot addresses. *)
Definition read_bit (img : Image) (s : Z * Z * Z * Z) : option bool :=
  v ← channel_value img s.1.1.1 s.1.1.2 s.1.2;
  Some (byte_bit v s.2).

(** Every channel of every pixel holds a byte. *)
Definition byte_image (img : Image) : Prop :=
  forall xy p, image_data img !! xy = Some p -> Forall (fun v => 0 <= v < 256) p.

(** The slot addresses a bit of the image: its pixel is there, its channel
    is one of the pixel, its place is one of the eight. *)
Definition slot_in_image (img : Image) (s : Z * Z * Z * Z) : Prop :=
  exists p, image_data img !! (s.1.1.1, s.1.1.2) = Some p
            /\ 0 <= s.1.2 < len p /\ 0 <= s.2 < 8.

(** The slots that [attach_data] runs over. *)
Definition written_slots (cfg : Configuration) (binary_message : str)
    (coords : list (Z * Z * Z * Z)) : list (Z * Z * Z * Z) :=
  if negb (NOISE cfg) then slice_to coords (len binary_message) else coords.

(** The test that the string operations of one round of [attach_data] on
    the byte [v] give [write_bit v index b], a byte again. *)
Definition byte_write_ok (v index b : Z) : bool :=
  match py_setitem (integer_conversion_binary v) index b ≫= integer_conversion_integer with
  | OK v' => (v' =? write_bit v index b) && (0 <=? v') && (v' <? 256)
  | Raise _ => false
  end.

(** The image after the bit of the slot [(x, y, colour, index)] is written
    with the digit [b], given the pixel [p] and the channel byte [v] that
    the slot addresses. *)
Definition image_with_bit (img : Image) (x y colour index b : Z) (p : list Z) (v : Z)
    : Image :=
  mkImage (image_size img)
    (<[(x, y) := <[Z.to_nat colour := write_bit v index b]> p]> (image_data img)).

(** The number that a string of binary digits denotes, continuing from
    the number [acc] of the digits read so far. *)
Fixpoint bits_value (acc : Z) (s : str) : Z :=
  match s with
  | [] => acc
  | c :: r => bits_value (2 * acc + (c - c0)) r
  end.

(** The bytes that a string of binary digits packs, eight digits to a byte,
    most significant digit first; digits short of a byte at the end are
    left out. *)
Fixpoint pack (s : str) : list Z :=
  match s with
  | b7 :: b6 :: b5 :: b4 :: b3 :: b2 :: b1 :: b0 :: r =>
      bits_value 0 [b7; b6; b5; b4; b3; b2; b1; b0] :: pack r
  | _ => []
  end.

(** The test that [binary_conversion] writes the byte [b] as eight binary
    digits whose value is [b]. *)
Definition byte_bits_ok (b : Z) : bool :=
  match zfill 8 (drop 2 (bin b)) with
  | [b7; b6; b5; b4; b3; b2; b1; b0] =>
      forallb (fun c => (c =? c0) || (c =? c1)) [b7; b6; b5; b4; b3; b2; b1; b0]
      && (bits_value 0 [b7; b6; b5; b4; b3; b2; b1; b0] =? b)
  | _ => false
  end.

(** ** Vocabulary of the further properties *)

(** The first character of the text, if any, is not the character 0. *)
Definition no_leading_nul (text : list Z) : Prop :=
  match text with
  | [] => True
  | c :: _ => c <> 0
  end.

(** Every position of the grid of the image has a pixel. *)
Definition complete_image (img : Image) : Prop :=
  forall x y, 0 <= x < (image_size img).1 -> 0 <= y < (image_size img).2 ->
              is_Some (image_data img !! (x, y)).

(** The dictionary holds places of the table [names] under their names, no
    place twice. *)
Definition dict_for (names : list (list Z)) (d : list (list Z * Z)) : Prop :=
  Forall (fun kv => 0 <= kv.2 /\ names !! Z.to_nat kv.2 = Some kv.1) d
  /\ NoDup (values d).

(** The test that the string operations of one round of [attach_header] on
    the byte [v] give [write_bit v 7 b], a byte again. *)
Definition header_write_ok (v b : Z) : bool :=
  match integer_conversion_integer (slice_to (integer_conversion_binary v) (-1) ++ [b]) with
  | OK v' => (v' =? write_bit v 7 b) && (0 <=? v') && (v' <? 256)
  | Raise _ => false
  end.

(** The second image has the size of the first and the same pixels outside
    of [region]. *)
Definition frame (region : list (Z * Z)) (img img' : Image) : Prop :=
  image_size img' = image_size img /\ same_outside region img img'.

(** The slots in [later] are slots of [earlier] or are at one of the
    coordinates [coords]. *)
Definition slots_within (coords : list (Z * Z)) (earlier later : list (Z * Z * Z * Z))
    : Prop :=
  forall s, s ∈ later -> s ∈ earlier \/ (s.1.1.1, s.1.1.2) ∈ coords.

(** An image of non-negative width and height that has a pixel at every
    position of its grid, every pixel with three channels or more, every
    channel a byte. *)
Definition rgb_image (img : Image) : Prop :=
  0 <= (image_size img).1 /\ 0 <= (image_size img).2
  /\ complete_image img /\ byte_image img
  /\ forall xy p, image_data img !! xy = Some p -> 3 <= len p.

(** The number of message bits that an image takes for a choice of method,
    channels and bit positions: 16 pixels go to the key and 12 to the
    header, every other pixel gives one bit for each bit position selected
    in one channel (method "random") or in every channel selected. *)
Definition slot_capacity (img : Image) (method : list Z) (colours indexs : option (list Z))
    : Z :=
  Z.max 0 ((image_size img).1 * (image_size img).2 - 28)
  * len (remove_dups (default [6; 7] indexs))
  * (if bool_decide (method = lit "random") then 1
     else len (remove_dups (default [0; 1; 2] colours))).

(** The code points that have a UTF-8 encoding, and those of a [str] that
    have none. *)
Definition scalar_value (c : Z) : Prop := 0 <= c < 0xD800 \/ 0xE000 <= c < 0x110000.
Definition surrogate (c : Z) : Prop := 0xD800 <= c <= 0xDFFF.

(** The number of bytes of the UTF-8 encoding of a code point. *)
Definition utf8_width (c : Z) : Z :=
  if c <? 0x80 then 1 else if c <? 0x800 then 2 else if c <? 0x10000 then 3 else 4.

(** * Properties *)

(** ** The error monad and Python indexing *)

Lemma bind_OK {A B} (r : result A) (k : A -> result B) (b : B) :
  r ≫= k = OK b <-> exists a, r = OK a /\ k a = OK b.
Proof.
  destruct r as [a|e]; simpl; split.
  - eauto.
  - intros (a' & [= <-] & H). exact H.
  - discriminate.
  - intros (a' & [=] & _).
Qed.

Lemma bind_ret {A B} (a : A) (k : A -> result B) : OK a ≫= k = k a.
Proof. done. Qed.

(** Rewriting with an equation [r = OK a] and running the continuation. *)
Ltac run_with H := rewrite H, bind_ret; cbv beta.

Lemma len_nonneg {A} (l : list A) : 0 <= len l.
Proof. unfold len. lia. Qed.

Lemma len_app {A} (l k : list A) : len (l ++ k) = len l + len k.
Proof. unfold len. rewrite length_app. lia. Qed.

Lemma len_cons {A} (a : A) (l : list A) : len (a :: l) = 1 + len l.
Proof. unfold len. simpl. lia. Qed.

Lemma py_index_nat {A} (l : list A) (i : nat) :
  py_index l (Z.of_nat i) = match l !! i with Some a => OK a | None => Raise IndexError end.
Proof.
  unfold py_index.
  destruct (Z.ltb_spec (Z.of_nat i) 0); [lia|].
  destruct (Z.ltb_spec (Z.of_nat i) 0); [lia|].
  by rewrite Nat2Z.id.
Qed.

Lemma py_index_OK {A} (l : list A) (i : Z) (a : A) :
  0 <= i -> py_index l i = OK a <-> l !! Z.to_nat i = Some a.
Proof.
  intros Hi. rewrite <- (Z2Nat.id i) at 1 by done. rewrite py_index_nat.
  destruct (l !! Z.to_nat i); split; congruence.
Qed.

Lemma py_setitem_nat {A} (l : list A) (i : nat) (v : A) :
  (i < length l)%nat -> py_setitem l (Z.of_nat i) v = OK (<[i := v]> l).
Proof.
  intros Hi. unfold py_setitem, len.
  destruct (Z.ltb_spec (Z.of_nat i) 0); [lia|].
  destruct (Z.ltb_spec (Z.of_nat i) 0); [lia|].
  destruct (Z.leb_spec (Z.of_nat (length l)) (Z.of_nat i)); [lia|].
  simpl. by rewrite Nat2Z.id.
Qed.

(** ** The header encoder *)

Lemma py_range_lookup (n : Z) (k : nat) :
  (k < Z.to_nat n)%nat -> py_range n !! k = Some (Z.of_nat k).
Proof.
  intros Hk. unfold py_range. rewrite list_lookup_fmap, lookup_seq_lt by done.
  done.
Qed.

Lemma py_range_length (n : Z) : length (py_range n) = Z.to_nat n.
Proof. unfold py_range. by rewrite length_map, length_seq. Qed.

Lemma elem_of_py_range (n k : Z) : k ∈ py_range n <-> 0 <= k < n.
Proof.
  unfold py_range. rewrite list_elem_of_fmap. setoid_rewrite elem_of_seq.
  split.
  - intros (j & -> & Hj). lia.
  - intros Hk. exists (Z.to_nat k). lia.
Qed.

(** Marking a table whose entries are single characters at the places of
    [l] turns the bitmap of the places marked so far into the bitmap of
    those and [l]. *)
Lemma mark_table_bitmap (n : Z) (l done_ : list Z) :
  Forall (fun i => 0 <= i < n) l ->
  mark_table (map (fun c => [c]) (bitmap n done_)) l
  = OK (map (fun c => [c]) (bitmap n (done_ ++ l))).
Proof.
  revert done_. induction l as [|i l IH]; intros done_ Hl.
  - by rewrite app_nil_r.
  - apply Forall_cons in Hl as [Hi Hl]. unfold mark_table. simpl.
    rewrite <- (Z2Nat.id i) at 1 by lia.
    rewrite py_setitem_nat
      by (unfold bitmap; rewrite !length_map, py_range_length; lia).
    simpl. change (for_each _ l ?t) with (mark_table t l).
    replace (<[Z.to_nat i:=lit "1"]> (map (fun c => [c]) (bitmap n done_)))
      with (map (fun c : Z => [c]) (bitmap n (done_ ++ [i]))).
    { rewrite IH by done. by rewrite <- app_assoc. }
    apply list_eq. intros k.
    destruct (decide (k = Z.to_nat i)) as [->|Hne].
    + rewrite list_lookup_insert_eq
        by (unfold bitmap; rewrite !length_map, py_range_length; lia).
      unfold bitmap. rewrite !list_lookup_fmap, py_range_lookup by lia. simpl.
      unfold presence. rewrite bool_decide_true; [done|].
      rewrite Z2Nat.id by lia. rewrite elem_of_app, list_elem_of_singleton. by right.
    + rewrite list_lookup_insert_ne by done.
      unfold bitmap. rewrite !list_lookup_fmap.
      destruct (py_range n !! k) as [j|] eqn:Hj; [|done]. simpl.
      do 2 f_equal. unfold presence.
      assert (j = Z.of_nat k) as ->.
      { pose proof (lookup_lt_Some _ _ _ Hj) as Hk. rewrite py_range_length in Hk.
        rewrite py_range_lookup in Hj by done. congruence. }
      rewrite (bool_decide_ext (Z.of_nat k ∈ done_ ++ [i]) (Z.of_nat k ∈ done_));
        [done|].
      rewrite elem_of_app, list_elem_of_singleton.
      split; [|tauto]. intros [?|?]; [done|lia].
Qed.

Lemma presence_nil (k : Z) : presence [] k = c0.
Proof. unfold presence. rewrite bool_decide_false; [done|]. apply not_elem_of_nil. Qed.

(** C6. For a configuration whose channels are among 0, 1, 2 and whose bit
    positions are among 0 .. 7, [generate_header] returns twelve
    characters: the method flag, which is "1" exactly for the method
    "random", then the presence bitmap of the channels over red, green,
    blue, then the presence bitmap of the bit positions over 0 .. 7. *)
Theorem generate_header_layout (cfg : Configuration) :
  Forall (fun c => 0 <= c < 3) (values (COLOURS cfg)) ->
  Forall (fun i => 0 <= i < 8) (values (INDEXS cfg)) ->
  generate_header cfg
  = OK ([if bool_decide (METHOD cfg = lit "random") then c1 else c0]
        ++ bitmap 3 (values (COLOURS cfg)) ++ bitmap 8 (values (INDEXS cfg)))
  /\ length ([if bool_decide (METHOD cfg = lit "random") then c1 else c0]
        ++ bitmap 3 (values (COLOURS cfg)) ++ bitmap 8 (values (INDEXS cfg))) = 12%nat.
Proof.
  intros Hc Hi. split.
  - unfold generate_header.
    pose proof (mark_table_bitmap 3 (values (COLOURS cfg)) [] Hc) as H3.
    pose proof (mark_table_bitmap 8 (values (INDEXS cfg)) [] Hi) as H8.
    simpl in H3, H8. rewrite !presence_nil in H3. rewrite !presence_nil in H8.
    change (replicate 3 (lit "0")) with [[c0]; [c0]; [c0]].
    change (replicate 8 (lit "0"))
      with [[c0]; [c0]; [c0]; [c0]; [c0]; [c0]; [c0]; [c0]].
    rewrite H3. simpl. rewrite H8. simpl.
    by destruct (bool_decide _).
  - unfold bitmap. rewrite length_app, length_app, !length_map, !py_range_length. done.
Qed.

Lemma generate_header_layout_witness :
  Forall (fun c => 0 <= c < 3) (values (COLOURS default_cfg))
  /\ Forall (fun i => 0 <= i < 8) (values (INDEXS default_cfg))
  /\ generate_header default_cfg = OK (lit "111100000011")
  /\ length (lit "111100000011") = 12%nat.
Proof.
  assert (Forall (fun c => 0 <= c < 3) (values (COLOURS default_cfg))) as Hc
    by (repeat (apply Forall_cons_2; [simpl; lia|]); apply Forall_nil_2).
  assert (Forall (fun i => 0 <= i < 8) (values (INDEXS default_cfg))) as Hi
    by (repeat (apply Forall_cons_2; [simpl; lia|]); apply Forall_nil_2).
  split; [exact Hc|]. split; [exact Hi|].
  exact (generate_header_layout default_cfg Hc Hi).
Defined.

(** ** The generator and the two ways the program draws from it *)

Lemma mapM_py_index {A} (l : list A) (d : A) (idx : list nat) :
  Forall (fun j => (j < length l)%nat) idx ->
  mapM (fun j => py_index l (Z.of_nat j)) idx
  = OK ((fun j => default d (l !! j)) <$> idx).
Proof.
  induction 1 as [|j idx Hj _ IH]; [done|].
  simpl. rewrite py_index_nat.
  destruct (lookup_lt_is_Some_2 l j Hj) as [a Ha]. rewrite Ha. simpl.
  rewrite IH. done.
Qed.

Lemma fmap_lookup_seq {A} (l : list A) (d : A) :
  (fun j => default d (l !! j)) <$> seq 0 (length l) = l.
Proof.
  apply list_eq. intros i. rewrite list_lookup_fmap.
  destruct (decide (i < length l)%nat) as [Hi|Hi].
  - rewrite lookup_seq_lt by done. simpl.
    destruct (lookup_lt_is_Some_2 l i Hi) as [a Ha]. by rewrite Ha.
  - rewrite lookup_seq_ge by lia. symmetry. apply lookup_ge_None. lia.
Qed.

Section Generator.

Context {rng : Type}.
Variable seed_int : Z -> rng.
Variable draw_indices : rng -> nat -> nat -> list nat * rng.

(** What [sample] needs of the generator: [k] distinct positions of a
    population of [n]. *)
Hypothesis draw_indices_distinct : forall g n k,
  (k <= n)%nat ->
  length (draw_indices g n k).1 = k
  /\ NoDup (draw_indices g n k).1
  /\ Forall (fun j => (j < n)%nat) (draw_indices g n k).1.

(** [sample] returns [k] elements of the population, none taken twice. *)
Lemma sample_submseteq {A} (g : rng) (population : list A) (k : Z) :
  0 <= k <= len population ->
  exists picked g',
    sample draw_indices g population k = OK (picked, g')
    /\ length picked = Z.to_nat k
    /\ picked ⊆+ population.
Proof.
  intros Hk. unfold sample.
  destruct (Z.ltb_spec k 0); [lia|].
  destruct (Z.ltb_spec (len population) k); [lia|]. simpl.
  destruct (draw_indices_distinct g (length population) (Z.to_nat k))
    as (Hlen & Hnd & Hlt); [unfold len in Hk; lia|].
  destruct (draw_indices g (length population) (Z.to_nat k)) as [idx g'].
  simpl in *.
  destruct population as [|d population'] eqn:Hp.
  { destruct idx as [|j idx]; [|apply Forall_cons in Hlt as [? _]; simpl in *; lia].
    simpl. exists [], g'. split_and!; [done|done|done]. }
  rewrite <- Hp in *.
  rewrite (mapM_py_index population d idx Hlt). simpl.
  eexists _, g'. split_and!; [done|by rewrite length_fmap|].
  assert (idx ⊆+ seq 0 (length population)) as Hsub.
  { apply NoDup_submseteq; [done|].
    intros j Hj. apply elem_of_seq.
    rewrite Forall_forall in Hlt. specialize (Hlt j Hj). lia. }
  apply (fmap_submseteq (fun j => default d (population !! j))) in Hsub.
  by rewrite fmap_lookup_seq in Hsub.
Qed.

(** [shuffle] returns a permutation of its argument. *)
Lemma shuffle_permutation {A} (key : Z) (data : list A) :
  exists shuffled,
    shuffle seed_int draw_indices key data = OK shuffled /\ shuffled ≡ₚ data.
Proof.
  unfold shuffle.
  destruct (sample_submseteq (seed_int key) data (len data))
    as (picked & g' & -> & Hlen & Hsub); [pose proof (len_nonneg data); lia|].
  simpl. exists picked. split; [done|].
  apply submseteq_length_Permutation; [done|].
  rewrite Hlen. unfold len. lia.
Qed.

(** One draw of a single option, repeated: each draw is a one-element
    list holding one of the options. *)
Lemma sample_repeat_single {A} (g : rng) (options : list A) (n : nat) :
  options <> [] ->
  exists picks,
    sample_repeat draw_indices g options 1 n = OK (map (fun c => [c]) picks)
    /\ length picks = n
    /\ Forall (fun c => c ∈ options) picks.
Proof.
  intros Hne. revert g. induction n as [|n IH]; intros g.
  - exists []. by split_and!.
  - simpl.
    destruct (sample_submseteq g options 1) as (picked & g' & -> & Hlen & Hsub).
    { destruct options; [done|]. rewrite len_cons. pose proof (len_nonneg options). lia. }
    simpl. destruct (IH g') as (picks & -> & Hn & Hin). simpl.
    destruct picked as [|c [|? ?]]; try done.
    exists (c :: picks). split_and!; [done|simpl; lia|].
    constructor; [|done].
    eapply elem_of_submseteq; [|done]. by left.
Qed.

(** The draws of [random_sample] come one after the other from the seeded
    generator: asking for fewer of them gives the first of the longer run. *)
Lemma sample_repeat_prefix {A} (g : rng) (options : list A) (k : Z) (n m : nat)
    (picks : list (list A)) :
  (n <= m)%nat ->
  sample_repeat draw_indices g options k m = OK picks ->
  sample_repeat draw_indices g options k n = OK (take n picks).
Proof.
  revert g m picks. induction n as [|n IH]; intros g m picks Hnm Hm; [done|].
  destruct m as [|m]; [lia|]. cbn [sample_repeat] in *.
  apply bind_OK in Hm as (r & Hr & Hm). apply bind_OK in Hm as (rest & Hrest & Hm).
  injection Hm as <-. run_with Hr.
  rewrite (IH r.2 m rest) by (done || lia). done.
Qed.

Lemma random_sample_prefix {A} (key : Z) (options : list A) (n m : Z)
    (picks : list (list A)) :
  n <= m ->
  random_sample seed_int draw_indices key options m 1 = OK picks ->
  random_sample seed_int draw_indices key options n 1 = OK (take (Z.to_nat n) picks).
Proof.
  unfold random_sample. intros Hnm. apply sample_repeat_prefix. lia.
Qed.

(** *** Key derivation *)

Lemma sum_zero (l : list Z) : Forall (fun v => v = 0) l -> foldr Z.add 0 l = 0.
Proof. induction 1 as [|v l -> _ IH]; simpl; lia. Qed.

Lemma sum_sum_zero (pixels : list pixel) :
  Forall (Forall (fun v => v = 0)) pixels ->
  foldr Z.add 0 (map (foldr Z.add 0) pixels) = 0.
Proof.
  induction 1 as [|p pixels Hp _ IH]; simpl; [done|].
  rewrite (sum_zero p Hp). lia.
Qed.

Lemma generate_context_zero (key : str) (img : Image) (size : Size)
    (pixels : list pixel) :
  bootstrap_pixels seed_int draw_indices key img size 16 = OK pixels ->
  Forall (Forall (fun v => v = 0)) pixels ->
  exists coords,
    generate_context seed_int draw_indices key img size 16 = OK (coords, 0).
Proof.
  unfold bootstrap_pixels, generate_context. intros Hboot Hzero.
  apply bind_OK in Hboot as (coords & -> & Hpx).
  destruct (shuffle_permutation 0 (slice_from coords 16)) as (coords' & Hs & _).
  exists coords'.
  rewrite bind_ret. cbv beta. run_with Hpx.
  rewrite (sum_sum_zero pixels Hzero), Z.mul_0_r. run_with Hs.
  done.
Qed.

(** C10. When the fifteen pixels that [generate_context] samples have all
    their channels at zero, the derived key is 0 whatever the key text:
    two runs with two keys on such an image end with the same derived key. *)
Theorem generate_context_key_independent (key1 key2 : str) (img : Image)
    (size : Size) (pixels1 pixels2 : list pixel) :
  bootstrap_pixels seed_int draw_indices key1 img size 16 = OK pixels1 ->
  Forall (Forall (fun v => v = 0)) pixels1 ->
  bootstrap_pixels seed_int draw_indices key2 img size 16 = OK pixels2 ->
  Forall (Forall (fun v => v = 0)) pixels2 ->
  exists coords1 coords2,
    generate_context seed_int draw_indices key1 img size 16 = OK (coords1, 0)
    /\ generate_context seed_int draw_indices key2 img size 16 = OK (coords2, 0).
Proof.
  intros H1 Hz1 H2 Hz2.
  destruct (generate_context_zero key1 img size pixels1 H1 Hz1) as [coords1 ?].
  destruct (generate_context_zero key2 img size pixels2 H2 Hz2) as [coords2 ?].
  by exists coords1, coords2.
Qed.

(** *** The slot planner *)

Lemma length_bind_const {A B} (f : A -> list B) (l : list A) (m : nat) :
  (forall x, length (f x) = m) -> length (l ≫= f) = (length l * m)%nat.
Proof.
  intros Hf. induction l as [|x l IH]; [done|].
  rewrite bind_cons, length_app, Hf, IH. simpl. lia.
Qed.

Lemma all_slots_length (colours indexs : list Z) (coords : list coord) :
  len (all_slots colours indexs coords) = len coords * len colours * len indexs.
Proof.
  unfold all_slots, len.
  rewrite (length_bind_const _ coords (length colours * length indexs)); [lia|].
  intros coordinate. apply length_bind_const.
  intros colour. apply length_map.
Qed.

Lemma random_slots_length (picks indexs : list Z) (coords : list coord) :
  (length coords <= length picks)%nat ->
  len (random_slots picks indexs coords) = len coords * len indexs.
Proof.
  unfold len. revert picks.
  induction coords as [|coordinate coords IH]; intros picks Hlen; [simpl; lia|].
  destruct picks as [|colour picks]; cbn [random_slots length] in *; [lia|].
  rewrite length_app, length_map, Nat2Z.inj_add, IH by lia. lia.
Qed.

Lemma plan_all (colours indexs : list Z) (picks : list (list Z))
    (pixel_coords : list coord) (i : Z) (data_coords : list slot) :
  for_enumerate (fun i (coordinate : coord) data_coords =>
      chosen ← (if false then py_index picks i else OK colours);
      OK (data_coords ++
          (colour ← chosen;
           map (fun index => (coordinate.1, coordinate.2, colour, index)) indexs)))
    i pixel_coords data_coords
  = OK (data_coords ++ all_slots colours indexs pixel_coords).
Proof.
  revert i data_coords.
  induction pixel_coords as [|coordinate coords IH]; intros i data_coords; simpl.
  - by rewrite app_nil_r.
  - rewrite IH. unfold all_slots. simpl. by rewrite <- app_assoc.
Qed.

Lemma plan_random (indexs picks : list Z) (colours : list Z)
    (pixel_coords : list coord) (i : nat) (data_coords : list slot) :
  (i + length pixel_coords <= length picks)%nat ->
  for_enumerate (fun i (coordinate : coord) data_coords =>
      chosen ← (if true then py_index (map (fun c => [c]) picks) i else OK colours);
      OK (data_coords ++
          (colour ← chosen;
           map (fun index => (coordinate.1, coordinate.2, colour, index)) indexs)))
    (Z.of_nat i) pixel_coords data_coords
  = OK (data_coords ++ random_slots (drop i picks) indexs pixel_coords).
Proof.
  revert i data_coords.
  induction pixel_coords as [|coordinate coords IH]; intros i data_coords Hlen; simpl.
  - by rewrite app_nil_r.
  - simpl in Hlen. rewrite py_index_nat, list_lookup_fmap.
    destruct (lookup_lt_is_Some_2 picks i) as [colour Hc]; [lia|].
    rewrite Hc. simpl.
    replace (Z.of_nat i + 1) with (Z.of_nat (S i)) by lia.
    rewrite IH by lia.
    rewrite (drop_S picks colour i Hc). simpl.
    by rewrite app_nil_r, <- app_assoc.
Qed.

(** C7. [generate_coords] plans, for the method "random", one slot per
    coordinate and selected bit position with the channel drawn for that
    coordinate by [random_sample] from the key of the configuration, and
    otherwise one slot per coordinate, selected channel and selected bit
    position; it returns that plan shuffled once with the key, so the
    capacity is the number of coordinates times the number of bit positions,
    times the number of channels when the method is not "random". *)
Theorem generate_coords_plan (cfg : Configuration) (size : Size)
    (pixel_coords : list coord) :
  (METHOD cfg = lit "random" ->
   values (COLOURS cfg) <> [] /\ len pixel_coords <= PIXELS size) ->
  exists picks planned slots,
    (if bool_decide (METHOD cfg = lit "random")
     then random_sample seed_int draw_indices (KEY cfg) (values (COLOURS cfg))
            (PIXELS size) 1 = OK (map (fun c => [c]) picks)
          /\ Forall (fun c => c ∈ values (COLOURS cfg)) picks
          /\ planned = random_slots picks (values (INDEXS cfg)) pixel_coords
          /\ len planned = len pixel_coords * len (values (INDEXS cfg))
     else planned = all_slots (values (COLOURS cfg)) (values (INDEXS cfg)) pixel_coords
          /\ len planned = len pixel_coords * len (values (COLOURS cfg))
                           * len (values (INDEXS cfg)))
    /\ shuffle seed_int draw_indices (KEY cfg) planned = OK slots
    /\ generate_coords seed_int draw_indices cfg size pixel_coords = OK slots
    /\ slots ≡ₚ planned
    /\ len slots = len planned.
Proof.
  intros Hrandom. unfold generate_coords.
  destruct (bool_decide (METHOD cfg = lit "random")) eqn:Hm.
  - apply bool_decide_eq_true in Hm. destruct (Hrandom Hm) as [Hne Hlen].
    unfold random_sample.
    destruct (sample_repeat_single (seed_int (KEY cfg)) (values (COLOURS cfg))
                (Z.to_nat (PIXELS size)) Hne) as (picks & Hpicks & Hn & Hin).
    destruct (shuffle_permutation (KEY cfg)
                (random_slots picks (values (INDEXS cfg)) pixel_coords))
      as (slots & Hs & Hperm).
    exists picks, (random_slots picks (values (INDEXS cfg)) pixel_coords), slots.
    run_with Hpicks.
    pose proof (plan_random (values (INDEXS cfg)) picks (values (COLOURS cfg))
                  pixel_coords 0 []) as Hplan.
    change (Z.of_nat 0) with 0 in Hplan.
    run_with Hplan; [|unfold len in Hlen; simpl; lia].
    rewrite drop_0, app_nil_l.
    split_and!; try done.
    + apply random_slots_length. unfold len in Hlen. lia.
    + unfold len. by rewrite Hperm.
  - destruct (shuffle_permutation (KEY cfg)
                (all_slots (values (COLOURS cfg)) (values (INDEXS cfg)) pixel_coords))
      as (slots & Hs & Hperm).
    exists [], (all_slots (values (COLOURS cfg)) (values (INDEXS cfg)) pixel_coords), slots.
    rewrite bind_ret. cbv beta.
    run_with (plan_all (values (COLOURS cfg)) (values (INDEXS cfg)) []
                pixel_coords 0 []).
    rewrite app_nil_l.
    split_and!; try done.
    + apply all_slots_length.
    + unfold len. by rewrite Hperm.
Qed.

End Generator.

(** ** Binary literals *)

Lemma len_replicate {A} (n : nat) (a : A) : len (replicate n a) = Z.of_nat n.
Proof. unfold len. by rewrite length_replicate. Qed.

Lemma bit_length_log2 (n : Z) : 0 < n -> bit_length n = Z.log2 n + 1.
Proof.
  destruct n as [|p|p]; [lia| |lia]. intros _.
  destruct p; simpl; rewrite ?Pos2Z.inj_succ; lia.
Qed.

Lemma bit_length_mono (a b : Z) : 0 <= a <= b -> bit_length a <= bit_length b.
Proof.
  intros Hab. destruct (decide (a = 0)) as [->|Ha].
  - destruct b; simpl; lia.
  - rewrite !bit_length_log2 by lia.
    pose proof (Z.log2_le_mono a b). lia.
Qed.

Lemma bit_length_nonneg (n : Z) : 0 <= bit_length n.
Proof. destruct n; simpl; lia. Qed.

Lemma bin_pos_bitstring (p : positive) : bitstring (bin_pos p).
Proof.
  unfold bitstring, is_bit.
  induction p; simpl.
  - apply Forall_app. split; [done|]. apply Forall_singleton. by right.
  - apply Forall_app. split; [done|]. apply Forall_singleton. by left.
  - apply Forall_singleton. by right.
Qed.

Lemma bin_pos_len (p : positive) : len (bin_pos p) = Zpos (Pos.size p).
Proof.
  induction p; simpl; rewrite ?len_app, ?IHp, ?Pos2Z.inj_succ; unfold len; simpl; lia.
Qed.

Lemma replace_0b_bitstring (s : str) : bitstring s -> replace_0b s = s.
Proof.
  induction 1 as [|a s Ha Hs IH]; [done|].
  destruct Hs as [|b s Hb Hs]; [done|].
  cbn [replace_0b]. cbn [replace_0b] in IH.
  assert ((a =? 48) && (b =? 98) = false) as ->.
  { destruct Hb as [-> | ->]; unfold c0, c1; by rewrite andb_false_r. }
  by rewrite IH.
Qed.

Lemma replace_0b_bin (n : Z) : 0 <= n -> replace_0b (bin n) = digits n.
Proof.
  destruct n as [|p|p]; [done| |lia]. intros _.
  unfold bin. change (lit "0b" ++ bin_pos p) with (48 :: 98 :: bin_pos p).
  cbn [replace_0b]. simpl. apply replace_0b_bitstring, bin_pos_bitstring.
Qed.

Lemma digits_bitstring (n : Z) : bitstring (digits n).
Proof.
  destruct n; try apply bin_pos_bitstring; apply Forall_singleton; by left.
Qed.

Lemma digits_len (n : Z) : 0 <= n -> len (digits n) = Z.max 1 (bit_length n).
Proof.
  destruct n as [|p|p]; [done| |lia]. intros _. simpl.
  rewrite bin_pos_len. lia.
Qed.

Lemma zfill_bitstring_eq (w : Z) (s : str) :
  bitstring s -> zfill w s = replicate (Z.to_nat (w - len s)) c0 ++ s.
Proof.
  intros Hs. unfold zfill. destruct Hs as [|c s Hc Hs]; [by rewrite app_nil_r|].
  assert ((c =? 43) || (c =? 45) = false) as ->; [|done].
  by destruct Hc as [-> | ->].
Qed.

Lemma replicate_bitstring (n : nat) : bitstring (replicate n c0).
Proof. apply Forall_replicate. by left. Qed.

Lemma zfill_bitstring (w : Z) (s : str) : bitstring s -> bitstring (zfill w s).
Proof.
  intros Hs. rewrite zfill_bitstring_eq by done.
  apply Forall_app. split; [apply replicate_bitstring|done].
Qed.

Lemma zfill_len (w : Z) (s : str) : bitstring s -> len (zfill w s) = Z.max w (len s).
Proof.
  intros Hs. rewrite zfill_bitstring_eq by done.
  rewrite len_app, len_replicate. pose proof (len_nonneg s). lia.
Qed.

Lemma integer_conversion_binary_eq (n : Z) :
  0 <= n -> integer_conversion_binary n = zfill 8 (digits n).
Proof. intros Hn. unfold integer_conversion_binary. by rewrite replace_0b_bin. Qed.

Lemma integer_conversion_binary_bitstring (n : Z) :
  0 <= n -> bitstring (integer_conversion_binary n).
Proof.
  intros Hn. rewrite integer_conversion_binary_eq by done.
  apply zfill_bitstring, digits_bitstring.
Qed.

(** The width of [integer_conversion(n, 'binary')]: the digits of [n], but
    eight characters at least. *)
Lemma integer_conversion_binary_len (n : Z) :
  0 <= n -> len (integer_conversion_binary n) = Z.max 8 (bit_length n).
Proof.
  intros Hn. rewrite integer_conversion_binary_eq by done.
  rewrite zfill_len by apply digits_bitstring.
  rewrite digits_len by done. lia.
Qed.

Lemma digits_value_app (acc : Z) (s t : str) :
  digits_value acc (s ++ t) = digits_value acc s ≫= fun v => digits_value v t.
Proof.
  revert acc. induction s as [|c s IH]; intros acc; simpl; [done|].
  destruct (c =? c0); [apply IH|]. destruct (c =? c1); [apply IH|done].
Qed.

Lemma digits_value_zeros (acc : Z) (n : nat) :
  digits_value acc (replicate n c0) = Some (acc * 2 ^ Z.of_nat n).
Proof.
  revert acc. induction n as [|n IH]; intros acc.
  - simpl. f_equal. lia.
  - cbn [replicate digits_value]. rewrite Z.eqb_refl, IH. f_equal.
    rewrite Nat2Z.inj_succ, Z.pow_succ_r by lia. lia.
Qed.

Lemma digits_value_bin_pos (acc : Z) (p : positive) :
  digits_value acc (bin_pos p) = Some (acc * 2 ^ Zpos (Pos.size p) + Zpos p).
Proof.
  revert acc. induction p as [p IH|p IH|]; intros acc; cbn [bin_pos Pos.size].
  - rewrite digits_value_app, IH. simpl. f_equal.
    rewrite Pos2Z.inj_succ, Z.pow_succ_r by lia. lia.
  - rewrite digits_value_app, IH. simpl. f_equal.
    rewrite Pos2Z.inj_succ, Z.pow_succ_r by lia. lia.
  - simpl. f_equal. lia.
Qed.

Lemma digits_value_digits (n : Z) : 0 <= n -> digits_value 0 (digits n) = Some n.
Proof.
  destruct n as [|p|p]; [done| |lia]. intros _. simpl.
  by rewrite digits_value_bin_pos.
Qed.

Lemma int2_bitstring (s : str) (v : Z) :
  bitstring s -> s <> [] -> digits_value 0 s = Some v -> int2 s = OK v.
Proof.
  intros Hs Hne Hv. destruct Hs as [|c s Hc Hs]; [done|].
  unfold int2. assert ((c =? 45) = false) as -> by (by destruct Hc as [-> | ->]).
  by rewrite Hv.
Qed.

(** Reading back what [integer_conversion] wrote, zero-filled further or not. *)
Lemma int2_zfill_integer_conversion (w n : Z) :
  0 <= n -> int2 (zfill w (integer_conversion_binary n)) = OK n.
Proof.
  intros Hn.
  assert (bitstring (integer_conversion_binary n)) as Hb
    by by apply integer_conversion_binary_bitstring.
  apply int2_bitstring.
  - by apply zfill_bitstring.
  - intros Hnil. apply (f_equal len) in Hnil.
    rewrite zfill_len, integer_conversion_binary_len in Hnil by done.
    change (len []) with 0 in Hnil. lia.
  - rewrite zfill_bitstring_eq, digits_value_app, digits_value_zeros by done.
    simpl. rewrite integer_conversion_binary_eq by done.
    rewrite zfill_bitstring_eq, digits_value_app, digits_value_zeros
      by apply digits_bitstring.
    simpl. by apply digits_value_digits.
Qed.

(** ** The payload builder *)

Section Message.

Context {rng : Type}.
Variable seed_str : str -> rng.
Variable draw_int : rng -> Z -> Z -> Z * rng.

Lemma randint_repeat_total (g : rng) (n : nat) :
  exists noise, randint_repeat draw_int g 0 1 n = OK noise.
Proof.
  revert g. induction n as [|n IH]; intros g; [by exists []|].
  cbn [randint_repeat]. unfold randint. simpl.
  destruct (IH (draw_int g 0 1).2) as [rest ->]. simpl. eauto.
Qed.

Lemma generate_message_fits (entropy : str) (cfg : Configuration) (text data : str)
    (coords : list slot) :
  binary_conversion_binary text = OK data ->
  length_prefix_width (len coords) + len data <= len coords ->
  exists noise,
    generate_message seed_str draw_int entropy cfg text coords
    = OK (zfill (length_prefix_width (len coords)) (integer_conversion_binary (len data))
          ++ data ++ noise)
    /\ (NOISE cfg = false -> noise = []).
Proof.
  intros Hdata Hfit. unfold generate_message, length_prefix_width in *.
  run_with Hdata.
  destruct (Z.ltb_spec (len coords)
              (len (integer_conversion_binary (len coords)) + len data)); [lia|].
  destruct (NOISE cfg).
  - unfold generate_numbers.
    destruct (randint_repeat_total (seed_str entropy)
                (Z.to_nat (len coords
                   - (len (integer_conversion_binary (len coords)) + len data))))
      as [noise Hnoise].
    exists noise. run_with Hnoise. done.
  - exists []. by rewrite bind_ret.
Qed.

Lemma generate_message_exceeds (entropy : str) (cfg : Configuration) (text data : str)
    (coords : list slot) :
  binary_conversion_binary text = OK data ->
  len coords < length_prefix_width (len coords) + len data ->
  generate_message seed_str draw_int entropy cfg text coords
  = Raise (capacity_error (length_prefix_width (len coords) + len data - len coords)).
Proof.
  intros Hdata Hfit. unfold generate_message, length_prefix_width in *.
  run_with Hdata.
  by destruct (Z.ltb_spec (len coords)
                 (len (integer_conversion_binary (len coords)) + len data)); [|lia].
Qed.

(** C5, as the code has it.  With [data] the bits of the payload text,
    the width that counts against the capacity is the number of binary
    digits of the slot count but never less than 8.  [generate_message]
    raises the capacity error, whose message carries the overage, exactly
    when that width plus the data length exceeds the number of slots.
    Otherwise it returns the prefix, the whole of the data and the noise,
    which is empty when noise is off.  A total equal to the capacity
    therefore succeeds, and a total one bit above it reports an overage of
    1.  From 128 slots on the width is the number of binary digits of the
    slot count. *)
Theorem generate_message_capacity (entropy : str) (cfg : Configuration)
    (text data : str) (coords : list slot) :
  binary_conversion_binary text = OK data ->
  (generate_message seed_str draw_int entropy cfg text coords
   = Raise (capacity_error
              (Z.max 8 (bit_length (len coords)) + len data - len coords))
   <-> len coords < Z.max 8 (bit_length (len coords)) + len data)
  /\ (Z.max 8 (bit_length (len coords)) + len data <= len coords ->
      exists noise,
        generate_message seed_str draw_int entropy cfg text coords
        = OK (zfill (Z.max 8 (bit_length (len coords)))
                (integer_conversion_binary (len data)) ++ data ++ noise)
        /\ (NOISE cfg = false -> noise = []))
  /\ (Z.max 8 (bit_length (len coords)) + len data = len coords + 1 ->
      generate_message seed_str draw_int entropy cfg text coords
      = Raise (capacity_error 1))
  /\ (128 <= len coords ->
      Z.max 8 (bit_length (len coords)) = bit_length (len coords)).
Proof.
  intros Hdata.
  assert (length_prefix_width (len coords) = Z.max 8 (bit_length (len coords))) as Hw
    by (apply integer_conversion_binary_len, len_nonneg).
  rewrite <- Hw. split_and!.
  - split; [|by apply generate_message_exceeds].
    intros Herr.
    destruct (decide (len coords < length_prefix_width (len coords) + len data))
      as [|Hfit]; [done|].
    destruct (generate_message_fits entropy cfg text data coords Hdata)
      as (noise & Hok & _); [lia|]. congruence.
  - by apply generate_message_fits.
  - intros Hone.
    rewrite (generate_message_exceeds entropy cfg text data coords Hdata) by lia.
    do 2 f_equal. lia.
  - intros Hbig. rewrite Hw.
    pose proof (bit_length_mono 128 (len coords) ltac:(lia)) as Hmono.
    change (bit_length 128) with 8 in Hmono. lia.
Qed.

(** C2, as the code has it.  When [generate_message] returns, the message
    is the length prefix, then the bits of the text, then the noise; the
    prefix reads back as the number of data bits, and its width is the
    number of binary digits of the slot count but never less than 8. *)
Theorem length_prefix_width_max (entropy : str) (cfg : Configuration)
    (text msg : str) (coords : list slot) :
  generate_message seed_str draw_int entropy cfg text coords = OK msg ->
  exists end_key data noise,
    binary_conversion_binary text = OK data
    /\ msg = end_key ++ data ++ noise
    /\ int2 end_key = OK (len data)
    /\ (NOISE cfg = false -> noise = [])
    /\ len end_key = Z.max 8 (bit_length (len coords)).
Proof.
  intros Hmsg.
  destruct (binary_conversion_binary text) as [data|e] eqn:Hdata;
    [|by unfold generate_message in Hmsg; rewrite Hdata in Hmsg].
  destruct (decide (len coords < length_prefix_width (len coords) + len data))
    as [Hover|Hfit].
  { by rewrite (generate_message_exceeds entropy cfg text data coords) in Hmsg. }
  destruct (generate_message_fits entropy cfg text data coords Hdata)
    as (noise & Hok & Hnoise); [lia|].
  rewrite Hok in Hmsg. injection Hmsg as <-.
  eexists _, data, noise. split_and!; try done.
  - apply int2_zfill_integer_conversion, len_nonneg.
  - pose proof (len_nonneg data). pose proof (len_nonneg coords).
    unfold length_prefix_width in *.
    rewrite zfill_len by by apply integer_conversion_binary_bitstring.
    rewrite !integer_conversion_binary_len in * by done.
    pose proof (bit_length_mono (len data) (len coords)). lia.
Qed.

End Message.

(** ** Loops over the image *)

(** A relation that every round of a loop respects, and that is reflexive
    and transitive, holds from the start to the end of the loop. *)
Lemma for_enumerate_rel {A St} (R : St -> St -> Prop) `{!Reflexive R, !Transitive R}
    (body : Z -> A -> St -> result St) (l : list A) (i : Z) (s s' : St) :
  (forall (k : nat) a s1 s2,
     l !! k = Some a -> body (i + Z.of_nat k) a s1 = OK s2 -> R s1 s2) ->
  for_enumerate body i l s = OK s' ->
  R s s'.
Proof.
  revert i s. induction l as [|a l IH]; intros i s Hbody Hloop; simpl in Hloop.
  - by injection Hloop as <-.
  - apply bind_OK in Hloop as (s1 & Hstep & Hloop).
    trans s1.
    + apply (Hbody 0%nat a); [done|]. by rewrite Z.add_0_r.
    + apply (IH (i + 1) s1); [|done].
      intros k a' s2 s3 Hk Hb. apply (Hbody (S k) a'); [done|].
      by replace (i + Z.of_nat (S k)) with (i + 1 + Z.of_nat k) by lia.
Qed.

Lemma putpixel_OK (img img' : Image) (xy : Z * Z) (p : list Z) :
  putpixel img xy p = OK img' ->
  img' = mkImage (image_size img) (<[xy := p]> (image_data img)).
Proof. unfold putpixel. destruct (image_data img !! xy); congruence. Qed.

(** ** The header embedder *)

Section Header.

Context {rng : Type}.
Variable seed_int : Z -> rng.
Variable draw_indices : rng -> nat -> nat -> list nat * rng.

#[local] Instance same_outside_refl region : Reflexive (same_outside region).
Proof. by intros img xy _. Qed.

#[local] Instance same_outside_trans region : Transitive (same_outside region).
Proof.
  intros img1 img2 img3 H12 H23 xy Hxy. by rewrite (H23 xy Hxy), (H12 xy Hxy).
Qed.

Lemma write_header_bit_target (colours : list Z) (header : str)
    (coords : list (Z * Z)) (i : nat) (position : Z * Z) (img img' : Image) :
  write_header_bit colours header coords (Z.of_nat i) position img = OK img' ->
  exists target, coords !! i = Some target
                 /\ same_outside [target] img img'.
Proof.
  unfold write_header_bit. intros H.
  do 6 (apply bind_OK in H as (? & _ & H)).
  apply bind_OK in H as (target & Ht & H).
  apply py_index_OK in Ht; [|lia]. rewrite Nat2Z.id in Ht.
  exists target. split; [done|].
  apply putpixel_OK in H as ->. intros xy Hxy. simpl.
  apply lookup_insert_ne. rewrite list_elem_of_singleton in Hxy.
  destruct target, xy. simpl. congruence.
Qed.

(** C3, what the code does.  For a header of twelve characters the loop of
    [attach_header] runs over the first eleven coordinates only: the pixel
    at the twelfth coordinate, when it is not also one of the first eleven,
    is left as it was, although twelve coordinates are dropped from the
    list that is returned.  The last header bit is not embedded. *)
Theorem attach_header_skips_last_bit (img img' : Image) (key : Z) (header : str)
    (coords cut_coords : list (Z * Z)) (xy : Z * Z) :
  len header = 12 ->
  attach_header seed_int draw_indices img key header coords = OK (cut_coords, img') ->
  coords !! 11%nat = Some xy ->
  xy ∉ take 11 coords ->
  cut_coords = drop 12 coords
  /\ image_data img' !! xy = image_data img !! xy.
Proof.
  intros Hlen Hattach Hxy Hfresh. unfold attach_header in Hattach.
  apply bind_OK in Hattach as (colours & _ & Hattach).
  apply bind_OK in Hattach as (img1 & Hloop & Hattach).
  injection Hattach as <- <-. rewrite Hlen in *.
  split; [done|].
  change (slice_to coords (12 - 1)) with (take 11 coords) in Hloop.
  clear Hxy. revert xy Hfresh.
  change (same_outside (take 11 coords) img img1).
  apply (for_enumerate_rel (same_outside (take 11 coords))
           (write_header_bit (concat colours) header coords)
           (take 11 coords) 0); [|done].
  intros k position s1 s2 Hk Hstep. rewrite Z.add_0_l in Hstep.
  apply write_header_bit_target in Hstep as (target & Ht & Hsame).
  intros xy Hxy. apply Hsame. rewrite list_elem_of_singleton. intros ->.
  apply Hxy. apply list_elem_of_lookup. exists k.
  rewrite lookup_take_lt; [done|].
  apply lookup_lt_Some in Hk. rewrite length_take in Hk. lia.
Qed.

(** ** Extraction *)

(** C1, what the code does.  [data_extract] never returns a text: when the
    key derivation succeeds, unpacking the [None] of the unwritten
    [extract_header] raises [TypeError]; when it fails, its exception is
    what [data_extract] raises. *)
Theorem data_extract_raises (img : Image) (key : str) :
  data_extract seed_int draw_indices img key
  = match generate_context seed_int draw_indices key img (size_of img) 16 with
    | OK _ => Raise TypeError
    | Raise e => Raise e
    end.
Proof.
  unfold data_extract.
  by destruct (generate_context _ _ key img (size_of img) 16) as [[coords image_key]|e].
Qed.

End Header.

(** ** The data writer *)

Lemma byte_write_all :
  forallb (fun v => forallb (fun index => byte_write_ok v index c0 && byte_write_ok v index c1)
                      (py_range 8)) (py_range 256) = true.
Proof. vm_compute. reflexivity. Qed.

(** One round on one byte: the string is cut at the place of the bit, the
    digit is put in, and the string read back is the byte with that bit
    written. *)
Lemma byte_write (v index b : Z) :
  0 <= v < 256 -> 0 <= index < 8 -> is_bit b ->
  py_setitem (integer_conversion_binary v) index b ≫= integer_conversion_integer
  = OK (write_bit v index b)
  /\ 0 <= write_bit v index b < 256.
Proof.
  intros Hv Hi Hb.
  pose proof byte_write_all as Hall. rewrite forallb_forall in Hall.
  specialize (Hall v). rewrite <- list_elem_of_In, elem_of_py_range in Hall.
  specialize (Hall Hv). rewrite forallb_forall in Hall.
  specialize (Hall index). rewrite <- list_elem_of_In, elem_of_py_range in Hall.
  specialize (Hall Hi). apply andb_prop in Hall as [H0 H1].
  assert (byte_write_ok v index b = true) as Hok by (by destruct Hb as [-> | ->]).
  unfold byte_write_ok in Hok.
  destruct (py_setitem _ index b ≫= integer_conversion_integer) as [v'|]; [|done].
  apply andb_prop in Hok as [Hok Hlt]. apply andb_prop in Hok as [Heq Hle].
  apply Z.eqb_eq in Heq as <-. split; [done|]. lia.
Qed.

Lemma byte_bit_write_bit (v index b k : Z) :
  0 <= index < 8 ->
  byte_bit (write_bit v index b) k
  = if bool_decide (k = index) then bool_decide (b = c1) else byte_bit v k.
Proof.
  intros Hi. unfold byte_bit, write_bit.
  destruct (bool_decide (b = c1)).
  - rewrite Z.setbit_eqb by lia.
    destruct (Z.eqb_spec (7 - index) (7 - k)); case_bool_decide; (done || lia).
  - rewrite Z.clearbit_eqb.
    destruct (Z.eqb_spec (7 - index) (7 - k)); case_bool_decide;
      rewrite ?andb_true_r, ?andb_false_r; (done || lia).
Qed.

Lemma bind_assoc {A B C} (r : result A) (f : A -> result B) (g : B -> result C) :
  (r ≫= f) ≫= g = r ≫= (fun a => f a ≫= g).
Proof. by destruct r. Qed.

(** One round of the loop of [attach_data] on a slot that addresses a byte
    of the image. *)
Lemma write_data_bit_OK (msg : str) (written : list (Z * Z * Z * Z)) (i : nat)
    (x y colour index b v : Z) (p : list Z) (img : Image) :
  image_data img !! (x, y) = Some p ->
  0 <= colour ->
  p !! Z.to_nat colour = Some v ->
  0 <= v < 256 ->
  0 <= index < 8 ->
  msg !! i = Some b ->
  is_bit b ->
  written !! i = Some (x, y, colour, index) ->
  write_data_bit msg written (Z.of_nat i) (x, y, colour, index) img
  = OK (image_with_bit img x y colour index b p v).
Proof.
  intros Hp Hc Hv Hbyte Hindex Hb Hbit Hw.
  unfold write_data_bit, getpixel. rewrite Hp, bind_ret. cbv beta.
  run_with (proj2 (py_index_OK p colour v Hc) Hv).
  rewrite (py_index_nat msg), Hb, bind_ret. cbv beta.
  rewrite <- bind_assoc.
  run_with (proj1 (byte_write v index b Hbyte Hindex Hbit)).
  rewrite <- (Z2Nat.id colour) at 1 by done.
  rewrite py_setitem_nat by (by eapply lookup_lt_Some).
  rewrite bind_ret. cbv beta.
  rewrite (py_index_nat written), Hw, bind_ret. cbv beta. simpl.
  unfold putpixel. by rewrite Hp.
Qed.

Section ImageWithBit.

Variables (img : Image) (x y colour index b v : Z) (p : list Z).
Hypothesis Hp : image_data img !! (x, y) = Some p.
Hypothesis Hc : 0 <= colour.
Hypothesis Hv : p !! Z.to_nat colour = Some v.
Hypothesis Hindex : 0 <= index < 8.

Lemma image_with_bit_pixel (xy : Z * Z) :
  xy <> (x, y) ->
  image_data (image_with_bit img x y colour index b p v) !! xy = image_data img !! xy.
Proof. intros Hne. simpl. by apply lookup_insert_ne. Qed.

Lemma image_with_bit_channel (x' y' colour' : Z) :
  (x', y', colour') <> (x, y, colour) ->
  channel_value (image_with_bit img x y colour index b p v) x' y' colour'
  = channel_value img x' y' colour'.
Proof.
  intros Hne. unfold channel_value. simpl.
  destruct (decide ((x', y') = (x, y))) as [[= -> ->]|Hxy].
  - rewrite lookup_insert_eq, Hp. simpl.
    destruct (Z.ltb_spec colour' 0); [done|].
    apply list_lookup_insert_ne. intros Heq. apply Hne. f_equal. lia.
  - by rewrite lookup_insert_ne.
Qed.

Lemma image_with_bit_channel_same :
  channel_value (image_with_bit img x y colour index b p v) x y colour
  = Some (write_bit v index b)
  /\ channel_value img x y colour = Some v.
Proof.
  unfold channel_value. simpl. rewrite lookup_insert_eq, Hp. simpl.
  destruct (Z.ltb_spec colour 0); [lia|].
  split; [|done]. apply list_lookup_insert_eq. by eapply lookup_lt_Some.
Qed.

Lemma image_with_bit_other (s : Z * Z * Z * Z) :
  s <> (x, y, colour, index) ->
  read_bit (image_with_bit img x y colour index b p v) s = read_bit img s.
Proof.
  destruct s as [[[x' y'] colour'] index']. intros Hne. unfold read_bit. simpl.
  destruct (decide ((x', y', colour') = (x, y, colour))) as [[= -> -> ->]|Hch].
  - destruct image_with_bit_channel_same as [-> ->]. simpl.
    rewrite byte_bit_write_bit by done.
    rewrite bool_decide_false; [done|]. congruence.
  - by rewrite image_with_bit_channel.
Qed.

Lemma image_with_bit_same :
  read_bit (image_with_bit img x y colour index b p v) (x, y, colour, index)
  = Some (bool_decide (b = c1)).
Proof.
  unfold read_bit. simpl.
  destruct image_with_bit_channel_same as [-> _]. simpl.
  rewrite byte_bit_write_bit by done. by rewrite bool_decide_true.
Qed.

Lemma image_with_bit_bytes :
  0 <= write_bit v index b < 256 ->
  byte_image img -> byte_image (image_with_bit img x y colour index b p v).
Proof.
  intros Hw Himg xy q. simpl.
  destruct (decide (xy = (x, y))) as [->|Hne].
  - rewrite lookup_insert_eq. intros [= <-].
    apply Forall_insert; [by eapply Himg|done].
  - rewrite lookup_insert_ne by done. apply Himg.
Qed.

Lemma image_with_bit_slot (s : Z * Z * Z * Z) :
  slot_in_image img s -> slot_in_image (image_with_bit img x y colour index b p v) s.
Proof.
  intros (q & Hq & Hcol & Hidx). unfold slot_in_image. simpl.
  destruct (decide ((s.1.1.1, s.1.1.2) = (x, y))) as [Heq|Hne].
  - rewrite Heq in *. rewrite lookup_insert_eq.
    assert (q = p) as -> by congruence.
    eexists. split; [done|]. unfold len in *. by rewrite length_insert.
  - rewrite lookup_insert_ne by done. by exists q.
Qed.

End ImageWithBit.

(** The loop of [attach_data], started at round [i] on the slots [l] that
    remain: it ends, and the image it ends with differs from the image it
    started with in the bits of [l] only. *)
Lemma attach_data_loop (msg : str) (written : list (Z * Z * Z * Z)) :
  bitstring msg ->
  forall (l : list (Z * Z * Z * Z)) (i : nat) (img : Image),
    drop i written = l ->
    (i + length l <= length msg)%nat ->
    byte_image img ->
    Forall (slot_in_image img) l ->
    exists img',
      for_enumerate (write_data_bit msg written) (Z.of_nat i) l img = OK img'
      /\ (forall xy, (forall c k, (xy.1, xy.2, c, k) ∉ l) ->
                     image_data img' !! xy = image_data img !! xy)
      /\ (forall x y c, (forall k, (x, y, c, k) ∉ l) ->
                        channel_value img' x y c = channel_value img x y c)
      /\ (forall s, s ∉ l -> read_bit img' s = read_bit img s)
      /\ (forall (k : nat) s b,
            l !! k = Some s -> msg !! (i + k)%nat = Some b ->
            (forall j : nat, (k < j)%nat -> l !! j <> Some s) ->
            read_bit img' s = Some (bool_decide (b = c1))).
Proof.
  intros Hmsg l. induction l as [|a l IH]; intros i img Hdrop Hlen Hbytes Hslots.
  { exists img. by split_and!. }
  apply Forall_cons in Hslots as [Ha Hslots].
  destruct a as [[[x y] colour] index].
  destruct Ha as (p & Hp & Hcol & Hidx). simpl in Hp, Hcol, Hidx.
  destruct (lookup_lt_is_Some_2 p (Z.to_nat colour)) as [v Hv];
    [unfold len in Hcol; lia|].
  destruct (lookup_lt_is_Some_2 msg i) as [b Hb]; [simpl in Hlen; lia|].
  assert (is_bit b) as Hbit.
  { exact (Forall_lookup_1 _ _ _ _ Hmsg Hb). }
  assert (0 <= v < 256) as Hbyte.
  { exact (Forall_lookup_1 _ _ _ _ (Hbytes _ _ Hp) Hv). }
  assert (written !! i = Some (x, y, colour, index)) as Hw.
  { rewrite <- (Nat.add_0_r i), <- lookup_drop, Hdrop. done. }
  destruct (byte_write v index b Hbyte Hidx Hbit) as [_ Hrange].
  destruct (IH (S i) (image_with_bit img x y colour index b p v))
    as (img' & Hloop & Hpix & Hch & Hbits & Hset).
  { pose proof (drop_S _ _ _ Hw) as Hd. rewrite Hdrop in Hd. congruence. }
  { simpl in Hlen. lia. }
  { by apply image_with_bit_bytes. }
  { eapply Forall_impl; [exact Hslots|]. intros s. apply image_with_bit_slot. done. }
  exists img'. split_and!.
  - cbn [for_enumerate].
    rewrite (write_data_bit_OK msg written i x y colour index b v p img) by (done || lia).
    rewrite bind_ret. cbv beta.
    by replace (Z.of_nat i + 1) with (Z.of_nat (S i)) by lia.
  - intros xy Hxy. rewrite Hpix.
    + apply image_with_bit_pixel. intros ->.
      apply (Hxy colour index). by left.
    + intros c k Hin. apply (Hxy c k). by right.
  - intros x' y' c Hfree. rewrite Hch.
    + apply image_with_bit_channel; [done|lia|].
      intros [= -> -> ->]. apply (Hfree index). by left.
    + intros k Hin. apply (Hfree k). by right.
  - intros s Hs. rewrite Hbits.
    + apply image_with_bit_other; [done|lia|done|done|].
      intros ->. apply Hs. by left.
    + intros Hin. apply Hs. by right.
  - intros k s b' Hk Hb' Hlast. destruct k as [|k].
    + injection Hk as <-. rewrite Nat.add_0_r in Hb'.
      assert (b' = b) as -> by congruence.
      rewrite Hbits.
      * apply image_with_bit_same; [done|lia|done|done].
      * intros Hin. apply list_elem_of_lookup in Hin as [j Hj].
        by apply (Hlast (S j)); [lia|].
    + apply (Hset k s b'); [done| |].
      * by replace (S i + k)%nat with (i + S k)%nat by lia.
      * intros j Hj. apply (Hlast (S j)). lia.
Qed.

(** C9. On an image of bytes, with slots that address bits of the image
    and a message of binary digits long enough for the slots written,
    [attach_data] returns an image in which a bit that no written slot
    addresses is as before, a channel that no written slot addresses is as
    before, a pixel that no written slot addresses is as before, and the bit
    of a written slot is the message bit of the last round that wrote it. *)
Theorem attach_data_frame (img : Image) (cfg : Configuration) (msg : str)
    (coords : list (Z * Z * Z * Z)) :
  byte_image img ->
  Forall (slot_in_image img) (written_slots cfg msg coords) ->
  bitstring msg ->
  (NOISE cfg = true -> len coords <= len msg) ->
  exists img',
    attach_data img cfg msg coords = OK img'
    /\ (forall s, s ∉ written_slots cfg msg coords -> read_bit img' s = read_bit img s)
    /\ (forall x y c, (forall k, (x, y, c, k) ∉ written_slots cfg msg coords) ->
                      channel_value img' x y c = channel_value img x y c)
    /\ (forall xy, (forall c k, (xy.1, xy.2, c, k) ∉ written_slots cfg msg coords) ->
                   image_data img' !! xy = image_data img !! xy)
    /\ (forall (k : nat) s b,
          written_slots cfg msg coords !! k = Some s -> msg !! k = Some b ->
          (forall j : nat, (k < j)%nat -> written_slots cfg msg coords !! j <> Some s) ->
          read_bit img' s = Some (bool_decide (b = c1))).
Proof.
  intros Hbytes Hslots Hmsg Hnoise.
  destruct (attach_data_loop msg (written_slots cfg msg coords) Hmsg
              (written_slots cfg msg coords) 0 img)
    as (img' & Hloop & Hpix & Hch & Hbits & Hset); try done.
  { unfold written_slots, slice_to, slice_bound, len in *.
    destruct (NOISE cfg); simpl.
    - specialize (Hnoise eq_refl). lia.
    - destruct (Z.ltb_spec (Z.of_nat (length msg)) 0); [lia|].
      rewrite length_take. lia. }
  exists img'. split_and!; try done.
Qed.

(** ** The text codec *)

Lemma digits_value_bits (acc : Z) (s : str) :
  bitstring s -> digits_value acc s = Some (bits_value acc s).
Proof.
  intros Hs. revert acc. induction Hs as [|c s Hc _ IH]; intros acc; [done|].
  simpl. destruct Hc as [-> | ->]; simpl; rewrite IH; do 2 f_equal; unfold c0; lia.
Qed.

Lemma bits_value_acc (acc : Z) (s : str) :
  bits_value acc s = acc * 2 ^ len s + bits_value 0 s.
Proof.
  revert acc. induction s as [|c s IH]; intros acc.
  - simpl. change (len []) with 0. lia.
  - cbn [bits_value]. rewrite IH, (IH (2 * 0 + (c - c0))).
    rewrite len_cons, Z.pow_add_r by (pose proof (len_nonneg s); lia). lia.
Qed.

Lemma bits_value_app (s t : str) :
  bits_value 0 (s ++ t) = bits_value 0 s * 2 ^ len t + bits_value 0 t.
Proof.
  assert (forall acc, bits_value acc (s ++ t) = bits_value (bits_value acc s) t) as Happ.
  { induction s as [|c s IH]; intros acc; [done|]. simpl. apply IH. }
  rewrite Happ. apply bits_value_acc.
Qed.

Lemma bits_value_range (s : str) : bitstring s -> 0 <= bits_value 0 s < 2 ^ len s.
Proof.
  induction 1 as [|c s Hc _ IH]; [simpl; change (len []) with 0; lia|].
  cbn [bits_value]. rewrite bits_value_acc, len_cons.
  rewrite Z.pow_add_r by (pose proof (len_nonneg s); lia).
  destruct Hc as [-> | ->]; unfold c0, c1; lia.
Qed.

(** The digits are all zeros exactly when the value is zero. *)
Lemma bits_value_zero (s : str) : bitstring s -> bits_value 0 s = 0 <-> c1 ∉ s.
Proof.
  induction 1 as [|c s Hc Hs IH]; [split; [intros _; apply not_elem_of_nil|done]|].
  cbn [bits_value]. rewrite bits_value_acc, not_elem_of_cons.
  pose proof (bits_value_range s Hs).
  assert (0 < 2 ^ len s) by (apply Z.pow_pos_nonneg; [lia|apply len_nonneg]).
  destruct Hc as [-> | ->]; unfold c0, c1 in *.
  - rewrite <- IH. split; [intros; split; [lia|nia]|intros [_ ?]; nia].
  - split; [nia|]. intros [? _]. lia.
Qed.

Lemma base256_digits_high (k : nat) (a b : Z) :
  0 <= b < 256 ^ Z.of_nat k ->
  base256_digits (a * 256 ^ Z.of_nat k + b) (S k) = base256_digits b k ++ [a mod 256].
Proof.
  revert b. induction k as [|k IH]; intros b Hb.
  - simpl in *. do 2 f_equal. lia.
  - rewrite Nat2Z.inj_succ, Z.pow_succ_r in * by lia.
    cbn [base256_digits]. cbn [base256_digits] in IH.
    assert ((a * (256 * 256 ^ Z.of_nat k) + b) mod 256 = b mod 256) as ->.
    { replace (a * (256 * 256 ^ Z.of_nat k) + b)
        with (b + (a * 256 ^ Z.of_nat k) * 256) by lia.
      apply Z_mod_plus_full. }
    assert ((a * (256 * 256 ^ Z.of_nat k) + b) / 256
            = a * 256 ^ Z.of_nat k + b / 256) as ->.
    { replace (a * (256 * 256 ^ Z.of_nat k) + b)
        with (b + (a * 256 ^ Z.of_nat k) * 256) by lia.
      rewrite Z_div_plus_full by lia. lia. }
    rewrite IH; [done|].
    split; [apply Z.div_pos; lia|].
    apply Z.div_lt_upper_bound; lia.
Qed.

(** The big-endian bytes of the value of [8 k] binary digits are the digits
    packed eight by eight. *)
Lemma pack_base256_digits (k : nat) (s : str) :
  bitstring s -> length s = (8 * k)%nat ->
  rev (base256_digits (bits_value 0 s) k) = pack s.
Proof.
  revert s. induction k as [|k IH]; intros s Hs Hlen.
  - by destruct s.
  - do 8 (destruct s as [|? s]; [simpl in Hlen; lia|]).
    change (?b7 :: ?b6 :: ?b5 :: ?b4 :: ?b3 :: ?b2 :: ?b1 :: ?b0 :: s)
      with ([b7; b6; b5; b4; b3; b2; b1; b0] ++ s) in *.
    apply Forall_app in Hs as [Hbyte Hs].
    rewrite bits_value_app.
    assert (len s = 8 * Z.of_nat k) as Hk.
    { unfold len. rewrite length_app in Hlen. simpl in Hlen. lia. }
    rewrite Hk, Z.pow_mul_r by lia. change (2 ^ 8) with 256.
    pose proof (bits_value_range s Hs) as Hrange.
    rewrite Hk, Z.pow_mul_r in Hrange by lia. change (2 ^ 8) with 256 in Hrange.
    rewrite base256_digits_high by done.
    rewrite rev_app_distr. cbn [rev app].
    rewrite IH; [|done|unfold len in Hk; lia].
    pose proof (bits_value_range _ Hbyte) as Hb. change (2 ^ len _) with 256 in Hb.
    rewrite Z.mod_small by done. done.
Qed.

(** The decoder on a non-empty string of binary digits, in terms of the
    digits: the first [len s mod 8] of them have to be zeros, the others are
    packed into bytes. *)
Lemma binary_conversion_text_packed (s : str) :
  bitstring s -> s <> [] ->
  binary_conversion_text s
  = if bool_decide (c1 ∈ take (Z.to_nat (len s mod 8)) s)
    then Raise OverflowError
    else match utf8_decode (pack (drop (Z.to_nat (len s mod 8)) s)) with
         | Some text => OK text
         | None => Raise UnicodeDecodeError
         end.
Proof.
  intros Hs Hne. unfold binary_conversion_text.
  run_with (int2_bitstring s _ Hs Hne (digits_value_bits 0 s Hs)).
  pose proof (len_nonneg s) as Hlen.
  pose proof (Z.div_mod (len s) 8) as Hdiv.
  pose proof (Z.mod_pos_bound (len s) 8) as Hmod.
  set (r := Z.to_nat (len s mod 8)). set (k := len s / 8) in *.
  assert (0 <= k) as Hk by (apply Z.div_pos; lia).
  rewrite <- (take_drop r s) at 1.
  assert (bitstring (take r s)) as Hhead by (by apply Forall_take).
  assert (bitstring (drop r s)) as Htail by (by apply Forall_drop).
  assert (len (drop r s) = 8 * k) as Hlt.
  { unfold len in *. rewrite length_drop. lia. }
  rewrite bits_value_app, Hlt, Z.pow_mul_r by lia. change (2 ^ 8) with 256.
  pose proof (bits_value_range _ Hhead) as Hh.
  pose proof (bits_value_range _ Htail) as Ht.
  rewrite Hlt, Z.pow_mul_r in Ht by lia. change (2 ^ 8) with 256 in Ht.
  assert (0 < 256 ^ k) as Hpow by (apply Z.pow_pos_nonneg; lia).
  unfold to_bytes.
  destruct (Z.ltb_spec (bits_value 0 (take r s) * 256 ^ k + bits_value 0 (drop r s)) 0);
    [nia|].
  case_bool_decide as Hone.
  - assert (bits_value 0 (take r s) <> 0) as Hnz.
    { intros Hz. by apply (bits_value_zero _ Hhead) in Hz. }
    destruct (Z.leb_spec (256 ^ k)
                (bits_value 0 (take r s) * 256 ^ k + bits_value 0 (drop r s)));
      [done|nia].
  - apply (bits_value_zero _ Hhead) in Hone. rewrite Hone, Z.mul_0_l, Z.add_0_l.
    destruct (Z.leb_spec (256 ^ k) (bits_value 0 (drop r s))); [lia|].
    simpl.
    rewrite (pack_base256_digits (Z.to_nat k)); [done|done|].
    unfold len in Hlt. lia.
Qed.

(** C4, as the code has it.  On a non-empty string of binary digits whose
    length is [8 k + r] with [r < 8], the decoder raises [OverflowError]
    when one of the first [r] digits is 1; otherwise it drops those [r]
    zeros, packs the remaining digits into [k] bytes, and returns their
    UTF-8 decoding or raises [UnicodeDecodeError] when the bytes are not
    valid UTF-8. *)
Theorem binary_conversion_text_spec (s : str) :
  bitstring s -> s <> [] ->
  binary_conversion_text s
  = if bool_decide (c1 ∈ take (Z.to_nat (len s mod 8)) s)
    then Raise OverflowError
    else match utf8_decode (pack (drop (Z.to_nat (len s mod 8)) s)) with
         | Some text => OK text
         | None => Raise UnicodeDecodeError
         end.
Proof. apply binary_conversion_text_packed. Qed.

(** *** UTF-8 *)

Ltac decide_comparisons :=
  repeat match goal with
    | |- context [?a <=? ?b] =>
        first [rewrite (proj2 (Z.leb_le a b)) by lia
              |rewrite (proj2 (Z.leb_gt a b)) by lia]
    | |- context [?a <? ?b] =>
        first [rewrite (proj2 (Z.ltb_lt a b)) by lia
              |rewrite (proj2 (Z.ltb_ge a b)) by lia]
    end.

Ltac split_encoding H :=
  unfold utf8_encode_char in H;
  repeat match type of H with
    | context [?a <? ?b] => destruct (Z.ltb_spec a b)
    | context [?a <=? ?b] => destruct (Z.leb_spec a b)
    end; simpl in H; try discriminate; injection H as <-.

Lemma utf8_encode_char_bytes (c : Z) (bs : list Z) :
  utf8_encode_char c = Some bs -> bs <> [] /\ Forall (fun b => 0 <= b < 256) bs.
Proof.
  intros H. split_encoding H; (split; [done|]);
    repeat (apply Forall_cons_2; [Z.div_mod_to_equations; lia|]);
    apply Forall_nil_2.
Qed.

Lemma utf8_decode_encode_char (c : Z) (bs rest : list Z) :
  utf8_encode_char c = Some bs ->
  utf8_decode (bs ++ rest) = cons c <$> utf8_decode rest.
Proof.
  intros H. split_encoding H; cbn [app utf8_decode]; unfold is_cont;
    Z.div_mod_to_equations; decide_comparisons; cbn [andb negb];
    try done; do 2 f_equal; lia.
Qed.

Lemma utf8_decode_encode (text : str) (bss : list (list Z)) :
  mapM utf8_encode_char text = Some bss ->
  utf8_decode (concat bss) = Some text
  /\ Forall (fun b => 0 <= b < 256) (concat bss)
  /\ (text <> [] -> concat bss <> []).
Proof.
  revert bss. induction text as [|c text IH]; intros bss H.
  - injection H as <-. by split_and!.
  - simpl in H. destruct (utf8_encode_char c) as [bs|] eqn:Hc; [|done].
    simpl in H. destruct (mapM utf8_encode_char text) as [bss'|]; [|done].
    injection H as <-. destruct (IH bss' eq_refl) as (Hdec & Hbytes & _).
    destruct (utf8_encode_char_bytes c bs Hc) as [Hne Hbs].
    simpl. split_and!.
    + by rewrite (utf8_decode_encode_char c bs _ Hc), Hdec.
    + by apply Forall_app.
    + intros _ Hnil. by apply app_eq_nil in Hnil as [? _].
Qed.

(** *** Bytes as binary digits *)

Lemma byte_bits_all : forallb byte_bits_ok (py_range 256) = true.
Proof. vm_compute. reflexivity. Qed.

Lemma byte_bits (b : Z) :
  0 <= b < 256 ->
  exists b7 b6 b5 b4 b3 b2 b1 b0,
    zfill 8 (drop 2 (bin b)) = [b7; b6; b5; b4; b3; b2; b1; b0]
    /\ bitstring [b7; b6; b5; b4; b3; b2; b1; b0]
    /\ bits_value 0 [b7; b6; b5; b4; b3; b2; b1; b0] = b.
Proof.
  intros Hb. pose proof byte_bits_all as Hall. rewrite forallb_forall in Hall.
  specialize (Hall b). rewrite <- list_elem_of_In, elem_of_py_range in Hall.
  specialize (Hall Hb). unfold byte_bits_ok in Hall.
  destruct (zfill 8 (drop 2 (bin b))) as [|b7 [|b6 [|b5 [|b4 [|b3 [|b2 [|b1 [|b0 [|]]]]]]]]];
    try done.
  apply andb_prop in Hall as [Hbits Hval].
  exists b7, b6, b5, b4, b3, b2, b1, b0. split_and!; [done| |by apply Z.eqb_eq].
  rewrite forallb_forall in Hbits. apply Forall_forall. intros c Hc.
  apply list_elem_of_In, Hbits, orb_prop in Hc as [Hc|Hc]; apply Z.eqb_eq in Hc;
    [by left|by right].
Qed.

(** The digits that [binary_conversion] writes for a sequence of bytes pack
    back into the bytes. *)
Lemma pack_byte_bits (bytes : list Z) :
  Forall (fun b => 0 <= b < 256) bytes ->
  bitstring (concat (map (fun byte => zfill 8 (drop 2 (bin byte))) bytes))
  /\ len (concat (map (fun byte => zfill 8 (drop 2 (bin byte))) bytes)) = 8 * len bytes
  /\ pack (concat (map (fun byte => zfill 8 (drop 2 (bin byte))) bytes)) = bytes.
Proof.
  induction 1 as [|b bytes Hb _ (IHbits & IHlen & IHpack)];
    [split_and!; [apply Forall_nil_2|done|done]|].
  destruct (byte_bits b Hb) as (b7 & b6 & b5 & b4 & b3 & b2 & b1 & b0 & Heq & Hbits & Hval).
  cbn [map concat]. rewrite Heq. split_and!.
  - by apply Forall_app.
  - rewrite len_app, IHlen, len_cons. unfold len. simpl. lia.
  - cbn [app pack]. by rewrite IHpack, Hval.
Qed.

(** The decoder undoes the encoder on every text that has an encoding and
    is not empty. *)
Theorem binary_conversion_roundtrip (text bits : str) :
  text <> [] ->
  binary_conversion_binary text = OK bits ->
  binary_conversion_text bits = OK text.
Proof.
  intros Hne. unfold binary_conversion_binary, utf8_encode. intros Hbits.
  destruct (mapM utf8_encode_char text) as [bss|] eqn:Henc; [|done].
  simpl in Hbits. injection Hbits as <-.
  destruct (utf8_decode_encode text bss Henc) as (Hdec & Hbytes & Hne').
  destruct (pack_byte_bits (concat bss) Hbytes) as (Hbit & Hlen & Hpack).
  rewrite binary_conversion_text_packed; [|done|].
  - rewrite Hlen, Z.mul_comm, Z_mod_mult. change (Z.to_nat 0) with 0%nat.
    rewrite take_0, drop_0.
    rewrite bool_decide_false by apply not_elem_of_nil.
    by rewrite Hpack, Hdec.
  - intros Hnil. apply (f_equal len) in Hnil. rewrite Hlen in Hnil.
    specialize (Hne' Hne). destruct (concat bss); [done|].
    rewrite len_cons in Hnil. pose proof (len_nonneg l). change (len []) with 0 in Hnil. lia.
Qed.

(** C8, where the code fails.  The empty text is encoded as the empty
    string of digits, which the decoder refuses: [int('', 2)] raises. *)
Theorem binary_conversion_empty_text :
  binary_conversion_binary (lit "") = OK (lit "")
  /\ binary_conversion_text (lit "") = Raise int_error.
Proof. done. Qed.

(** * The statements on concrete inputs *)

(** The small generator draws distinct positions. *)
Lemma toy_draw_indices_distinct (g : Z) (n k : nat) :
  (k <= n)%nat ->
  length (Toy.draw_indices g n k).1 = k
  /\ NoDup (Toy.draw_indices g n k).1
  /\ Forall (fun j => (j < n)%nat) (Toy.draw_indices g n k).1.
Proof.
  intros Hk. unfold Toy.draw_indices. simpl.
  assert (length (if Z.even g then seq 0 n else rev (seq 0 n)) = n) as Hlen.
  { destruct (Z.even g); by rewrite ?length_rev, length_seq. }
  assert (NoDup (if Z.even g then seq 0 n else rev (seq 0 n))) as Hnd.
  { destruct (Z.even g); [|apply NoDup_ListNoDup, List.NoDup_rev, NoDup_ListNoDup];
      apply NoDup_seq. }
  assert (Forall (fun j => (j < n)%nat) (if Z.even g then seq 0 n else rev (seq 0 n)))
    as Hlt.
  { apply Forall_forall. intros j Hj.
    assert (j ∈ seq 0 n) as Hin.
    { destruct (Z.even g); [done|].
      by apply list_elem_of_In, in_rev, list_elem_of_In in Hj. }
    apply elem_of_seq in Hin. lia. }
  split_and!.
  - rewrite length_take. lia.
  - eapply sublist_NoDup; [exact Hnd|apply sublist_take].
  - by apply Forall_take.
Qed.

(** An image of one colour is an image of bytes. *)
Lemma flat_image_bytes (w h v : Z) : 0 <= v < 256 -> byte_image (flat_image w h v).
Proof.
  intros Hv xy p Hp. unfold flat_image in Hp. simpl in Hp.
  apply elem_of_list_to_map_2, list_elem_of_fmap in Hp as (xy' & [= -> ->] & _).
  by repeat apply Forall_cons_2.
Qed.

Lemma generate_context_key_independent_witness :
  bootstrap_pixels Toy.seed_int Toy.draw_indices (lit "k") (flat_image 6 6 0)
    (size_of (flat_image 6 6 0)) 16 = OK (replicate 15 [0; 0; 0])
  /\ bootstrap_pixels Toy.seed_int Toy.draw_indices (lit "wrong") (flat_image 6 6 0)
       (size_of (flat_image 6 6 0)) 16 = OK (replicate 15 [0; 0; 0])
  /\ exists coords1 coords2,
       generate_context Toy.seed_int Toy.draw_indices (lit "k") (flat_image 6 6 0)
         (size_of (flat_image 6 6 0)) 16 = OK (coords1, 0)
       /\ generate_context Toy.seed_int Toy.draw_indices (lit "wrong") (flat_image 6 6 0)
            (size_of (flat_image 6 6 0)) 16 = OK (coords2, 0).
Proof.
  assert (Forall (Forall (fun v => v = 0)) (replicate 15 [0; 0; 0])) as Hzero.
  { apply Forall_replicate. by repeat apply Forall_cons_2. }
  assert (bootstrap_pixels Toy.seed_int Toy.draw_indices (lit "k") (flat_image 6 6 0)
            (size_of (flat_image 6 6 0)) 16 = OK (replicate 15 [0; 0; 0])) as H1
    by (vm_compute; reflexivity).
  assert (bootstrap_pixels Toy.seed_int Toy.draw_indices (lit "wrong") (flat_image 6 6 0)
            (size_of (flat_image 6 6 0)) 16 = OK (replicate 15 [0; 0; 0])) as H2
    by (vm_compute; reflexivity).
  split; [exact H1|]. split; [exact H2|].
  exact (generate_context_key_independent Toy.seed_int Toy.draw_indices
           toy_draw_indices_distinct (lit "k") (lit "wrong") (flat_image 6 6 0)
           (size_of (flat_image 6 6 0)) _ _ H1 Hzero H2 Hzero).
Defined.

(** The default configuration, on three coordinates of an image of 36
    pixels. *)
Lemma generate_coords_plan_witness :
  (METHOD default_cfg = lit "random" ->
   values (COLOURS default_cfg) <> [] /\ len [(0, 0); (0, 1); (3, 2)] <= 36)
  /\ exists slots,
       generate_coords Toy.seed_int Toy.draw_indices default_cfg (mkSize 6 6 36)
         [(0, 0); (0, 1); (3, 2)] = OK slots
       /\ len slots = 6.
Proof.
  assert (METHOD default_cfg = lit "random" ->
          values (COLOURS default_cfg) <> [] /\ len [(0, 0); (0, 1); (3, 2)] <= 36) as H
    by (intros _; split; [done|unfold len; simpl; lia]).
  split; [exact H|].
  destruct (generate_coords_plan Toy.seed_int Toy.draw_indices toy_draw_indices_distinct
              default_cfg (mkSize 6 6 36) [(0, 0); (0, 1); (3, 2)] H)
    as (picks & planned & slots & Hplan & _ & Hgen & _ & Hlen).
  exists slots. split; [exact Hgen|].
  rewrite Hlen. simpl in Hplan. destruct Hplan as (_ & _ & _ & ->). reflexivity.
Defined.

(** Two characters in 24 slots: the total is the capacity. *)
Lemma generate_message_capacity_witness :
  binary_conversion_binary (lit "hi") = OK (lit "0110100001101001")
  /\ generate_message Toy.seed_str Toy.draw_int (lit "e") default_cfg (lit "hi")
       (replicate 24 (0, 0, 0, 7))
     = OK (lit "00010000" ++ lit "0110100001101001")
  /\ generate_message Toy.seed_str Toy.draw_int (lit "e") default_cfg (lit "hi")
       (replicate 23 (0, 0, 0, 7))
     = Raise (capacity_error 1).
Proof.
  assert (binary_conversion_binary (lit "hi") = OK (lit "0110100001101001")) as Hdata
    by reflexivity.
  split; [exact Hdata|]. split.
  - destruct (generate_message_capacity Toy.seed_str Toy.draw_int (lit "e") default_cfg
                (lit "hi") _ (replicate 24 (0, 0, 0, 7)) Hdata) as (_ & Hfit & _).
    destruct Hfit as (noise & -> & Hnoise); [vm_compute; discriminate|].
    by rewrite (Hnoise eq_refl).
  - destruct (generate_message_capacity Toy.seed_str Toy.draw_int (lit "e") default_cfg
                (lit "hi") _ (replicate 23 (0, 0, 0, 7)) Hdata) as (_ & _ & Hone & _).
    apply Hone. reflexivity.
Defined.

(** C5, where the stated property fails.  With 21 slots the slot count has
    five binary digits: five and the sixteen data bits are the capacity,
    not more, and [generate_message] raises the capacity error all the
    same, with an overage of 3, because the prefix has eight digits. *)
Lemma generate_message_capacity_counterexample :
  binary_conversion_binary (lit "hi") = OK (lit "0110100001101001")
  /\ bit_length (len (replicate 21 (0, 0, 0, 7))) + len (lit "0110100001101001")
     = len (replicate 21 (0, 0, 0, 7))
  /\ generate_message Toy.seed_str Toy.draw_int (lit "e") default_cfg (lit "hi")
       (replicate 21 (0, 0, 0, 7))
     = Raise (capacity_error 3).
Proof. by vm_compute. Qed.

(** C2, where the stated property fails.  With 100 slots the slot count
    has seven binary digits, and the prefix that [generate_message] writes
    before the sixteen data bits has eight. *)
Lemma length_prefix_width_counterexample :
  generate_message Toy.seed_str Toy.draw_int (lit "e") default_cfg (lit "hi")
    (replicate 100 (0, 0, 0, 7))
  = OK (lit "00010000" ++ lit "0110100001101001")
  /\ binary_conversion_binary (lit "hi") = OK (lit "0110100001101001")
  /\ len (lit "00010000") = 8
  /\ bit_length (len (replicate 100 (0, 0, 0, 7))) = 7.
Proof. by vm_compute. Qed.

Lemma length_prefix_width_max_witness :
  generate_message Toy.seed_str Toy.draw_int (lit "e") default_cfg (lit "hi")
    (replicate 300 (0, 0, 0, 7))
  = OK (lit "000010000" ++ lit "0110100001101001")
  /\ exists end_key data noise,
       binary_conversion_binary (lit "hi") = OK data
       /\ lit "000010000" ++ lit "0110100001101001" = end_key ++ data ++ noise
       /\ int2 end_key = OK (len data)
       /\ (NOISE default_cfg = false -> noise = [])
       /\ len end_key = Z.max 8 (bit_length (len (replicate 300 (0, 0, 0, 7)))).
Proof.
  assert (generate_message Toy.seed_str Toy.draw_int (lit "e") default_cfg (lit "hi")
            (replicate 300 (0, 0, 0, 7))
          = OK (lit "000010000" ++ lit "0110100001101001")) as Hmsg
    by (vm_compute; reflexivity).
  split; [exact Hmsg|].
  exact (length_prefix_width_max Toy.seed_str Toy.draw_int (lit "e") default_cfg
           (lit "hi") _ (replicate 300 (0, 0, 0, 7)) Hmsg).
Defined.

(** The header of the default configuration ends with a 1, for bit position
    7.  On an image of zeros the pixel at the twelfth coordinate is still
    all zeros after [attach_header]. *)
Lemma attach_header_skips_last_bit_witness :
  exists cut_coords img',
    len (lit "111100000011") = 12
    /\ attach_header Toy.seed_int Toy.draw_indices (flat_image 6 6 0) 7
         (lit "111100000011") (product (py_range 6) (py_range 6))
       = OK (cut_coords, img')
    /\ product (py_range 6) (py_range 6) !! 11%nat = Some (1, 5)
    /\ ((1, 5) ∉ take 11 (product (py_range 6) (py_range 6)))
    /\ cut_coords = drop 12 (product (py_range 6) (py_range 6))
    /\ image_data img' !! (1, 5) = Some [0; 0; 0].
Proof.
  destruct (attach_header Toy.seed_int Toy.draw_indices (flat_image 6 6 0) 7
              (lit "111100000011") (product (py_range 6) (py_range 6)))
    as [[cut_coords img']|e] eqn:Hattach; [|by vm_compute in Hattach].
  exists cut_coords, img'.
  assert ((1, 5) ∉ take 11 (product (py_range 6) (py_range 6))) as Hfresh.
  { intros Hin. vm_compute in Hin.
    repeat (apply elem_of_cons in Hin as [[=]|Hin]). by apply elem_of_nil in Hin. }
  destruct (attach_header_skips_last_bit Toy.seed_int Toy.draw_indices
              (flat_image 6 6 0) img' 7 (lit "111100000011")
              (product (py_range 6) (py_range 6)) cut_coords (1, 5)
              eq_refl Hattach eq_refl Hfresh) as [Hcut Hpixel].
  split_and!; try done; by rewrite Hpixel.
Defined.

(** C4, where the stated property fails.  Nine binary digits, the first a
    zero: the decoder returns the text of the last eight. *)
Lemma binary_conversion_text_counterexample :
  binary_conversion_text (lit "001100001") = OK (lit "a")
  /\ len (lit "001100001") mod 8 = 1.
Proof. by vm_compute. Qed.

(** Two bytes that are an over-long form, refused, and nine digits that
    start with a one, refused as too large for one byte. *)
Lemma binary_conversion_text_spec_witness :
  bitstring (lit "1100000010000000")
  /\ lit "1100000010000000" <> []
  /\ binary_conversion_text (lit "1100000010000000") = Raise UnicodeDecodeError.
Proof.
  assert (bitstring (lit "1100000010000000")) as Hbits.
  { repeat (apply Forall_cons_2; [first [by left|by right]|]). apply Forall_nil_2. }
  assert (lit "1100000010000000" <> []) as Hne by done.
  split; [exact Hbits|]. split; [exact Hne|].
  exact (binary_conversion_text_spec (lit "1100000010000000") Hbits Hne).
Defined.

(** Two bits written into one channel byte of an image of four pixels, the
    third slot left out for want of a message bit. *)
Lemma attach_data_frame_witness :
  exists img',
    attach_data (flat_image 2 2 0) default_cfg (lit "11")
      [(0, 0, 1, 7); (0, 0, 1, 6); (1, 1, 2, 0)] = OK img'
    /\ image_data img' !! (0, 0) = Some [0; 3; 0]
    /\ image_data img' !! (1, 1) = Some [0; 0; 0]
    /\ read_bit img' (0, 0, 1, 5) = Some false.
Proof.
  assert (byte_image (flat_image 2 2 0)) as Hbytes by (by apply flat_image_bytes).
  assert (Forall (slot_in_image (flat_image 2 2 0))
            (written_slots default_cfg (lit "11")
               [(0, 0, 1, 7); (0, 0, 1, 6); (1, 1, 2, 0)])) as Hslots.
  { repeat (apply Forall_cons_2;
            [exists [0; 0; 0]; split_and!; (reflexivity || (vm_compute; done))|]).
    apply Forall_nil_2. }
  assert (bitstring (lit "11")) as Hmsg.
  { repeat (apply Forall_cons_2; [by right|]). apply Forall_nil_2. }
  destruct (attach_data_frame (flat_image 2 2 0) default_cfg (lit "11")
              [(0, 0, 1, 7); (0, 0, 1, 6); (1, 1, 2, 0)] Hbytes Hslots Hmsg)
    as (img' & Hattach & Hbit & Hchannel & Hpixel & Hset); [done|].
  exists img'. split; [exact Hattach|].
  assert (attach_data (flat_image 2 2 0) default_cfg (lit "11")
            [(0, 0, 1, 7); (0, 0, 1, 6); (1, 1, 2, 0)]
          = OK (mkImage (2, 2) (<[(0, 0) := [0; 3; 0]]> (image_data (flat_image 2 2 0)))))
    as Hrun by (vm_compute; reflexivity).
  rewrite Hattach in Hrun. injection Hrun as ->. by vm_compute.
Defined.

(** C1 on the scenario of the specification: ten by ten pixels of zeros,
    key "k", text "hi", method "all", red channel, bit position 7. *)
Example data_extract_after_data_insert :
  exists img',
    data_insert Toy.seed_int Toy.seed_str Toy.draw_indices Toy.draw_int (lit "e")
      (flat_image 10 10 0) (lit "k") (lit "hi") (lit "all") (Some [0]) (Some [7]) false
    = OK img'
    /\ data_extract Toy.seed_int Toy.draw_indices img' (lit "k") = Raise TypeError.
Proof.
  exists (match data_insert Toy.seed_int Toy.seed_str Toy.draw_indices Toy.draw_int
                  (lit "e") (flat_image 10 10 0) (lit "k") (lit "hi") (lit "all")
                  (Some [0]) (Some [7]) false with
          | OK img' => img'
          | Raise _ => flat_image 0 0 0
          end).
  split; vm_compute; reflexivity.
Qed.

(** * The functions on some inputs *)

Example integer_conversion_byte : integer_conversion_binary 5 = lit "00000101".
Proof. reflexivity. Qed.

Example integer_conversion_wide : integer_conversion_binary 300 = lit "100101100".
Proof. reflexivity. Qed.

Example integer_conversion_back : integer_conversion_integer (lit "00000101") = OK 5.
Proof. reflexivity. Qed.

Example decimal_encoding_two : decimal_encoding (lit "ab") = 97 * 256 + 98.
Proof. reflexivity. Qed.

Example product_order :
  product (py_range 2) (py_range 3) = [(0, 0); (0, 1); (0, 2); (1, 0); (1, 1); (1, 2)].
Proof. reflexivity. Qed.

Example build_object_default :
  build_object 5 (lit "random") false None None = OK default_cfg.
Proof. vm_compute. reflexivity. Qed.

(** A channel given twice, the second time from the end of the list, is
    one key of the dictionary, with the value given last. *)
Example build_object_negative_index :
  (cfg ← build_object 5 (lit "all") false (Some [2; -1; 0]) (Some [0]); OK (COLOURS cfg))
  = OK [(lit "blue", -1); (lit "red", 0)].
Proof. vm_compute. reflexivity. Qed.

Example binary_conversion_hi :
  binary_conversion_binary (lit "hi") = OK (lit "0110100001101001")
  /\ binary_conversion_text (lit "0110100001101001") = OK (lit "hi").
Proof. split; reflexivity. Qed.

(** The euro sign, an emoji outside of the basic plane, and e acute. *)
Example binary_conversion_multibyte :
  (bits ← binary_conversion_binary [0x20AC; 0x1F600; 0xE9]; binary_conversion_text bits)
  = OK [0x20AC; 0x1F600; 0xE9].
Proof. vm_compute. reflexivity. Qed.

Example binary_conversion_surrogate :
  binary_conversion_binary [0xD800] = Raise UnicodeEncodeError.
Proof. reflexivity. Qed.

Example binary_conversion_overflow :
  binary_conversion_text (lit "110000100") = Raise OverflowError.
Proof. reflexivity. Qed.

(** * Further properties of the code *)

(** ** Numbers and their binary literals *)

Lemma replace_0b_bin_neg (p : positive) : replace_0b (bin (Zneg p)) = 45 :: bin_pos p.
Proof.
  unfold bin. change (lit "-0b" ++ bin_pos p) with (45 :: 48 :: 98 :: bin_pos p).
  cbn [replace_0b]. simpl.
  by rewrite (replace_0b_bitstring _ (bin_pos_bitstring p)).
Qed.

(** X1. Whatever the integer, [integer_conversion] reads back the string
    that it wrote for it: the sign and the zeros put in front do not change
    the value. *)
Theorem integer_conversion_roundtrip (n : Z) :
  integer_conversion_integer (integer_conversion_binary n) = OK n.
Proof.
  destruct (decide (0 <= n)) as [Hn|Hn].
  - unfold integer_conversion_integer.
    pose proof (int2_zfill_integer_conversion 0 n Hn) as H.
    rewrite zfill_bitstring_eq in H by (by apply integer_conversion_binary_bitstring).
    replace (Z.to_nat (0 - len (integer_conversion_binary n))) with 0%nat in H;
      [done|pose proof (len_nonneg (integer_conversion_binary n)); lia].
  - destruct n as [|p|p]; try lia.
    unfold integer_conversion_integer, integer_conversion_binary.
    rewrite replace_0b_bin_neg. unfold zfill. simpl orb. cbv iota.
    unfold int2. simpl Z.eqb. cbv iota.
    set (r := replicate _ c0 ++ bin_pos p).
    assert (digits_value 0 r = Some (Zpos p)) as Hv.
    { unfold r. rewrite digits_value_app, digits_value_zeros. simpl.
      by rewrite digits_value_bin_pos. }
    assert (r <> []) as Hne.
    { unfold r. intros Hnil. apply app_eq_nil in Hnil as [_ Hnil].
      apply (f_equal len) in Hnil. rewrite bin_pos_len in Hnil.
      change (len []) with 0 in Hnil. lia. }
    destruct r as [|z l]; [done|]. by rewrite Hv.
Qed.

(** X2. For a natural number [integer_conversion] writes binary digits
    only, as many as the number has but eight at least: a byte is written
    on exactly eight digits. *)
Theorem integer_conversion_width (n : Z) :
  0 <= n ->
  bitstring (integer_conversion_binary n)
  /\ len (integer_conversion_binary n) = Z.max 8 (bit_length n)
  /\ (n < 256 -> len (integer_conversion_binary n) = 8).
Proof.
  intros Hn. split_and!.
  - by apply integer_conversion_binary_bitstring.
  - by apply integer_conversion_binary_len.
  - intros Hbyte. rewrite integer_conversion_binary_len by done.
    pose proof (bit_length_mono n 255). change (bit_length 255) with 8 in *.
    pose proof (bit_length_nonneg n). lia.
Qed.

Lemma integer_conversion_width_witness :
  0 <= 300
  /\ bitstring (integer_conversion_binary 300)
  /\ len (integer_conversion_binary 300) = 9.
Proof.
  assert (0 <= 300) as H by lia.
  split; [exact H|].
  destruct (integer_conversion_width 300 H) as (Hbits & Hlen & _).
  split; [exact Hbits|exact Hlen].
Defined.

(** ** The key as a number *)

Lemma decimal_encoding_snoc (text : list Z) (c : Z) :
  decimal_encoding (text ++ [c]) = decimal_encoding text * 256 + c.
Proof. unfold decimal_encoding. by rewrite fold_left_app. Qed.

Lemma decimal_encoding_nonneg (text : list Z) :
  Forall (fun c => 0 <= c) text -> 0 <= decimal_encoding text.
Proof.
  induction text as [|c text IH] using rev_ind; intros Htext; [done|].
  apply Forall_app in Htext as [Htext Hc]. rewrite Forall_singleton in Hc.
  rewrite decimal_encoding_snoc. specialize (IH Htext). lia.
Qed.

Lemma decimal_encoding_pos (text : list Z) :
  Forall (fun c => 0 <= c) text -> no_leading_nul text -> text <> [] ->
  0 < decimal_encoding text.
Proof.
  induction text as [|c text IH] using rev_ind; intros Htext Hlead Hne; [done|].
  apply Forall_app in Htext as [Htext Hc]. rewrite Forall_singleton in Hc.
  rewrite decimal_encoding_snoc.
  destruct text as [|d text]; [unfold decimal_encoding in *; simpl in *; lia|].
  assert (0 < decimal_encoding (d :: text)) by (by apply IH). lia.
Qed.

Lemma decimal_encoding_injective_aux (text1 text2 : list Z) :
  Forall (fun c => 0 <= c < 256) text1 -> Forall (fun c => 0 <= c < 256) text2 ->
  no_leading_nul text1 -> no_leading_nul text2 ->
  decimal_encoding text1 = decimal_encoding text2 ->
  text1 = text2.
Proof.
  assert (forall text, Forall (fun c => 0 <= c < 256) text -> Forall (fun c => 0 <= c) text)
    as Hweak by (intros text Ht; eapply Forall_impl; [exact Ht|]; simpl; lia).
  revert text2. induction text1 as [|c text1 IH] using rev_ind; intros text2 H1 H2 L1 L2 Heq.
  - destruct text2 as [|d text2]; [done|].
    pose proof (decimal_encoding_pos (d :: text2) (Hweak _ H2) L2) as Hpos.
    change (decimal_encoding []) with 0 in Heq. rewrite <- Heq in Hpos. by specialize (Hpos ltac:(done)).
  - destruct text2 as [|d text2 _] using rev_ind.
    { pose proof (decimal_encoding_pos (text1 ++ [c]) (Hweak _ H1) L1) as Hpos.
      rewrite Heq in Hpos. change (decimal_encoding []) with 0 in Hpos.
      assert (text1 ++ [c] <> []) as Hne by (by destruct text1).
      by specialize (Hpos Hne). }
    apply Forall_app in H1 as [H1 Hc]. rewrite Forall_singleton in Hc.
    apply Forall_app in H2 as [H2 Hd]. rewrite Forall_singleton in Hd.
    rewrite !decimal_encoding_snoc in Heq.
    assert (c = d /\ decimal_encoding text1 = decimal_encoding text2) as [-> Heq'] by lia.
    f_equal. apply IH; try done.
    + by destruct text1.
    + by destruct text2.
Qed.

(** X3. Two different key texts of characters below 256 that do not start
    with the character 0 have different numbers: on such keys
    [decimal_encoding] loses nothing. *)
Theorem decimal_encoding_injective (text1 text2 : list Z) :
  Forall (fun c => 0 <= c < 256) text1 -> Forall (fun c => 0 <= c < 256) text2 ->
  no_leading_nul text1 -> no_leading_nul text2 ->
  text1 <> text2 ->
  decimal_encoding text1 <> decimal_encoding text2.
Proof.
  intros H1 H2 L1 L2 Hne Heq. apply Hne.
  by apply decimal_encoding_injective_aux.
Qed.

Lemma decimal_encoding_injective_witness :
  decimal_encoding (lit "k") <> decimal_encoding (lit "wrong").
Proof.
  apply decimal_encoding_injective; try done.
  - change (lit "k") with [107].
    repeat (apply Forall_cons_2; [lia|]). apply Forall_nil_2.
  - change (lit "wrong") with [119; 114; 111; 110; 103].
    repeat (apply Forall_cons_2; [lia|]). apply Forall_nil_2.
Defined.

(** X4. A character of 256 or more carries into the character before it:
    the key in which that character is 256 less and the one before it 1 more
    has the same number, so the two keys derive the same seed. *)
Theorem decimal_encoding_carry (prefix suffix : list Z) (a b : Z) :
  decimal_encoding (prefix ++ a :: b :: suffix)
  = decimal_encoding (prefix ++ (a + 1) :: (b - 256) :: suffix).
Proof.
  unfold decimal_encoding. rewrite !fold_left_app. simpl. f_equal. lia.
Qed.

(** ** The image files *)

Lemma endswith_true (s suffix : list Z) :
  endswith s suffix = true <-> exists stem, s = stem ++ suffix.
Proof.
  unfold endswith. rewrite bool_decide_eq_true. split.
  - intros H. exists (take (length s - length suffix) s).
    pose proof (take_drop (length s - length suffix) s) as Htd.
    by rewrite H in Htd.
  - intros [stem ->]. rewrite length_app.
    replace (length stem + length suffix - length suffix)%nat with (length stem) by lia.
    by rewrite drop_app_length.
Qed.

Lemma slice_to_stem (stem : list Z) : slice_to (stem ++ lit ".png") (-4) = stem.
Proof.
  unfold slice_to, slice_bound. change (-4 <? 0) with true. cbv iota.
  replace (Z.to_nat (len (stem ++ lit ".png") + -4)) with (length stem)
    by (unfold len; rewrite length_app; simpl; lia).
  by rewrite take_app_length.
Qed.

Lemma save_path_length (filename : list Z) :
  length (save_path filename) = (length (load_path filename) + 7)%nat.
Proof.
  unfold save_path, load_path.
  destruct (endswith filename (lit ".png")) eqn:Hend; simpl negb; cbv iota.
  - apply endswith_true in Hend as [stem ->].
    rewrite slice_to_stem, !length_app. simpl. lia.
  - rewrite !length_app. simpl. lia.
Qed.

(** X5. Saving the result under a file name does not change what loading
    that file name gives: [save_image] writes to a path that is not the
    path [load_image] opens for the same name, so the source image is not
    overwritten. *)
Theorem save_image_keeps_source (files : gmap (list Z) Image) (filename : list Z)
    (img : Image) :
  load_image (save_image files filename img (lit ".png")) filename (lit ".png")
  = load_image files filename (lit ".png").
Proof.
  unfold load_image, save_image.
  rewrite lookup_insert_ne; [done|].
  intros Heq. pose proof (save_path_length filename) as Hlen.
  unfold save_path, load_path in Hlen. rewrite Heq in Hlen. lia.
Qed.

(** X6. A file name may be given with or without the extension: for a name
    that does not end in ".png", [load_image] opens the same path for the
    name and for the name followed by ".png", and [save_image] writes the
    same path for both. *)
Theorem image_paths_extension (files : gmap (list Z) Image) (filename : list Z)
    (img : Image) :
  endswith filename (lit ".png") = false ->
  load_image files (filename ++ lit ".png") (lit ".png")
  = load_image files filename (lit ".png")
  /\ save_image files (filename ++ lit ".png") img (lit ".png")
     = save_image files filename img (lit ".png").
Proof.
  intros Hend. unfold load_image, save_image.
  assert (endswith (filename ++ lit ".png") (lit ".png") = true) as ->
    by (apply endswith_true; eauto).
  rewrite Hend. simpl negb. cbv iota. split; [done|].
  by rewrite slice_to_stem.
Qed.

Lemma image_paths_extension_witness :
  endswith (lit "gate") (lit ".png") = false
  /\ load_image (<[lit "Images/gate.png" := flat_image 2 2 0]> ∅) (lit "gate.png") (lit ".png")
     = load_image (<[lit "Images/gate.png" := flat_image 2 2 0]> ∅) (lit "gate") (lit ".png")
  /\ save_image ∅ (lit "gate.png") (flat_image 2 2 0) (lit ".png")
     = save_image ∅ (lit "gate") (flat_image 2 2 0) (lit ".png").
Proof.
  assert (endswith (lit "gate") (lit ".png") = false) as H by reflexivity.
  split; [exact H|].
  split.
  - exact (proj1 (image_paths_extension _ (lit "gate") (flat_image 2 2 0) H)).
  - exact (proj2 (image_paths_extension ∅ (lit "gate") (flat_image 2 2 0) H)).
Defined.

(** ** The grid of coordinates *)

Lemma elem_of_product {A B} (a : list A) (b : list B) (xy : A * B) :
  xy ∈ product a b <-> xy.1 ∈ a /\ xy.2 ∈ b.
Proof.
  unfold product. rewrite list_elem_of_bind. split.
  - intros (x & Hxy & Hx). apply list_elem_of_fmap in Hxy as (y & -> & Hy). done.
  - intros [Hx Hy]. exists xy.1. split; [|done].
    apply list_elem_of_fmap. exists xy.2. by destruct xy.
Qed.

Lemma NoDup_product {A B} (a : list A) (b : list B) :
  NoDup a -> NoDup b -> NoDup (product a b).
Proof.
  intros Ha Hb. unfold product. apply NoDup_bind; [| |done].
  - intros x1 x2 xy _ _ H1 H2.
    apply list_elem_of_fmap in H1 as (y1 & -> & _).
    apply list_elem_of_fmap in H2 as (y2 & [= -> _] & _). done.
  - intros x _. apply NoDup_fmap_2; [|done]. by intros y1 y2 [= ->].
Qed.

Lemma length_product {A B} (a : list A) (b : list B) :
  length (product a b) = (length a * length b)%nat.
Proof. unfold product. apply length_bind_const. intros x. apply length_map. Qed.

Lemma NoDup_py_range (n : Z) : NoDup (py_range n).
Proof.
  unfold py_range. apply NoDup_fmap_2; [|apply NoDup_seq].
  intros i j. apply Nat2Z.inj.
Qed.

Lemma grid_length (w h : Z) :
  0 <= w -> 0 <= h -> len (product (py_range w) (py_range h)) = w * h.
Proof.
  intros Hw Hh. unfold len. rewrite length_product, !py_range_length. lia.
Qed.

(** ** The error monad on lists *)

Lemma mapM_result_OK {A B} (f : A -> result B) (l : list A) :
  Forall (fun x => exists y, f x = OK y) l ->
  exists ys, mapM f l = OK ys /\ length ys = length l.
Proof.
  induction 1 as [|x l [y Hy] _ (ys & IH & Hlen)]; [by exists []|].
  exists (y :: ys). simpl. rewrite Hy. simpl. rewrite IH. simpl. by rewrite Hlen.
Qed.

Lemma mapM_result_Raise {A B} (f : A -> result B) (l : list A) (e : exn) :
  Forall (fun x => f x = Raise e \/ exists y, f x = OK y) l ->
  Exists (fun x => f x = Raise e) l ->
  mapM f l = Raise e.
Proof.
  intros Hall Hex. induction Hex as [x l Hx|x l Hex IH].
  - simpl. by rewrite Hx.
  - apply Forall_cons in Hall as [Hx Hall]. simpl.
    destruct Hx as [-> | [y ->]]; [done|]. simpl. by rewrite IH.
Qed.

Lemma py_index_cases {A} (l : list A) (i : Z) :
  py_index l i = Raise IndexError \/ exists a, py_index l i = OK a /\ a ∈ l.
Proof.
  unfold py_index.
  destruct (_ <? 0); [by left|].
  destruct (l !! _) as [a|] eqn:Ha; [right|by left].
  exists a. split; [done|]. by eapply list_elem_of_lookup_2.
Qed.

(** ** Key derivation *)

Section KeyContext.

Context {rng : Type}.
Variable seed_int : Z -> rng.
Variable draw_indices : rng -> nat -> nat -> list nat * rng.

Hypothesis draw_indices_distinct : forall g n k,
  (k <= n)%nat ->
  length (draw_indices g n k).1 = k
  /\ NoDup (draw_indices g n k).1
  /\ Forall (fun j => (j < n)%nat) (draw_indices g n k).1.

Lemma shuffle_OK_permutation {A} (key : Z) (data shuffled : list A) :
  shuffle seed_int draw_indices key data = OK shuffled -> shuffled ≡ₚ data.
Proof.
  intros H.
  destruct (shuffle_permutation seed_int draw_indices draw_indices_distinct key data)
    as (shuffled' & H' & Hperm).
  congruence.
Qed.

(** X7. [shuffle] returns a permutation of the data it is given, whatever
    the key: nothing is lost and nothing is taken twice. *)
Theorem shuffle_is_permutation {A} (key : Z) (data : list A) :
  exists shuffled,
    shuffle seed_int draw_indices key data = OK shuffled
    /\ shuffled ≡ₚ data
    /\ len shuffled = len data.
Proof.
  destruct (shuffle_permutation seed_int draw_indices draw_indices_distinct key data)
    as (shuffled & H & Hperm).
  exists shuffled. split_and!; [done|done|]. unfold len. by rewrite Hperm.
Qed.

(** What [generate_context] computes on the way to its result. *)
Lemma generate_context_OK_inv (key : list Z) (img : Image) (size : Size)
    (coords : list (Z * Z)) (image_key : Z) :
  generate_context seed_int draw_indices key img size 16 = OK (coords, image_key) ->
  exists coords0 pixels,
    shuffle seed_int draw_indices (decimal_encoding key * (PIXELS size * 99))
      (product (py_range (WIDTH size)) (py_range (HEIGHT size))) = OK coords0
    /\ mapM (fun point => c ← py_index coords0 point; getpixel img (c.1, c.2))
         (py_range 15) = OK pixels
    /\ image_key = decimal_encoding key * (PIXELS size * 99)
                   * foldr Z.add 0 (map (foldr Z.add 0) pixels)
    /\ shuffle seed_int draw_indices image_key (drop 16 coords0) = OK coords.
Proof.
  unfold generate_context. intros H.
  apply bind_OK in H as (coords0 & H0 & H).
  apply bind_OK in H as (pixels & Hpx & H).
  apply bind_OK in H as (coords' & Hs & H).
  injection H as <- <-. by exists coords0, pixels.
Qed.

Lemma generate_context_OK (key : list Z) (img : Image) :
  complete_image img ->
  0 <= (image_size img).1 -> 0 <= (image_size img).2 ->
  15 <= (image_size img).1 * (image_size img).2 ->
  exists coords image_key,
    generate_context seed_int draw_indices key img (size_of img) 16
    = OK (coords, image_key)
    /\ NoDup coords
    /\ (forall xy, xy ∈ coords ->
          0 <= xy.1 < (image_size img).1 /\ 0 <= xy.2 < (image_size img).2)
    /\ len coords = Z.max 0 ((image_size img).1 * (image_size img).2 - 16).
Proof.
  intros Hcomplete Hw Hh Hsize.
  set (w := (image_size img).1) in *. set (h := (image_size img).2) in *.
  unfold generate_context, size_of. cbn [WIDTH HEIGHT PIXELS]. fold w h.
  destruct (shuffle_permutation seed_int draw_indices draw_indices_distinct
              (decimal_encoding key * (w * h * 99)) (product (py_range w) (py_range h)))
    as (coords0 & Hs0 & Hperm0).
  assert (forall xy, xy ∈ coords0 -> 0 <= xy.1 < w /\ 0 <= xy.2 < h) as Hgrid.
  { intros xy Hxy. rewrite Hperm0 in Hxy. apply elem_of_product in Hxy as [Hx Hy].
    by apply elem_of_py_range in Hx, Hy. }
  assert (NoDup coords0) as Hnd0.
  { rewrite Hperm0. apply NoDup_product; apply NoDup_py_range. }
  assert (len coords0 = w * h) as Hlen0.
  { unfold len. rewrite Hperm0. by apply grid_length. }
  destruct (mapM_result_OK
              (fun point => c ← py_index coords0 point; getpixel img (c.1, c.2))
              (py_range (16 - 1))) as (pixels & Hpx & _).
  { apply Forall_forall. intros point Hpoint. apply elem_of_py_range in Hpoint.
    destruct (lookup_lt_is_Some_2 coords0 (Z.to_nat point)) as [xy Hxy];
      [unfold len in Hlen0; lia|].
    rewrite (proj2 (py_index_OK coords0 point xy ltac:(lia)) Hxy), bind_ret.
    destruct (Hgrid xy) as [Hx Hy]; [by eapply list_elem_of_lookup_2|].
    destruct (Hcomplete xy.1 xy.2 Hx Hy) as [p Hp].
    exists p. unfold getpixel. by rewrite Hp. }
  set (image_key := decimal_encoding key * (w * h * 99)
                    * foldr Z.add 0 (map (foldr Z.add 0) pixels)).
  destruct (shuffle_permutation seed_int draw_indices draw_indices_distinct
              image_key (slice_from coords0 16)) as (coords & Hs & Hperm).
  exists coords, image_key.
  run_with Hs0. run_with Hpx. fold image_key. run_with Hs.
  change (slice_from coords0 16) with (drop 16 coords0) in Hperm.
  split_and!; [done| | |].
  - rewrite Hperm. eapply sublist_NoDup; [exact Hnd0|apply sublist_drop].
  - intros xy Hxy. apply Hgrid. rewrite Hperm in Hxy.
    eapply elem_of_sublist; [exact Hxy|apply sublist_drop].
  - unfold len in *. rewrite Hperm, length_drop. lia.
Qed.

(** X8. On an image that has a pixel at every position of its grid, every
    pixel with three channels or more, and at least fifteen pixels,
    [generate_context] returns, for every key: the coordinates it returns
    are positions of the grid, no position twice, and there are sixteen
    fewer of them than pixels (none when the image has fifteen or sixteen
    pixels). *)
Theorem generate_context_coords (key : list Z) (img : Image) :
  complete_image img ->
  (forall xy p, image_data img !! xy = Some p -> 3 <= len p) ->
  0 <= (image_size img).1 -> 0 <= (image_size img).2 ->
  15 <= (image_size img).1 * (image_size img).2 ->
  exists coords image_key,
    generate_context seed_int draw_indices key img (size_of img) 16
    = OK (coords, image_key)
    /\ NoDup coords
    /\ (forall xy, xy ∈ coords ->
          0 <= xy.1 < (image_size img).1 /\ 0 <= xy.2 < (image_size img).2)
    /\ len coords = Z.max 0 ((image_size img).1 * (image_size img).2 - 16).
Proof. intros Hcomplete _. by apply generate_context_OK. Qed.

(** X9. On an image of fewer than fifteen pixels [generate_context] raises
    [IndexError], whatever the key and the pixels: it samples fifteen
    coordinates and the grid has not that many. *)
Theorem generate_context_small_image (key : list Z) (img : Image) :
  0 <= (image_size img).1 -> 0 <= (image_size img).2 ->
  (image_size img).1 * (image_size img).2 < 15 ->
  generate_context seed_int draw_indices key img (size_of img) 16 = Raise IndexError.
Proof.
  intros Hw Hh Hsize.
  set (w := (image_size img).1) in *. set (h := (image_size img).2) in *.
  unfold generate_context, size_of. cbn [WIDTH HEIGHT PIXELS]. fold w h.
  destruct (shuffle_permutation seed_int draw_indices draw_indices_distinct
              (decimal_encoding key * (w * h * 99)) (product (py_range w) (py_range h)))
    as (coords0 & Hs0 & Hperm0).
  assert (len coords0 = w * h) as Hlen0.
  { unfold len. rewrite Hperm0. by apply grid_length. }
  run_with Hs0.
  rewrite (mapM_result_Raise _ _ IndexError); [done| |].
  - apply Forall_forall. intros point _.
    destruct (py_index_cases coords0 point) as [-> | (xy & -> & _)]; [by left|].
    rewrite bind_ret. unfold getpixel. destruct (_ !! _); [right; eauto|by left].
  - apply Exists_exists. exists (w * h). split.
    + apply elem_of_py_range. nia.
    + unfold py_index. destruct (Z.ltb_spec (w * h) 0); [nia|].
      destruct (Z.ltb_spec (w * h) 0); [nia|].
      rewrite lookup_ge_None_2; [done|]. unfold len in Hlen0. lia.
Qed.

End KeyContext.

Lemma flat_image_lookup (w h v x y : Z) :
  0 <= x < w -> 0 <= y < h ->
  image_data (flat_image w h v) !! (x, y) = Some [v; v; v].
Proof.
  intros Hx Hy. unfold flat_image. simpl.
  destruct (list_to_map _ !! (x, y)) as [p|] eqn:Hp.
  - apply elem_of_list_to_map_2, list_elem_of_fmap in Hp as (xy & Heq & _).
    by injection Heq as _ ->.
  - apply not_elem_of_list_to_map in Hp. exfalso. apply Hp.
    apply list_elem_of_fmap. exists ((x, y), [v; v; v]). split; [done|].
    apply list_elem_of_fmap. exists (x, y). split; [done|].
    apply elem_of_product. simpl. by rewrite !elem_of_py_range.
Qed.

Lemma flat_image_complete (w h v : Z) : complete_image (flat_image w h v).
Proof.
  intros x y Hx Hy. change (image_size (flat_image w h v)) with (w, h) in *.
  rewrite flat_image_lookup by done. eauto.
Qed.

Lemma flat_image_channels (w h v : Z) (xy : Z * Z) (p : list Z) :
  image_data (flat_image w h v) !! xy = Some p -> 3 <= len p.
Proof.
  intros Hp. unfold flat_image in Hp. simpl in Hp.
  by apply elem_of_list_to_map_2, list_elem_of_fmap in Hp as (xy' & [= -> ->] & _).
Qed.

Lemma shuffle_is_permutation_witness :
  exists shuffled,
    shuffle Toy.seed_int Toy.draw_indices 7 [10; 20; 30] = OK shuffled
    /\ shuffled ≡ₚ [10; 20; 30]
    /\ len shuffled = len [10; 20; 30].
Proof.
  exact (shuffle_is_permutation Toy.seed_int Toy.draw_indices toy_draw_indices_distinct
           7 [10; 20; 30]).
Defined.

Lemma generate_context_coords_witness :
  exists coords image_key,
    generate_context Toy.seed_int Toy.draw_indices (lit "k") (flat_image 6 6 1)
      (size_of (flat_image 6 6 1)) 16 = OK (coords, image_key)
    /\ NoDup coords
    /\ (forall xy, xy ∈ coords -> 0 <= xy.1 < 6 /\ 0 <= xy.2 < 6)
    /\ len coords = 20.
Proof.
  exact (generate_context_coords Toy.seed_int Toy.draw_indices toy_draw_indices_distinct
           (lit "k") (flat_image 6 6 1) (flat_image_complete 6 6 1)
           (flat_image_channels 6 6 1)
           ltac:(simpl; lia) ltac:(simpl; lia) ltac:(simpl; lia)).
Defined.

Lemma generate_context_small_image_witness :
  generate_context Toy.seed_int Toy.draw_indices (lit "k") (flat_image 3 4 1)
    (size_of (flat_image 3 4 1)) 16 = Raise IndexError.
Proof.
  exact (generate_context_small_image Toy.seed_int Toy.draw_indices
           toy_draw_indices_distinct (lit "k") (flat_image 3 4 1)
           ltac:(simpl; lia) ltac:(simpl; lia) ltac:(simpl; lia)).
Defined.

(** ** The configuration *)

Lemma py_index_in_range {A} (l : list A) (i : Z) :
  - len l <= i < len l -> exists a, py_index l i = OK a.
Proof.
  intros Hi. unfold py_index, len in *.
  destruct (Z.ltb_spec i 0).
  - destruct (Z.ltb_spec (Z.of_nat (length l) + i) 0); [lia|].
    destruct (lookup_lt_is_Some_2 l (Z.to_nat (Z.of_nat (length l) + i))) as [a ->]; [lia|].
    eauto.
  - destruct (Z.ltb_spec i 0); [lia|].
    destruct (lookup_lt_is_Some_2 l (Z.to_nat i)) as [a ->]; [lia|]. eauto.
Qed.

Lemma py_index_out_of_range {A} (l : list A) (i : Z) :
  i < - len l \/ len l <= i -> py_index l i = Raise IndexError.
Proof.
  intros Hi. unfold py_index, len in *.
  destruct (Z.ltb_spec i 0).
  - destruct (Z.ltb_spec (Z.of_nat (length l) + i) 0); [done|lia].
  - destruct (Z.ltb_spec i 0); [lia|].
    rewrite lookup_ge_None_2; [done|lia].
Qed.

Lemma dict_of_indices_loop_Raise (names : list (list Z)) (l : list Z)
    (d : list (list Z * Z)) :
  Exists (fun i => i < - len names \/ len names <= i) l ->
  for_each (fun i d => name ← py_index names i; OK (dict_set d name i)) l d
  = Raise IndexError.
Proof.
  revert d. induction l as [|i l IH]; intros d Hex; [by apply Exists_nil in Hex|].
  cbn [for_each].
  destruct (decide (i < - len names \/ len names <= i)) as [Hbad|Hgood].
  - by rewrite (py_index_out_of_range names i Hbad).
  - destruct (py_index_in_range names i) as [name ->]; [lia|].
    rewrite !bind_ret. apply IH. by apply Exists_cons in Hex as [?|?].
Qed.

Lemma dict_of_indices_loop_total (names : list (list Z)) (l : list Z)
    (d : list (list Z * Z)) :
  Forall (fun i => - len names <= i < len names) l ->
  exists d', for_each (fun i d => name ← py_index names i; OK (dict_set d name i)) l d
             = OK d'.
Proof.
  intros Hall. revert d. induction Hall as [|i l Hi _ IH]; intros d; [by exists d|].
  cbn [for_each]. destruct (py_index_in_range names i Hi) as [name ->].
  rewrite !bind_ret. apply IH.
Qed.

(** X10. A channel outside of -3 .. 2 or a bit position outside of -8 .. 7
    makes [build_object] raise [IndexError]: no configuration is built for
    a place that the tables of names do not have. *)
Theorem build_object_out_of_range (key : Z) (method : list Z) (noise : bool)
    (colours indexs : option (list Z)) :
  Exists (fun c => c < -3 \/ 3 <= c) (default [0; 1; 2] colours)
  \/ Exists (fun i => i < -8 \/ 8 <= i) (default [6; 7] indexs) ->
  build_object key method noise colours indexs = Raise IndexError.
Proof.
  intros Hbad. unfold build_object, dict_of_indices.
  destruct (decide (Exists (fun c => c < -3 \/ 3 <= c) (default [0; 1; 2] colours)))
    as [Hc|Hc].
  - by rewrite (dict_of_indices_loop_Raise colour_list _ [] Hc).
  - destruct Hbad as [?|Hi]; [done|].
    destruct (dict_of_indices_loop_total colour_list (default [0; 1; 2] colours) [])
      as [cs ->].
    { apply not_Exists_Forall in Hc; [|intros c; apply _].
      eapply Forall_impl; [exact Hc|]. intros c Hcc. simpl in *.
      change (len colour_list) with 3. lia. }
    rewrite bind_ret.
    by rewrite (dict_of_indices_loop_Raise index_list _ [] Hi).
Qed.

Lemma build_object_out_of_range_witness :
  build_object 5 (lit "all") false (Some [0; 3]) None = Raise IndexError.
Proof.
  apply build_object_out_of_range. left. simpl.
  apply Exists_cons_tl, Exists_cons_hd. lia.
Defined.

Lemma dict_set_for (names : list (list Z)) (d : list (list Z * Z)) (i : Z)
    (name : list Z) :
  NoDup names -> dict_for names d ->
  0 <= i -> names !! Z.to_nat i = Some name ->
  dict_for names (dict_set d name i)
  /\ forall c, c ∈ values (dict_set d name i) <-> c ∈ values d \/ c = i.
Proof.
  intros Hnames [Hd Hnd] Hi Hname. induction d as [|[k' v'] d IH].
  - simpl. split; [split|].
    + by apply Forall_singleton.
    + apply NoDup_singleton.
    + intros c. rewrite list_elem_of_singleton, elem_of_nil. tauto.
  - apply Forall_cons in Hd as [[Hv' Hk'] Hd]. simpl in Hv', Hk'.
    unfold values in Hnd. simpl in Hnd. apply NoDup_cons in Hnd as [Hfresh Hnd].
    cbn [dict_set]. case_bool_decide as Hk.
    + subst k'.
      assert (v' = i) as ->.
      { pose proof (NoDup_lookup names _ _ name Hnames Hk' Hname). lia. }
      split; [split|].
      * apply Forall_cons. by split.
      * unfold values. simpl. by apply NoDup_cons.
      * intros c. unfold values. simpl. rewrite elem_of_cons. tauto.
    + destruct (IH Hd Hnd) as [[Hd' Hnd'] Hin].
      assert (v' <> i) as Hne by (intros ->; congruence).
      split; [split|].
      * apply Forall_cons. by split.
      * unfold values in *. simpl. apply NoDup_cons. split; [|done].
        rewrite Hin. tauto.
      * intros c. unfold values in *. simpl. rewrite !elem_of_cons, Hin. tauto.
Qed.

Lemma dict_of_indices_loop_for (names : list (list Z)) (l : list Z)
    (d : list (list Z * Z)) :
  NoDup names -> dict_for names d ->
  Forall (fun i => 0 <= i < len names) l ->
  exists d',
    for_each (fun i d => name ← py_index names i; OK (dict_set d name i)) l d = OK d'
    /\ dict_for names d'
    /\ forall c, c ∈ values d' <-> c ∈ values d \/ c ∈ l.
Proof.
  intros Hnames Hd Hall. revert d Hd.
  induction Hall as [|i l Hi _ IH]; intros d Hd.
  - exists d. split_and!; [done|done|]. intros c. rewrite elem_of_nil. tauto.
  - destruct (lookup_lt_is_Some_2 names (Z.to_nat i)) as [name Hname];
      [unfold len in Hi; lia|].
    destruct (dict_set_for names d i name) as [Hd1 Hin1]; [done|done|lia|done|].
    destruct (IH _ Hd1) as (d' & Hloop & Hd' & Hin).
    exists d'. split_and!; [|done|].
    + cbn [for_each].
      rewrite (proj2 (py_index_OK names i name ltac:(lia)) Hname), !bind_ret. done.
    + intros c. rewrite Hin, Hin1, elem_of_cons. tauto.
Qed.

Lemma bitmap_ext (n : Z) (l k : list Z) :
  (forall c, c ∈ l <-> c ∈ k) -> bitmap n l = bitmap n k.
Proof.
  intros H. unfold bitmap. apply map_ext. intros c. unfold presence.
  by rewrite (bool_decide_ext _ _ (H c)).
Qed.

Lemma generate_header_bitmap (cfg : Configuration) :
  Forall (fun c => 0 <= c < 3) (values (COLOURS cfg)) ->
  Forall (fun i => 0 <= i < 8) (values (INDEXS cfg)) ->
  generate_header cfg
  = OK ([if bool_decide (METHOD cfg = lit "random") then c1 else c0]
        ++ bitmap 3 (values (COLOURS cfg)) ++ bitmap 8 (values (INDEXS cfg))).
Proof.
  intros Hc Hi. unfold generate_header.
  pose proof (mark_table_bitmap 3 (values (COLOURS cfg)) [] Hc) as H3.
  pose proof (mark_table_bitmap 8 (values (INDEXS cfg)) [] Hi) as H8.
  simpl in H3, H8. rewrite !presence_nil in H3. rewrite !presence_nil in H8.
  change (replicate 3 (lit "0")) with [[c0]; [c0]; [c0]].
  change (replicate 8 (lit "0"))
    with [[c0]; [c0]; [c0]; [c0]; [c0]; [c0]; [c0]; [c0]].
  rewrite H3. simpl. rewrite H8. simpl.
  by destruct (bool_decide _).
Qed.

Lemma build_object_OK (key : Z) (method : list Z) (noise : bool)
    (colours indexs : option (list Z)) :
  Forall (fun c => 0 <= c < 3) (default [0; 1; 2] colours) ->
  Forall (fun i => 0 <= i < 8) (default [6; 7] indexs) ->
  exists cs ixs,
    build_object key method noise colours indexs
    = OK (mkConfiguration cs ixs
            (if bool_decide (method = lit "all")
             then len (default [0; 1; 2] colours) * len (default [6; 7] indexs)
             else len (default [6; 7] indexs))
            method noise key)
    /\ NoDup (values cs) /\ NoDup (values ixs)
    /\ (forall c, c ∈ values cs <-> c ∈ default [0; 1; 2] colours)
    /\ (forall i, i ∈ values ixs <-> i ∈ default [6; 7] indexs).
Proof.
  intros Hc Hi. unfold build_object, dict_of_indices.
  assert (dict_for colour_list []) as Hc0 by (split; [done|apply NoDup_nil_2]).
  assert (dict_for index_list []) as Hi0 by (split; [done|apply NoDup_nil_2]).
  assert (NoDup colour_list) as Hcn by (apply (bool_decide_unpack _); by vm_compute).
  assert (NoDup index_list) as Hin by (apply (bool_decide_unpack _); by vm_compute).
  destruct (dict_of_indices_loop_for colour_list _ [] Hcn Hc0 Hc)
    as (cs & -> & [_ Hcs] & Hcin).
  destruct (dict_of_indices_loop_for index_list _ [] Hin Hi0 Hi)
    as (ixs & -> & [_ Hixs] & Hiin).
  exists cs, ixs. split_and!; try done.
  - intros c. rewrite Hcin. change (values []) with (@nil Z). rewrite elem_of_nil. tauto.
  - intros c. rewrite Hiin. change (values []) with (@nil Z). rewrite elem_of_nil. tauto.
Qed.

(** X11. For channels within 0 .. 2 and bit positions within 0 .. 7, given
    or left to their defaults, [build_object] returns a configuration that
    lists every given channel and every given position once, and the header
    that [generate_header] makes of it flags exactly the channels and
    positions given, however often and in whatever order they were given. *)
Theorem build_object_header (key : Z) (method : list Z) (noise : bool)
    (colours indexs : option (list Z)) :
  Forall (fun c => 0 <= c < 3) (default [0; 1; 2] colours) ->
  Forall (fun i => 0 <= i < 8) (default [6; 7] indexs) ->
  exists cfg,
    build_object key method noise colours indexs = OK cfg
    /\ METHOD cfg = method /\ NOISE cfg = noise /\ KEY cfg = key
    /\ NoDup (values (COLOURS cfg)) /\ NoDup (values (INDEXS cfg))
    /\ (forall c, c ∈ values (COLOURS cfg) <-> c ∈ default [0; 1; 2] colours)
    /\ (forall i, i ∈ values (INDEXS cfg) <-> i ∈ default [6; 7] indexs)
    /\ generate_header cfg
       = OK ([if bool_decide (method = lit "random") then c1 else c0]
             ++ bitmap 3 (default [0; 1; 2] colours)
             ++ bitmap 8 (default [6; 7] indexs)).
Proof.
  intros Hc Hi.
  destruct (build_object_OK key method noise colours indexs Hc Hi)
    as (cs & ixs & -> & Hcs & Hixs & Hcin & Hiin).
  eexists. split; [done|]. cbn [METHOD NOISE KEY COLOURS INDEXS].
  split_and!; try done.
  rewrite generate_header_bitmap; cbn [METHOD COLOURS INDEXS].
  - by rewrite (bitmap_ext 3 _ _ Hcin), (bitmap_ext 8 _ _ Hiin).
  - apply Forall_forall. intros c Hcc. apply Hcin in Hcc.
    by apply (proj1 (Forall_forall _ _) Hc).
  - apply Forall_forall. intros c Hcc. apply Hiin in Hcc.
    by apply (proj1 (Forall_forall _ _) Hi).
Qed.

Lemma build_object_header_witness :
  exists cfg,
    build_object 5 (lit "all") false (Some [2; 0; 2]) (Some [7]) = OK cfg
    /\ values (COLOURS cfg) = [2; 0]
    /\ generate_header cfg = OK (lit "010100000001").
Proof.
  destruct (build_object_header 5 (lit "all") false (Some [2; 0; 2]) (Some [7]))
    as (cfg & Hcfg & _ & _ & _ & _ & _ & _ & _ & Hheader).
  - repeat (apply Forall_cons_2; [simpl; lia|]). apply Forall_nil_2.
  - repeat (apply Forall_cons_2; [simpl; lia|]). apply Forall_nil_2.
  - exists cfg. split; [exact Hcfg|]. split; [|exact Hheader].
    vm_compute in Hcfg. by injection Hcfg as <-.
Defined.

(** ** What the header embedder writes *)

Lemma header_write_all :
  forallb (fun v => header_write_ok v c0 && header_write_ok v c1) (py_range 256) = true.
Proof. vm_compute. reflexivity. Qed.

Lemma header_write (v b : Z) :
  0 <= v < 256 -> is_bit b ->
  integer_conversion_integer (slice_to (integer_conversion_binary v) (-1) ++ [b])
  = OK (write_bit v 7 b)
  /\ 0 <= write_bit v 7 b < 256.
Proof.
  intros Hv Hb.
  pose proof header_write_all as Hall. rewrite forallb_forall in Hall.
  specialize (Hall v). rewrite <- list_elem_of_In, elem_of_py_range in Hall.
  specialize (Hall Hv). apply andb_prop in Hall as [H0 H1].
  assert (header_write_ok v b = true) as Hok by (by destruct Hb as [-> | ->]).
  unfold header_write_ok in Hok.
  destruct (integer_conversion_integer _) as [v'|]; [|done].
  apply andb_prop in Hok as [Hok Hlt]. apply andb_prop in Hok as [Heq Hle].
  apply Z.eqb_eq in Heq as <-. split; [done|]. lia.
Qed.

Lemma concat_singletons {A} (l : list A) : concat (map (fun c => [c]) l) = l.
Proof. induction l; simpl; congruence. Qed.

(** One round of the loop of [attach_header]. *)
Lemma write_header_bit_OK (colours header : list Z) (coords : list (Z * Z)) (i : nat)
    (x y c b v : Z) (p : list Z) (img : Image) :
  image_data img !! (x, y) = Some p ->
  colours !! i = Some c ->
  0 <= c ->
  p !! Z.to_nat c = Some v ->
  0 <= v < 256 ->
  header !! i = Some b ->
  is_bit b ->
  coords !! i = Some (x, y) ->
  write_header_bit colours header coords (Z.of_nat i) (x, y) img
  = OK (image_with_bit img x y c 7 b p v).
Proof.
  intros Hp Hcol Hc Hv Hbyte Hb Hbit Hxy.
  unfold write_header_bit, getpixel. cbn [fst snd]. rewrite Hp, bind_ret. cbv beta.
  rewrite (py_index_nat colours), Hcol, bind_ret. cbv beta.
  run_with (proj2 (py_index_OK p c v Hc) Hv).
  rewrite (py_index_nat header), Hb, bind_ret. cbv beta.
  run_with (proj1 (header_write v b Hbyte Hbit)).
  rewrite <- (Z2Nat.id c) at 1 by done.
  rewrite py_setitem_nat by (by eapply lookup_lt_Some).
  rewrite bind_ret. cbv beta.
  rewrite (py_index_nat coords), Hxy, bind_ret. cbv beta. simpl.
  unfold putpixel. by rewrite Hp.
Qed.

Lemma attach_header_loop (colours header : list Z) (coords : list (Z * Z)) (m : nat) :
  bitstring header ->
  Forall (fun c => 0 <= c < 3) colours ->
  forall (l : list (Z * Z)) (i : nat) (img : Image),
    drop i (take m coords) = l ->
    NoDup l ->
    (i + length l <= length colours)%nat ->
    (i + length l <= length header)%nat ->
    byte_image img ->
    (forall xy, xy ∈ l -> exists p, image_data img !! xy = Some p /\ 3 <= len p) ->
    exists img',
      for_enumerate (write_header_bit colours header coords) (Z.of_nat i) l img = OK img'
      /\ byte_image img'
      /\ same_outside l img img'
      /\ (forall xy p, image_data img !! xy = Some p ->
            exists p', image_data img' !! xy = Some p' /\ length p' = length p)
      /\ (forall (k : nat) xy c b p,
            l !! k = Some xy -> colours !! (i + k)%nat = Some c ->
            header !! (i + k)%nat = Some b -> image_data img !! xy = Some p ->
            exists v, p !! Z.to_nat c = Some v
                      /\ image_data img' !! xy
                         = Some (<[Z.to_nat c := write_bit v 7 b]> p)).
Proof.
  intros Hheader Hcolours l.
  induction l as [|[x y] l IH]; intros i img Hdrop Hnd Hlc Hlh Hbytes Hpix.
  { exists img. split_and!; try done. intros xy p Hp. by exists p. }
  apply NoDup_cons in Hnd as [Hfresh Hnd]. simpl in Hlc, Hlh.
  destruct (Hpix (x, y)) as (p & Hp & Hlen); [by left|].
  destruct (lookup_lt_is_Some_2 colours i) as [c Hc]; [lia|].
  destruct (lookup_lt_is_Some_2 header i) as [b Hb]; [lia|].
  pose proof (Forall_lookup_1 _ _ _ _ Hcolours Hc) as Hcr. simpl in Hcr.
  pose proof (Forall_lookup_1 _ _ _ _ Hheader Hb) as Hbit.
  destruct (lookup_lt_is_Some_2 p (Z.to_nat c)) as [v Hv]; [unfold len in Hlen; lia|].
  pose proof (Forall_lookup_1 _ _ _ _ (Hbytes _ _ Hp) Hv) as Hbyte. simpl in Hbyte.
  assert (take m coords !! i = Some (x, y)) as Hhc.
  { rewrite <- (Nat.add_0_r i), <- lookup_drop, Hdrop. done. }
  assert (coords !! i = Some (x, y)) as Hxy.
  { apply lookup_take_Some in Hhc. tauto. }
  destruct (header_write v b Hbyte Hbit) as [_ Hrange].
  destruct (IH (S i) (image_with_bit img x y c 7 b p v))
    as (img' & Hloop & Hbytes' & Hsame & Hshape & Hset).
  { pose proof (drop_S _ _ _ Hhc) as Hd. rewrite Hdrop in Hd. congruence. }
  { done. }
  { lia. }
  { lia. }
  { by apply image_with_bit_bytes. }
  { intros xy Hin. destruct (Hpix xy) as (q & Hq & Hql); [by right|].
    exists q. split; [|done].
    rewrite image_with_bit_pixel; [done|]. intros ->. done. }
  exists img'. split_and!.
  - cbn [for_enumerate].
    rewrite (write_header_bit_OK colours header coords i x y c b v p img)
      by (done || lia).
    rewrite bind_ret. cbv beta.
    by replace (Z.of_nat i + 1) with (Z.of_nat (S i)) by lia.
  - done.
  - intros xy Hxyl. rewrite Hsame.
    + apply image_with_bit_pixel. intros ->. apply Hxyl. by left.
    + intros Hin. apply Hxyl. by right.
  - intros xy q Hq.
    destruct (decide (xy = (x, y))) as [->|Hne].
    + assert (q = p) as -> by congruence.
      destruct (Hshape (x, y) (<[Z.to_nat c := write_bit v 7 b]> p)) as (p' & Hp' & Hl).
      { simpl. apply lookup_insert_eq. }
      exists p'. split; [done|]. by rewrite Hl, length_insert.
    + apply Hshape. by rewrite image_with_bit_pixel.
  - intros k xy c' b' q Hk Hc' Hb' Hq. destruct k as [|k].
    + injection Hk as <-. rewrite Nat.add_0_r in Hc', Hb'.
      assert (c' = c) as -> by congruence. assert (b' = b) as -> by congruence.
      assert (q = p) as -> by congruence.
      exists v. split; [done|]. rewrite Hsame; [|done].
      simpl. apply lookup_insert_eq.
    + apply (Hset k xy c' b' q); try done.
      * by replace (S i + k)%nat with (i + S k)%nat by lia.
      * by replace (S i + k)%nat with (i + S k)%nat by lia.
      * rewrite image_with_bit_pixel; [done|]. intros ->.
        apply Hfresh. by eapply list_elem_of_lookup_2.
Qed.

Section HeaderBits.

Context {rng : Type}.
Variable seed_int : Z -> rng.
Variable draw_indices : rng -> nat -> nat -> list nat * rng.

Hypothesis draw_indices_distinct : forall g n k,
  (k <= n)%nat ->
  length (draw_indices g n k).1 = k
  /\ NoDup (draw_indices g n k).1
  /\ Forall (fun j => (j < n)%nat) (draw_indices g n k).1.

(** The channels that [attach_header] draws: one of the three for each
    character of the header. *)
Lemma header_colours (key : Z) (n : nat) :
  exists colours,
    random_sample seed_int draw_indices key [0; 1; 2] (Z.of_nat n) 1
    = OK (map (fun c => [c]) colours)
    /\ length colours = n
    /\ Forall (fun c => 0 <= c < 3) colours.
Proof.
  unfold random_sample. rewrite Nat2Z.id.
  destruct (sample_repeat_single draw_indices draw_indices_distinct (seed_int key)
              [0; 1; 2] n) as (colours & H & Hlen & Hin); [done|].
  exists colours. split_and!; [done|done|].
  eapply Forall_impl; [exact Hin|]. intros c Hc. simpl in Hc.
  repeat (apply elem_of_cons in Hc as [->|Hc]; [lia|]). by apply elem_of_nil in Hc.
Qed.

Lemma attach_header_OK (img : Image) (key : Z) (header : list Z)
    (coords : list (Z * Z)) :
  bitstring header ->
  header <> [] ->
  NoDup (take (length header - 1) coords) ->
  byte_image img ->
  (forall xy, xy ∈ take (length header - 1) coords ->
     exists p, image_data img !! xy = Some p /\ 3 <= len p) ->
  exists colours img',
    random_sample seed_int draw_indices key [0; 1; 2] (len header) 1
    = OK (map (fun c => [c]) colours)
    /\ Forall (fun c => 0 <= c < 3) colours
    /\ attach_header seed_int draw_indices img key header coords
       = OK (drop (length header) coords, img')
    /\ byte_image img'
    /\ same_outside (take (length header - 1) coords) img img'
    /\ (forall xy p, image_data img !! xy = Some p ->
          exists p', image_data img' !! xy = Some p' /\ length p' = length p)
    /\ (forall (k : nat) xy c b p,
          (k < length header - 1)%nat ->
          coords !! k = Some xy -> colours !! k = Some c -> header !! k = Some b ->
          image_data img !! xy = Some p ->
          exists v, p !! Z.to_nat c = Some v
                    /\ image_data img' !! xy
                       = Some (<[Z.to_nat c := write_bit v 7 b]> p)).
Proof.
  intros Hheader Hne Hnd Hbytes Hpix.
  destruct (header_colours key (length header)) as (colours & Hsample & Hlen & Hrange).
  change (Z.of_nat (length header)) with (len header) in Hsample.
  assert (0 < length header)%nat as Hpos by (destruct header; [done|simpl; lia]).
  destruct (attach_header_loop colours header coords (length header - 1) Hheader Hrange
              (take (length header - 1) coords) 0 img)
    as (img' & Hloop & Hbytes' & Hsame & Hshape & Hset); try done.
  { rewrite length_take. lia. }
  { rewrite length_take. lia. }
  change (Z.of_nat 0) with 0 in Hloop.
  exists colours, img'. split_and!; try done.
  - unfold attach_header. cbv zeta. run_with Hsample.
    rewrite concat_singletons.
    assert (slice_to coords (len header - 1) = take (length header - 1) coords) as ->.
    { unfold slice_to, slice_bound, len.
      destruct (Z.ltb_spec (Z.of_nat (length header) - 1) 0); [lia|].
      f_equal. lia. }
    run_with Hloop.
    unfold slice_from, slice_bound, len.
    destruct (Z.ltb_spec (Z.of_nat (length header)) 0); [lia|].
    by rewrite Nat2Z.id.
  - intros k xy c b p Hk Hxy Hc Hb Hp.
    apply (Hset k xy c b p); try done.
    rewrite lookup_take_lt; [done|lia].
Qed.

(** X12. On an image of bytes whose pixels have three channels at least,
    with a header of binary digits and coordinates that are distinct over
    the part it runs over, [attach_header] returns; for every character of
    the header but the last, the pixel at the coordinate of the same rank
    has, in the channel drawn for that rank, the same byte with its least
    significant bit set to the header bit, and its other channels as before;
    the pixels at other coordinates are as before, and the coordinates
    returned are those after the first [len(header)]. *)
Theorem attach_header_writes (img : Image) (key : Z) (header : list Z)
    (coords : list (Z * Z)) :
  bitstring header ->
  header <> [] ->
  NoDup (take (length header - 1) coords) ->
  byte_image img ->
  (forall xy, xy ∈ take (length header - 1) coords ->
     exists p, image_data img !! xy = Some p /\ 3 <= len p) ->
  exists colours img',
    random_sample seed_int draw_indices key [0; 1; 2] (len header) 1
    = OK (map (fun c => [c]) colours)
    /\ attach_header seed_int draw_indices img key header coords
       = OK (drop (length header) coords, img')
    /\ same_outside (take (length header - 1) coords) img img'
    /\ (forall (k : nat) xy c b p,
          (k < length header - 1)%nat ->
          coords !! k = Some xy -> colours !! k = Some c -> header !! k = Some b ->
          image_data img !! xy = Some p ->
          exists v, p !! Z.to_nat c = Some v
                    /\ image_data img' !! xy
                       = Some (<[Z.to_nat c := write_bit v 7 b]> p)
                    /\ read_bit img' (xy.1, xy.2, c, 7) = Some (bool_decide (b = c1))).
Proof.
  intros Hheader Hne Hnd Hbytes Hpix.
  destruct (attach_header_OK img key header coords Hheader Hne Hnd Hbytes Hpix)
    as (colours & img' & Hsample & Hrange & Hattach & _ & Hsame & _ & Hset).
  exists colours, img'. split_and!; try done.
  intros k xy c b p Hk Hxy Hc Hb Hp.
  destruct (Hset k xy c b p Hk Hxy Hc Hb Hp) as (v & Hv & Hp').
  exists v. split_and!; [done|done|].
  pose proof (Forall_lookup_1 _ _ _ _ Hrange Hc) as Hcr. simpl in Hcr.
  unfold read_bit, channel_value. cbn [fst snd].
  destruct xy as [x y]. cbn [fst snd]. rewrite Hp'. simpl.
  destruct (Z.ltb_spec c 0); [lia|].
  rewrite list_lookup_insert_eq by (by eapply lookup_lt_Some). simpl.
  rewrite byte_bit_write_bit by lia. by rewrite (bool_decide_true (7 = 7)).
Qed.

End HeaderBits.

Lemma attach_header_writes_witness :
  exists colours img',
    random_sample Toy.seed_int Toy.draw_indices 7 [0; 1; 2] (len (lit "101")) 1
    = OK (map (fun c => [c]) colours)
    /\ attach_header Toy.seed_int Toy.draw_indices (flat_image 2 2 0) 7 (lit "101")
         [(0, 0); (1, 1); (0, 1); (1, 0)] = OK ([(1, 0)], img')
    /\ image_data img' !! (0, 1) = Some [0; 0; 0].
Proof.
  destruct (attach_header_writes Toy.seed_int Toy.draw_indices toy_draw_indices_distinct
              (flat_image 2 2 0) 7 (lit "101") [(0, 0); (1, 1); (0, 1); (1, 0)])
    as (colours & img' & Hsample & Hattach & Hsame & _).
  - repeat (apply Forall_cons_2; [first [by left|by right]|]). apply Forall_nil_2.
  - done.
  - apply (bool_decide_unpack _). by vm_compute.
  - by apply flat_image_bytes.
  - intros [x y] Hxy. exists [0; 0; 0]. split; [|done].
    simpl in Hxy.
    repeat (apply elem_of_cons in Hxy as [[= -> ->]|Hxy]; [by vm_compute|]).
    by apply elem_of_nil in Hxy.
  - exists colours, img'. split; [exact Hsample|]. split; [exact Hattach|].
    rewrite Hsame; [by vm_compute|].
    simpl. intros Hin.
    repeat (apply elem_of_cons in Hin as [[=]|Hin]). by apply elem_of_nil in Hin.
Defined.

(** ** What the payload builder returns *)

Lemma binary_conversion_binary_bits (text data : list Z) :
  binary_conversion_binary text = OK data ->
  bitstring data /\ exists bytes : list Z, len data = 8 * len bytes
                                  /\ (text <> [] -> bytes <> []).
Proof.
  unfold binary_conversion_binary, utf8_encode. intros H.
  destruct (mapM utf8_encode_char text) as [bss|] eqn:Henc; [|done].
  simpl in H. injection H as <-.
  destruct (utf8_decode_encode text bss Henc) as (_ & Hbytes & Hne).
  destruct (pack_byte_bits (concat bss) Hbytes) as (Hbit & Hlen & _).
  split; [done|]. by exists (concat bss).
Qed.

Lemma end_key_len (capacity size : Z) :
  0 <= size <= capacity ->
  len (zfill (length_prefix_width capacity) (integer_conversion_binary size))
  = length_prefix_width capacity.
Proof.
  intros Hsize. unfold length_prefix_width.
  rewrite zfill_len by (apply integer_conversion_binary_bitstring; lia).
  rewrite !integer_conversion_binary_len by lia.
  pose proof (bit_length_mono size capacity). lia.
Qed.

Section MessageBits.

Context {rng : Type}.
Variable seed_str : list Z -> rng.
Variable draw_int : rng -> Z -> Z -> Z * rng.

(** X13. The message that [generate_message] returns can be read back with
    the two decoders of the program: the first characters, as many as the
    binary literal of the slot count has, read as the number of data bits,
    and that many characters after them decode to the text, when the text
    is not empty.  The noise that may follow is not read. *)
Theorem generate_message_parse (entropy : list Z) (cfg : Configuration)
    (text msg : list Z) (coords : list (Z * Z * Z * Z)) :
  text <> [] ->
  generate_message seed_str draw_int entropy cfg text coords = OK msg ->
  exists data,
    binary_conversion_binary text = OK data
    /\ integer_conversion_integer (slice_to msg (length_prefix_width (len coords)))
       = OK (len data)
    /\ binary_conversion_text
         (slice_to (slice_from msg (length_prefix_width (len coords))) (len data))
       = OK text.
Proof.
  intros Hne Hmsg.
  destruct (binary_conversion_binary text) as [data|e] eqn:Hdata;
    [|by unfold generate_message in Hmsg; rewrite Hdata in Hmsg].
  destruct (decide (len coords < length_prefix_width (len coords) + len data))
    as [Hover|Hfit].
  { by rewrite (generate_message_exceeds seed_str draw_int entropy cfg text data coords)
      in Hmsg. }
  destruct (generate_message_fits seed_str draw_int entropy cfg text data coords Hdata)
    as (noise & Hok & _); [lia|].
  rewrite Hok in Hmsg. injection Hmsg as <-.
  exists data. split; [done|].
  pose proof (len_nonneg data) as Hd. pose proof (len_nonneg coords) as Hc.
  assert (0 <= length_prefix_width (len coords)) as Hwn by apply len_nonneg.
  pose proof (end_key_len (len coords) (len data) ltac:(lia)) as Hw.
  set (end_key := zfill _ (integer_conversion_binary (len data))) in *.
  assert (length end_key = Z.to_nat (length_prefix_width (len coords))) as Hlen
    by (apply Nat2Z.inj; rewrite Z2Nat.id by lia; exact Hw).
  assert (slice_to (end_key ++ data ++ noise) (length_prefix_width (len coords)) = end_key)
    as ->.
  { unfold slice_to, slice_bound.
    destruct (Z.ltb_spec (length_prefix_width (len coords)) 0); [lia|].
    by rewrite <- Hlen, take_app_length. }
  assert (slice_from (end_key ++ data ++ noise) (length_prefix_width (len coords))
          = data ++ noise) as ->.
  { unfold slice_from, slice_bound.
    destruct (Z.ltb_spec (length_prefix_width (len coords)) 0); [lia|].
    by rewrite <- Hlen, drop_app_length. }
  assert (slice_to (data ++ noise) (len data) = data) as ->.
  { unfold slice_to, slice_bound.
    destruct (Z.ltb_spec (len data) 0); [lia|].
    unfold len. by rewrite Nat2Z.id, take_app_length. }
  split.
  - unfold integer_conversion_integer, end_key.
    by apply int2_zfill_integer_conversion.
  - by apply binary_conversion_roundtrip.
Qed.

Hypothesis draw_int_range : forall g a b, a <= b -> a <= (draw_int g a b).1 <= b.

Lemma randint_repeat_bits (g : rng) (n : nat) (noise : list Z) :
  randint_repeat draw_int g 0 1 n = OK noise ->
  bitstring noise /\ length noise = n.
Proof.
  revert g noise. induction n as [|n IH]; intros g noise H.
  - injection H as <-. split; [apply Forall_nil_2|done].
  - cbn [randint_repeat] in H. unfold randint in H. simpl in H.
    apply bind_OK in H as (rest & Hrest & H). injection H as <-.
    destruct (IH _ _ Hrest) as [Hbits Hlen].
    pose proof (draw_int_range g 0 1 ltac:(lia)) as Hr.
    assert ((draw_int g 0 1).1 = 0 \/ (draw_int g 0 1).1 = 1) as [-> | ->] by lia.
    + split; [apply Forall_cons_2; [by left|done]|simpl; by rewrite Hlen].
    + split; [apply Forall_cons_2; [by right|done]|simpl; by rewrite Hlen].
Qed.

Lemma generate_message_OK_inv (entropy : list Z) (cfg : Configuration)
    (text msg : list Z) (coords : list (Z * Z * Z * Z)) :
  generate_message seed_str draw_int entropy cfg text coords = OK msg ->
  exists data noise,
    binary_conversion_binary text = OK data
    /\ length_prefix_width (len coords) + len data <= len coords
    /\ msg = zfill (length_prefix_width (len coords)) (integer_conversion_binary (len data))
             ++ data ++ noise
    /\ bitstring msg
    /\ len noise = (if NOISE cfg
                    then len coords - (length_prefix_width (len coords) + len data)
                    else 0).
Proof.
  intros Hmsg.
  destruct (binary_conversion_binary text) as [data|e] eqn:Hdata;
    [|by unfold generate_message in Hmsg; rewrite Hdata in Hmsg].
  destruct (binary_conversion_binary_bits text data Hdata) as [Hdbits _].
  pose proof (len_nonneg data) as Hd. pose proof (len_nonneg coords) as Hc.
  unfold generate_message in Hmsg. rewrite Hdata, bind_ret in Hmsg.
  cbv beta zeta in Hmsg. fold (length_prefix_width (len coords)) in Hmsg.
  destruct (Z.ltb_spec (len coords) (length_prefix_width (len coords) + len data));
    [done|].
  assert (bitstring (zfill (length_prefix_width (len coords))
                       (integer_conversion_binary (len data)))) as Hkbits.
  { apply zfill_bitstring, integer_conversion_binary_bitstring. lia. }
  destruct (NOISE cfg).
  - apply bind_OK in Hmsg as (noise & Hnoise & Hmsg). injection Hmsg as <-.
    unfold generate_numbers in Hnoise.
    apply randint_repeat_bits in Hnoise as [Hnbits Hnlen].
    exists data, noise. split_and!; [done|done|done| |unfold len in *; lia].
    by repeat (apply Forall_app; split).
  - rewrite bind_ret in Hmsg. injection Hmsg as <-.
    exists data, []. split_and!; [done|done|done| |done].
    repeat (apply Forall_app; split); (done || apply Forall_nil_2).
Qed.

(** X14. The message that [generate_message] returns is made of binary
    digits and is never longer than the slots are many: with noise it has
    exactly one digit for every slot, without noise it is the length prefix
    followed by eight digits for every byte of the text. *)
Theorem generate_message_shape (entropy : list Z) (cfg : Configuration)
    (text msg : list Z) (coords : list (Z * Z * Z * Z)) :
  generate_message seed_str draw_int entropy cfg text coords = OK msg ->
  exists data,
    binary_conversion_binary text = OK data
    /\ bitstring msg
    /\ len msg <= len coords
    /\ (NOISE cfg = true -> len msg = len coords)
    /\ (NOISE cfg = false -> len msg = length_prefix_width (len coords) + len data).
Proof.
  intros Hmsg.
  destruct (generate_message_OK_inv entropy cfg text msg coords Hmsg)
    as (data & noise & Hdata & Hfit & -> & Hbits & Hnoise).
  exists data. split; [done|]. split; [done|].
  pose proof (len_nonneg data) as Hd.
  assert (0 <= length_prefix_width (len coords)) as Hwn by apply len_nonneg.
  rewrite !len_app, (end_key_len (len coords) (len data)) by lia.
  destruct (NOISE cfg); split_and!; (done || lia).
Qed.

End MessageBits.

Lemma toy_draw_int_range (g a b : Z) : a <= b -> a <= (Toy.draw_int g a b).1 <= b.
Proof. intros Hab. unfold Toy.draw_int. simpl. destruct (Z.even g); lia. Qed.

Lemma generate_message_parse_witness :
  lit "hi" <> []
  /\ generate_message Toy.seed_str Toy.draw_int (lit "e")
       (mkConfiguration [(lit "red", 0)] [(lit "8th", 7)] 1 (lit "all") true 5)
       (lit "hi") (replicate 30 (0, 0, 0, 7))
     = OK (lit "00010000" ++ lit "0110100001101001" ++ lit "101010")
  /\ integer_conversion_integer
       (slice_to (lit "00010000" ++ lit "0110100001101001" ++ lit "101010") 8) = OK 16
  /\ binary_conversion_text
       (slice_to (slice_from (lit "00010000" ++ lit "0110100001101001" ++ lit "101010") 8)
          16) = OK (lit "hi").
Proof.
  assert (lit "hi" <> []) as Hne by done.
  assert (generate_message Toy.seed_str Toy.draw_int (lit "e")
            (mkConfiguration [(lit "red", 0)] [(lit "8th", 7)] 1 (lit "all") true 5)
            (lit "hi") (replicate 30 (0, 0, 0, 7))
          = OK (lit "00010000" ++ lit "0110100001101001" ++ lit "101010")) as Hmsg
    by (vm_compute; reflexivity).
  split; [exact Hne|]. split; [exact Hmsg|].
  destruct (generate_message_parse Toy.seed_str Toy.draw_int (lit "e") _ (lit "hi") _
              (replicate 30 (0, 0, 0, 7)) Hne Hmsg) as (data & Hdata & Hkey & Htext).
  vm_compute in Hdata. injection Hdata as <-.
  split; [exact Hkey|exact Htext].
Defined.

Lemma generate_message_shape_witness :
  exists data,
    binary_conversion_binary (lit "hi") = OK data
    /\ bitstring (lit "00010000" ++ lit "0110100001101001" ++ lit "101010")
    /\ len (lit "00010000" ++ lit "0110100001101001" ++ lit "101010") = 30.
Proof.
  destruct (generate_message_shape Toy.seed_str Toy.draw_int toy_draw_int_range (lit "e")
              (mkConfiguration [(lit "red", 0)] [(lit "8th", 7)] 1 (lit "all") true 5)
              (lit "hi") (lit "00010000" ++ lit "0110100001101001" ++ lit "101010")
              (replicate 30 (0, 0, 0, 7)))
    as (data & Hdata & Hbits & _ & Hfull & _); [by vm_compute|].
  exists data. split; [exact Hdata|]. split; [exact Hbits|].
  exact (Hfull eq_refl).
Defined.

(** ** The slots that are planned *)

Lemma elem_of_all_slots (colours indexs : list Z) (coords : list (Z * Z))
    (s : Z * Z * Z * Z) :
  s ∈ all_slots colours indexs coords
  <-> (s.1.1.1, s.1.1.2) ∈ coords /\ s.1.2 ∈ colours /\ s.2 ∈ indexs.
Proof.
  unfold all_slots. rewrite list_elem_of_bind. split.
  - intros ([x y] & Hs & Hxy). apply list_elem_of_bind in Hs as (c & Hs & Hc).
    apply list_elem_of_fmap in Hs as (k & -> & Hk). done.
  - intros (Hxy & Hc & Hk). exists (s.1.1.1, s.1.1.2). split; [|done].
    apply list_elem_of_bind. exists s.1.2. split; [|done].
    apply list_elem_of_fmap. exists s.2. split; [|done].
    by destruct s as [[[x y] c] k].
Qed.

Lemma NoDup_all_slots (colours indexs : list Z) (coords : list (Z * Z)) :
  NoDup coords -> NoDup colours -> NoDup indexs ->
  NoDup (all_slots colours indexs coords).
Proof.
  intros Hxy Hc Hk. unfold all_slots. apply NoDup_bind; [| |done].
  - intros [x1 y1] [x2 y2] s _ _ H1 H2.
    apply list_elem_of_bind in H1 as (c1' & H1 & _).
    apply list_elem_of_fmap in H1 as (k1 & -> & _).
    apply list_elem_of_bind in H2 as (c2' & H2 & _).
    apply list_elem_of_fmap in H2 as (k2 & [= -> -> _ _] & _). done.
  - intros [x y] _. apply NoDup_bind; [| |done].
    + intros c1' c2' s _ _ H1 H2.
      apply list_elem_of_fmap in H1 as (k1 & -> & _).
      apply list_elem_of_fmap in H2 as (k2 & [= -> _] & _). done.
    + intros c _. apply NoDup_fmap_2; [|done]. by intros k1 k2 [= ->].
Qed.

Lemma elem_of_random_slots (picks indexs : list Z) (coords : list (Z * Z))
    (s : Z * Z * Z * Z) :
  s ∈ random_slots picks indexs coords ->
  (s.1.1.1, s.1.1.2) ∈ coords /\ s.1.2 ∈ picks /\ s.2 ∈ indexs.
Proof.
  revert picks. induction coords as [|[x y] coords IH]; intros picks Hs.
  - by apply elem_of_nil in Hs.
  - destruct picks as [|c picks]; [by apply elem_of_nil in Hs|].
    cbn [random_slots] in Hs. apply elem_of_app in Hs as [Hs|Hs].
    + apply list_elem_of_fmap in Hs as (k & -> & Hk). simpl.
      split_and!; [by left|by left|done].
    + destruct (IH _ Hs) as (Hxy & Hc & Hk). split_and!; [by right|by right|done].
Qed.

Lemma NoDup_random_slots (picks indexs : list Z) (coords : list (Z * Z)) :
  NoDup coords -> NoDup indexs -> NoDup (random_slots picks indexs coords).
Proof.
  intros Hxy Hk. revert picks. induction Hxy as [|[x y] coords Hfresh _ IH]; intros picks.
  - apply NoDup_nil_2.
  - destruct picks as [|c picks]; [apply NoDup_nil_2|].
    cbn [random_slots]. apply NoDup_app. split_and!.
    + apply NoDup_fmap_2; [|done]. by intros k1 k2 [= ->].
    + intros s Hs Hin. apply list_elem_of_fmap in Hs as (k & -> & _).
      apply elem_of_random_slots in Hin as [Hin _]. done.
    + apply IH.
Qed.

Lemma for_enumerate_app {A St} (body : Z -> A -> St -> result St) (l1 l2 : list A)
    (i : Z) (s : St) :
  for_enumerate body i (l1 ++ l2) s
  = for_enumerate body i l1 s ≫= for_enumerate body (i + len l1) l2.
Proof.
  revert i s. induction l1 as [|a l1 IH]; intros i s.
  - simpl. change (len []) with 0. by rewrite Z.add_0_r.
  - cbn [app for_enumerate]. destruct (body i a s) as [s1|e]; [|done].
    rewrite !bind_ret, IH, len_cons. by replace (i + 1 + len l1) with (i + (1 + len l1)) by lia.
Qed.

Section Slots.

Context {rng : Type}.
Variable seed_int : Z -> rng.
Variable draw_indices : rng -> nat -> nat -> list nat * rng.

Hypothesis draw_indices_distinct : forall g n k,
  (k <= n)%nat ->
  length (draw_indices g n k).1 = k
  /\ NoDup (draw_indices g n k).1
  /\ Forall (fun j => (j < n)%nat) (draw_indices g n k).1.

(** [generate_coords] returns a permutation of what it plans. *)
Lemma generate_coords_OK (cfg : Configuration) (size : Size)
    (pixel_coords : list (Z * Z)) :
  (METHOD cfg = lit "random" ->
   values (COLOURS cfg) <> [] /\ len pixel_coords <= PIXELS size) ->
  exists picks slots,
    generate_coords seed_int draw_indices cfg size pixel_coords = OK slots
    /\ Forall (fun c => c ∈ values (COLOURS cfg)) picks
    /\ slots ≡ₚ (if bool_decide (METHOD cfg = lit "random")
                 then random_slots picks (values (INDEXS cfg)) pixel_coords
                 else all_slots (values (COLOURS cfg)) (values (INDEXS cfg)) pixel_coords)
    /\ len slots = len pixel_coords * len (values (INDEXS cfg))
                   * (if bool_decide (METHOD cfg = lit "random") then 1
                      else len (values (COLOURS cfg))).
Proof.
  intros Hrandom. unfold generate_coords.
  destruct (bool_decide (METHOD cfg = lit "random")) eqn:Hm.
  - apply bool_decide_eq_true in Hm. destruct (Hrandom Hm) as [Hne Hlen].
    unfold random_sample.
    destruct (sample_repeat_single draw_indices draw_indices_distinct
                (seed_int (KEY cfg)) (values (COLOURS cfg))
                (Z.to_nat (PIXELS size)) Hne) as (picks & Hpicks & Hn & Hin).
    destruct (shuffle_permutation seed_int draw_indices draw_indices_distinct (KEY cfg)
                (random_slots picks (values (INDEXS cfg)) pixel_coords))
      as (slots & Hs & Hperm).
    exists picks, slots.
    run_with Hpicks.
    pose proof (plan_random (values (INDEXS cfg)) picks (values (COLOURS cfg))
                  pixel_coords 0 []) as Hplan.
    change (Z.of_nat 0) with 0 in Hplan.
    run_with Hplan; [|unfold len in Hlen; simpl; lia].
    rewrite drop_0, app_nil_l.
    split_and!; try done.
    unfold len at 1. rewrite Hperm. fold (len (random_slots picks (values (INDEXS cfg)) pixel_coords)).
    rewrite random_slots_length by (unfold len in Hlen; lia). lia.
  - destruct (shuffle_permutation seed_int draw_indices draw_indices_distinct (KEY cfg)
                (all_slots (values (COLOURS cfg)) (values (INDEXS cfg)) pixel_coords))
      as (slots & Hs & Hperm).
    exists [], slots.
    rewrite bind_ret. cbv beta.
    run_with (plan_all (values (COLOURS cfg)) (values (INDEXS cfg)) []
                pixel_coords 0 []).
    rewrite app_nil_l.
    split_and!; try done.
    unfold len at 1. rewrite Hperm.
    fold (len (all_slots (values (COLOURS cfg)) (values (INDEXS cfg)) pixel_coords)).
    rewrite all_slots_length. lia.
Qed.

(** X15. For distinct coordinates, and a configuration that lists no
    channel and no bit position twice (with the method "random", one
    channel at least and no more coordinates than [Size.PIXELS]),
    [generate_coords] plans no slot twice, and every slot it plans is at
    one of the coordinates, in one of the selected channels, at one of the
    selected bit positions: two message bits never go to the same bit of
    the image. *)
Theorem generate_coords_distinct (cfg : Configuration) (size : Size)
    (pixel_coords : list (Z * Z)) :
  NoDup pixel_coords ->
  NoDup (values (COLOURS cfg)) ->
  NoDup (values (INDEXS cfg)) ->
  (METHOD cfg = lit "random" ->
   values (COLOURS cfg) <> [] /\ len pixel_coords <= PIXELS size) ->
  exists slots,
    generate_coords seed_int draw_indices cfg size pixel_coords = OK slots
    /\ NoDup slots
    /\ forall s, s ∈ slots ->
         (s.1.1.1, s.1.1.2) ∈ pixel_coords
         /\ s.1.2 ∈ values (COLOURS cfg)
         /\ s.2 ∈ values (INDEXS cfg).
Proof.
  intros Hxy Hc Hk Hrandom.
  destruct (generate_coords_OK cfg size pixel_coords Hrandom)
    as (picks & slots & Hgen & Hpicks & Hperm & _).
  exists slots. split; [done|].
  destruct (bool_decide (METHOD cfg = lit "random")).
  - split.
    + rewrite Hperm. by apply NoDup_random_slots.
    + intros s Hs. rewrite Hperm in Hs.
      apply elem_of_random_slots in Hs as (? & Hc' & ?). split_and!; [done| |done].
      by apply (proj1 (Forall_forall _ _) Hpicks).
  - split.
    + rewrite Hperm. by apply NoDup_all_slots.
    + intros s Hs. rewrite Hperm in Hs. by apply elem_of_all_slots in Hs.
Qed.

(** X16. With the method "random" and no channel selected,
    [generate_coords] raises the [ValueError] of [sample] as soon as the
    image has a pixel: there is no channel to draw. *)
Theorem generate_coords_no_channel (cfg : Configuration) (size : Size)
    (pixel_coords : list (Z * Z)) :
  METHOD cfg = lit "random" ->
  values (COLOURS cfg) = [] ->
  1 <= PIXELS size ->
  generate_coords seed_int draw_indices cfg size pixel_coords = Raise sample_error.
Proof.
  intros Hm Hc Hp. unfold generate_coords, random_sample.
  rewrite bool_decide_true by done. rewrite Hc.
  destruct (Z.to_nat (PIXELS size)) as [|n] eqn:Hn; [lia|]. done.
Qed.

(** X17. With the method "random", [generate_coords] raises [IndexError]
    when it is given more coordinates than [Size.PIXELS]: it draws one
    channel for every pixel of the image and finds none for the coordinate
    after the last. *)
Theorem generate_coords_too_many (cfg : Configuration) (size : Size)
    (pixel_coords : list (Z * Z)) :
  METHOD cfg = lit "random" ->
  values (COLOURS cfg) <> [] ->
  0 <= PIXELS size < len pixel_coords ->
  generate_coords seed_int draw_indices cfg size pixel_coords = Raise IndexError.
Proof.
  intros Hm Hne Hlen. unfold generate_coords, random_sample.
  rewrite bool_decide_true by done.
  destruct (sample_repeat_single draw_indices draw_indices_distinct
              (seed_int (KEY cfg)) (values (COLOURS cfg))
              (Z.to_nat (PIXELS size)) Hne) as (picks & Hpicks & Hn & Hin).
  run_with Hpicks.
  rewrite <- (take_drop (Z.to_nat (PIXELS size)) pixel_coords).
  rewrite for_enumerate_app.
  pose proof (plan_random (values (INDEXS cfg)) picks (values (COLOURS cfg))
                (take (Z.to_nat (PIXELS size)) pixel_coords) 0 []) as Hplan.
  change (Z.of_nat 0) with 0 in Hplan.
  run_with Hplan; [|rewrite length_take; unfold len in Hlen; simpl; lia].
  destruct (drop (Z.to_nat (PIXELS size)) pixel_coords) as [|xy rest] eqn:Hdrop.
  { apply (f_equal length) in Hdrop. rewrite length_drop in Hdrop.
    unfold len in Hlen. simpl in Hdrop. lia. }
  cbn [for_enumerate].
  rewrite py_index_out_of_range; [done|].
  right. unfold len in *. rewrite length_map, length_take. lia.
Qed.

End Slots.

Lemma generate_coords_distinct_witness :
  exists slots,
    generate_coords Toy.seed_int Toy.draw_indices default_cfg (mkSize 6 6 36)
      [(0, 0); (0, 1); (3, 2)] = OK slots
    /\ NoDup slots.
Proof.
  destruct (generate_coords_distinct Toy.seed_int Toy.draw_indices
              toy_draw_indices_distinct default_cfg (mkSize 6 6 36)
              [(0, 0); (0, 1); (3, 2)]) as (slots & Hgen & Hnd & _).
  - apply (bool_decide_unpack _). by vm_compute.
  - apply (bool_decide_unpack _). by vm_compute.
  - apply (bool_decide_unpack _). by vm_compute.
  - intros _. split; [done|]. unfold len. simpl. lia.
  - exists slots. split; [exact Hgen|exact Hnd].
Defined.

Lemma generate_coords_no_channel_witness :
  generate_coords Toy.seed_int Toy.draw_indices
    (mkConfiguration [] [(lit "8th", 7)] 1 (lit "random") false 5) (mkSize 6 6 36)
    [(0, 0)] = Raise sample_error.
Proof.
  apply (generate_coords_no_channel Toy.seed_int Toy.draw_indices); [done|done|].
  simpl. lia.
Defined.

Lemma generate_coords_too_many_witness :
  generate_coords Toy.seed_int Toy.draw_indices default_cfg (mkSize 1 2 2)
    [(0, 0); (0, 1); (0, 0)] = Raise IndexError.
Proof.
  apply (generate_coords_too_many Toy.seed_int Toy.draw_indices toy_draw_indices_distinct);
    [done|done|].
  unfold len. simpl. lia.
Defined.

(** ** What the data writer leaves in the image *)

Lemma attach_data_OK (img : Image) (cfg : Configuration) (msg : list Z)
    (coords : list (Z * Z * Z * Z)) :
  byte_image img ->
  Forall (slot_in_image img) (written_slots cfg msg coords) ->
  bitstring msg ->
  (NOISE cfg = true -> len coords <= len msg) ->
  exists img',
    attach_data img cfg msg coords = OK img'
    /\ (forall xy, (forall c k, (xy.1, xy.2, c, k) ∉ written_slots cfg msg coords) ->
                   image_data img' !! xy = image_data img !! xy)
    /\ (forall s, s ∉ written_slots cfg msg coords -> read_bit img' s = read_bit img s)
    /\ (forall (k : nat) s b,
          written_slots cfg msg coords !! k = Some s -> msg !! k = Some b ->
          (forall j : nat, (k < j)%nat -> written_slots cfg msg coords !! j <> Some s) ->
          read_bit img' s = Some (bool_decide (b = c1))).
Proof.
  intros Hbytes Hslots Hmsg Hnoise.
  destruct (attach_data_loop msg (written_slots cfg msg coords) Hmsg
              (written_slots cfg msg coords) 0 img)
    as (img' & Hloop & Hpix & Hch & Hbits & Hset); try done.
  { unfold written_slots, slice_to, slice_bound, len in *.
    destruct (NOISE cfg); simpl.
    - specialize (Hnoise eq_refl). lia.
    - destruct (Z.ltb_spec (Z.of_nat (length msg)) 0); [lia|].
      rewrite length_take. lia. }
  exists img'. split_and!; try done.
Qed.

(** X18. On an image of bytes whose pixels have three channels or more,
    with slots that address bits of the image, none given twice, and a
    message of binary digits that has a digit for every slot written,
    [attach_data] returns, and every bit that it writes can be read back:
    after the run, the bit of the image that the slot of rank [k] addresses
    is the message bit of rank [k]. *)
Theorem attach_data_reads_back (img : Image) (cfg : Configuration) (msg : list Z)
    (coords : list (Z * Z * Z * Z)) :
  byte_image img ->
  (forall xy p, image_data img !! xy = Some p -> 3 <= len p) ->
  Forall (slot_in_image img) (written_slots cfg msg coords) ->
  bitstring msg ->
  (NOISE cfg = true -> len coords <= len msg) ->
  NoDup (written_slots cfg msg coords) ->
  exists img',
    attach_data img cfg msg coords = OK img'
    /\ forall (k : nat) s b,
         written_slots cfg msg coords !! k = Some s -> msg !! k = Some b ->
         read_bit img' s = Some (bool_decide (b = c1)).
Proof.
  intros Hbytes _ Hslots Hmsg Hnoise Hnd.
  destruct (attach_data_OK img cfg msg coords Hbytes Hslots Hmsg Hnoise)
    as (img' & Hattach & _ & _ & Hset).
  exists img'. split; [done|]. intros k s b Hk Hb.
  apply (Hset k s b Hk Hb). intros j Hj Hjs.
  pose proof (NoDup_lookup _ _ _ _ Hnd Hk Hjs). lia.
Qed.

Lemma attach_data_reads_back_witness :
  exists img',
    attach_data (flat_image 2 2 0) default_cfg (lit "10")
      [(0, 0, 1, 7); (0, 0, 1, 6); (1, 1, 2, 0)] = OK img'
    /\ read_bit img' (0, 0, 1, 7) = Some true
    /\ read_bit img' (0, 0, 1, 6) = Some false.
Proof.
  assert (byte_image (flat_image 2 2 0)) as Hbytes by (by apply flat_image_bytes).
  assert (Forall (slot_in_image (flat_image 2 2 0))
            (written_slots default_cfg (lit "10")
               [(0, 0, 1, 7); (0, 0, 1, 6); (1, 1, 2, 0)])) as Hslots.
  { repeat (apply Forall_cons_2;
            [exists [0; 0; 0]; split_and!; (reflexivity || (vm_compute; done))|]).
    apply Forall_nil_2. }
  assert (bitstring (lit "10")) as Hmsg.
  { repeat (apply Forall_cons_2; [first [by left|by right]|]). apply Forall_nil_2. }
  destruct (attach_data_reads_back (flat_image 2 2 0) default_cfg (lit "10")
              [(0, 0, 1, 7); (0, 0, 1, 6); (1, 1, 2, 0)] Hbytes
              (flat_image_channels 2 2 0) Hslots Hmsg)
    as (img' & Hattach & Hread); [done|apply (bool_decide_unpack _); by vm_compute|].
  exists img'. split; [exact Hattach|]. split.
  - exact (Hread 0%nat (0, 0, 1, 7) 49 eq_refl eq_refl).
  - exact (Hread 1%nat (0, 0, 1, 6) 48 eq_refl eq_refl).
Defined.

(** The loop of [attach_data] when the message ends before the slots. *)
Lemma attach_data_loop_short (msg : list Z) (written : list (Z * Z * Z * Z)) :
  bitstring msg ->
  forall (l : list (Z * Z * Z * Z)) (i : nat) (img : Image),
    drop i written = l ->
    (i <= length msg < i + length l)%nat ->
    byte_image img ->
    Forall (slot_in_image img) l ->
    for_enumerate (write_data_bit msg written) (Z.of_nat i) l img = Raise IndexError.
Proof.
  intros Hmsg l. induction l as [|a l IH]; intros i img Hdrop Hlen Hbytes Hslots.
  { simpl in Hlen. lia. }
  apply Forall_cons in Hslots as [Ha Hslots].
  destruct a as [[[x y] colour] index].
  destruct Ha as (p & Hp & Hcol & Hidx). simpl in Hp, Hcol, Hidx.
  destruct (lookup_lt_is_Some_2 p (Z.to_nat colour)) as [v Hv];
    [unfold len in Hcol; lia|].
  assert (0 <= v < 256) as Hbyte.
  { exact (Forall_lookup_1 _ _ _ _ (Hbytes _ _ Hp) Hv). }
  assert (written !! i = Some (x, y, colour, index)) as Hw.
  { rewrite <- (Nat.add_0_r i), <- lookup_drop, Hdrop. done. }
  destruct (decide (i = length msg)) as [->|Hi].
  - cbn [for_enumerate]. unfold write_data_bit, getpixel.
    rewrite Hp, bind_ret. cbv beta.
    run_with (proj2 (py_index_OK p colour v ltac:(lia)) Hv).
    rewrite (py_index_nat msg), lookup_ge_None_2 by lia. done.
  - destruct (lookup_lt_is_Some_2 msg i) as [b Hb]; [lia|].
    assert (is_bit b) as Hbit by exact (Forall_lookup_1 _ _ _ _ Hmsg Hb).
    destruct (byte_write v index b Hbyte Hidx Hbit) as [_ Hrange].
    cbn [for_enumerate].
    rewrite (write_data_bit_OK msg written i x y colour index b v p img) by (done || lia).
    rewrite bind_ret. cbv beta.
    replace (Z.of_nat i + 1) with (Z.of_nat (S i)) by lia.
    apply IH.
    + pose proof (drop_S _ _ _ Hw) as Hd. rewrite Hdrop in Hd. congruence.
    + simpl in Hlen. lia.
    + by apply image_with_bit_bytes.
    + eapply Forall_impl; [exact Hslots|]. intros s. by apply image_with_bit_slot.
Qed.

(** X19. With noise on, [attach_data] runs over all the slots and raises
    [IndexError] when the message has fewer characters than there are
    slots: it asks the message for a character it does not have.  This is
    for an image of bytes whose pixels have three channels or more, slots
    that address bits of the image, and a message of binary digits. *)
Theorem attach_data_short_message (img : Image) (cfg : Configuration) (msg : list Z)
    (coords : list (Z * Z * Z * Z)) :
  NOISE cfg = true ->
  len msg < len coords ->
  byte_image img ->
  (forall xy p, image_data img !! xy = Some p -> 3 <= len p) ->
  Forall (slot_in_image img) coords ->
  bitstring msg ->
  attach_data img cfg msg coords = Raise IndexError.
Proof.
  intros Hnoise Hlen Hbytes _ Hslots Hmsg. unfold attach_data. rewrite Hnoise. simpl.
  apply (attach_data_loop_short msg coords Hmsg coords 0 img); try done.
  unfold len in Hlen. lia.
Qed.

Lemma attach_data_short_message_witness :
  attach_data (flat_image 2 2 0)
    (mkConfiguration [(lit "red", 0)] [(lit "8th", 7)] 1 (lit "all") true 5)
    (lit "1") [(0, 0, 0, 7); (1, 1, 0, 7)] = Raise IndexError.
Proof.
  apply attach_data_short_message.
  - done.
  - unfold len. simpl. lia.
  - by apply flat_image_bytes.
  - apply flat_image_channels.
  - repeat (apply Forall_cons_2;
            [exists [0; 0; 0]; split_and!; (reflexivity || (vm_compute; done))|]).
    apply Forall_nil_2.
  - apply Forall_singleton. by right.
Defined.

(** ** What insertion leaves of the image *)

#[local] Instance frame_refl region : Reflexive (frame region).
Proof. by intros img; split. Qed.

#[local] Instance frame_trans region : Transitive (frame region).
Proof.
  intros img1 img2 img3 [Hs12 H12] [Hs23 H23]. split; [congruence|].
  intros xy Hxy. by rewrite (H23 xy Hxy), (H12 xy Hxy).
Qed.

Lemma frame_mono (region region' : list (Z * Z)) (img img' : Image) :
  (forall xy, xy ∈ region -> xy ∈ region') ->
  frame region img img' -> frame region' img img'.
Proof. intros Hsub [Hs H]. split; [done|]. intros xy Hxy. apply H. auto. Qed.

Lemma putpixel_frame (img img' : Image) (xy : Z * Z) (p : list Z) :
  putpixel img xy p = OK img' -> frame [xy] img img'.
Proof.
  intros H. apply putpixel_OK in H as ->. split; [done|].
  intros xy' Hxy'. simpl. apply lookup_insert_ne.
  rewrite list_elem_of_singleton in Hxy'. congruence.
Qed.

Lemma write_header_bit_frame (colours header : list Z) (coords : list (Z * Z))
    (i : nat) (position : Z * Z) (img img' : Image) :
  write_header_bit colours header coords (Z.of_nat i) position img = OK img' ->
  exists target, coords !! i = Some target /\ frame [target] img img'.
Proof.
  unfold write_header_bit. intros H.
  do 6 (apply bind_OK in H as (? & _ & H)).
  apply bind_OK in H as (target & Ht & H).
  apply py_index_OK in Ht; [|lia]. rewrite Nat2Z.id in Ht.
  exists target. split; [done|].
  apply putpixel_frame in H. by destruct target.
Qed.

Lemma write_data_bit_frame (msg : list Z) (written : list (Z * Z * Z * Z))
    (i : nat) (position : Z * Z * Z * Z) (img img' : Image) :
  write_data_bit msg written (Z.of_nat i) position img = OK img' ->
  exists target, written !! i = Some target
                 /\ frame [(target.1.1.1, target.1.1.2)] img img'.
Proof.
  unfold write_data_bit. destruct position as [[[x y] colour] index]. intros H.
  do 6 (apply bind_OK in H as (? & _ & H)).
  apply bind_OK in H as (target & Ht & H).
  apply py_index_OK in Ht; [|lia]. rewrite Nat2Z.id in Ht.
  exists target. split; [done|]. by apply putpixel_frame in H.
Qed.

Lemma attach_data_frame_OK (img img' : Image) (cfg : Configuration) (msg : list Z)
    (slots : list (Z * Z * Z * Z)) :
  attach_data img cfg msg slots = OK img' ->
  frame (map (fun s => (s.1.1.1, s.1.1.2)) slots) img img'.
Proof.
  unfold attach_data. intros H.
  set (written := if negb (NOISE cfg) then slice_to slots (len msg) else slots) in *.
  assert (forall s, s ∈ written -> s ∈ slots) as Hsub.
  { intros s. unfold written, slice_to. destruct (negb _); [|done].
    intros Hs. eapply elem_of_sublist; [exact Hs|apply sublist_take]. }
  apply (for_enumerate_rel (frame (map (fun s => (s.1.1.1, s.1.1.2)) slots))
           (write_data_bit msg written) written 0); [|done].
  intros k position s1 s2 Hk Hstep. rewrite Z.add_0_l in Hstep.
  apply write_data_bit_frame in Hstep as (target & Ht & Hframe).
  eapply frame_mono; [|exact Hframe].
  intros xy Hxy. apply list_elem_of_singleton in Hxy as ->.
  apply list_elem_of_fmap. exists target. split; [done|].
  apply Hsub. by eapply list_elem_of_lookup_2.
Qed.

#[local] Instance slots_within_refl coords : Reflexive (slots_within coords).
Proof. intros acc s Hs. by left. Qed.

#[local] Instance slots_within_trans coords : Transitive (slots_within coords).
Proof.
  intros a b c Hab Hbc s Hs. destruct (Hbc s Hs) as [Hb|?]; [|by right].
  by apply Hab.
Qed.

Section Insertion.

Context {rng : Type}.
Variable seed_int : Z -> rng.
Variable seed_str : list Z -> rng.
Variable draw_indices : rng -> nat -> nat -> list nat * rng.
Variable draw_int : rng -> Z -> Z -> Z * rng.

Hypothesis draw_indices_distinct : forall g n k,
  (k <= n)%nat ->
  length (draw_indices g n k).1 = k
  /\ NoDup (draw_indices g n k).1
  /\ Forall (fun j => (j < n)%nat) (draw_indices g n k).1.

Lemma attach_header_frame (img img' : Image) (key : Z) (header : list Z)
    (coords cut_coords : list (Z * Z)) :
  attach_header seed_int draw_indices img key header coords = OK (cut_coords, img') ->
  cut_coords = slice_from coords (len header)
  /\ frame (slice_to coords (len header - 1)) img img'.
Proof.
  unfold attach_header. intros H.
  apply bind_OK in H as (colours & _ & H).
  apply bind_OK in H as (img1 & Hloop & H).
  injection H as <- <-. split; [done|].
  apply (for_enumerate_rel (frame (slice_to coords (len header - 1)))
           (write_header_bit (concat colours) header coords)
           (slice_to coords (len header - 1)) 0); [|done].
  intros k position s1 s2 Hk Hstep. rewrite Z.add_0_l in Hstep.
  apply write_header_bit_frame in Hstep as (target & Ht & Hframe).
  eapply frame_mono; [|exact Hframe].
  intros xy Hxy. apply list_elem_of_singleton in Hxy as ->.
  unfold slice_to in *. apply lookup_take_Some in Hk as [Hk Hlt].
  assert (target = position) as -> by congruence.
  apply list_elem_of_lookup. exists k. by apply lookup_take_Some.
Qed.

Lemma generate_coords_coordinates (cfg : Configuration) (size : Size)
    (pixel_coords : list (Z * Z)) (slots : list (Z * Z * Z * Z)) :
  generate_coords seed_int draw_indices cfg size pixel_coords = OK slots ->
  forall s, s ∈ slots -> (s.1.1.1, s.1.1.2) ∈ pixel_coords.
Proof.
  unfold generate_coords. intros H.
  apply bind_OK in H as (picks & _ & H).
  apply bind_OK in H as (planned & Hloop & H).
  apply shuffle_OK_permutation in H; [|done].
  assert (slots_within pixel_coords [] planned) as Hwithin.
  { revert Hloop. apply for_enumerate_rel; [apply _|apply _|].
    intros k xy acc acc' Hk Hstep.
    apply bind_OK in Hstep as (chosen & _ & Hstep). injection Hstep as <-.
    intros s Hs. apply elem_of_app in Hs as [?|Hs]; [by left|right].
    apply list_elem_of_bind in Hs as (c & Hs & _).
    apply list_elem_of_fmap in Hs as (ix & -> & _). simpl.
    destruct xy. by eapply list_elem_of_lookup_2. }
  intros s Hs. rewrite H in Hs. destruct (Hwithin s Hs) as [Hnil|?]; [|done].
  by apply elem_of_nil in Hnil.
Qed.

(** [data_insert] changes pixels at the coordinates of [generate_context]
    only, and keeps the size of the image. *)
Lemma data_insert_frame (entropy : list Z) (img img' : Image) (key data method : list Z)
    (colours indexs : option (list Z)) (noise : bool) :
  data_insert seed_int seed_str draw_indices draw_int entropy img key data method
    colours indexs noise = OK img' ->
  exists coords image_key,
    generate_context seed_int draw_indices key img (size_of img) 16
    = OK (coords, image_key)
    /\ frame coords img img'.
Proof.
  unfold data_insert. intros H.
  apply bind_OK in H as ([coords image_key] & Hctx & H).
  apply bind_OK in H as (cfg & _ & H).
  apply bind_OK in H as (header & _ & H).
  apply bind_OK in H as ([cut_coords img1] & Hheader & H).
  apply bind_OK in H as (slots & Hslots & H).
  apply bind_OK in H as (msg & _ & H).
  exists coords, image_key. split; [done|].
  apply attach_header_frame in Hheader as [-> Hf1].
  apply attach_data_frame_OK in H.
  pose proof (generate_coords_coordinates _ _ _ _ Hslots) as Hin.
  trans img1.
  - eapply frame_mono; [|exact Hf1]. intros xy Hxy. unfold slice_to in Hxy.
    eapply elem_of_sublist; [exact Hxy|apply sublist_take].
  - eapply frame_mono; [|exact H]. intros xy Hxy.
    apply list_elem_of_fmap in Hxy as (s & -> & Hs). apply Hin in Hs.
    unfold slice_from in Hs. eapply elem_of_sublist; [exact Hs|apply sublist_drop].
Qed.

Lemma mapM_result_ext {A B} (f g : A -> result B) (l : list A) :
  (forall x, x ∈ l -> f x = g x) -> mapM f l = mapM g l.
Proof.
  induction l as [|x l IH]; intros H; [done|].
  simpl. rewrite (H x) by (by left). destruct (g x); [|done]. simpl.
  rewrite IH; [done|]. intros y Hy. apply H. by right.
Qed.

(** The key derivation gives the same result on two images of the same
    size that have the same pixels outside of the coordinates that it
    returned on the first. *)
Lemma generate_context_frame (key : list Z) (img img' : Image)
    (coords : list (Z * Z)) (image_key : Z) :
  generate_context seed_int draw_indices key img (size_of img) 16
  = OK (coords, image_key) ->
  frame coords img img' ->
  generate_context seed_int draw_indices key img' (size_of img') 16
  = OK (coords, image_key).
Proof.
  intros Hctx [Hsize Hsame].
  assert (size_of img' = size_of img) as -> by (unfold size_of; by rewrite Hsize).
  destruct (generate_context_OK_inv seed_int draw_indices key img (size_of img)
              coords image_key Hctx) as (coords0 & pixels & Hs0 & Hpx & Hkey & Hs).
  unfold generate_context. run_with Hs0.
  change (16 - 1) with 15.
  assert (mapM (fun point => c ← py_index coords0 point; getpixel img' (c.1, c.2))
            (py_range 15) = OK pixels) as Hpx'.
  { rewrite <- Hpx. apply mapM_result_ext. intros point Hpoint.
    apply elem_of_py_range in Hpoint.
    destruct (py_index coords0 point) as [xy|e] eqn:Hxy; [|done].
    rewrite !bind_ret. unfold getpixel. rewrite Hsame; [by destruct xy|].
    apply py_index_OK in Hxy; [|lia].
    pose proof (shuffle_OK_permutation seed_int draw_indices draw_indices_distinct
                  _ _ _ Hs0) as Hperm0.
    pose proof (shuffle_OK_permutation seed_int draw_indices draw_indices_distinct
                  _ _ _ Hs) as Hperm.
    assert (NoDup coords0) as Hnd.
    { rewrite Hperm0. apply NoDup_product; apply NoDup_py_range. }
    destruct xy as [x y]. simpl. intros Hin. rewrite Hperm in Hin.
    apply list_elem_of_lookup in Hin as [j Hj]. rewrite lookup_drop in Hj.
    pose proof (NoDup_lookup _ _ _ _ Hnd Hxy Hj). lia. }
  run_with Hpx'. rewrite <- Hkey. change (slice_from coords0 16) with (drop 16 coords0).
  by run_with Hs.
Qed.

(** X20. [data_insert] does not touch the pixels that the key derivation
    samples: on the image that it returns, which has the size of the image
    it was given, [generate_context] with the same key gives the same
    coordinates and the same derived key as on the image it was given. *)
Theorem data_insert_keeps_context (entropy : list Z) (img img' : Image)
    (key data method : list Z) (colours indexs : option (list Z)) (noise : bool) :
  data_insert seed_int seed_str draw_indices draw_int entropy img key data method
    colours indexs noise = OK img' ->
  image_size img' = image_size img
  /\ generate_context seed_int draw_indices key img' (size_of img') 16
     = generate_context seed_int draw_indices key img (size_of img) 16.
Proof.
  intros H. apply data_insert_frame in H as (coords & image_key & Hctx & Hframe).
  split; [apply Hframe|].
  rewrite Hctx. by apply (generate_context_frame key img img').
Qed.

Hypothesis draw_int_range : forall g a b, a <= b -> a <= (draw_int g a b).1 <= b.

Lemma bitmap_bitstring (n : Z) (l : list Z) : bitstring (bitmap n l).
Proof.
  unfold bitmap. apply Forall_forall. intros b Hb.
  apply list_elem_of_fmap in Hb as (k & -> & _). unfold presence.
  destruct (bool_decide _); [by right|by left].
Qed.

Lemma len_values_remove_dups (names : list (list Z * Z)) (l : list Z) :
  NoDup (values names) ->
  (forall c, c ∈ values names <-> c ∈ l) ->
  len (values names) = len (remove_dups l).
Proof.
  intros Hnd Hin. unfold len. f_equal. apply Permutation_length.
  apply NoDup_Permutation; [done|apply NoDup_remove_dups|].
  intros c. by rewrite Hin, elem_of_remove_dups.
Qed.

(** The steps of [data_insert] up to the payload builder succeed on an
    image of bytes of fifteen pixels or more, for channels and bit positions
    in range: what is left of the run is the payload builder and the data
    embedder, on slots that are distinct, address bits of the image and are
    [slot_capacity] many.  The header bits but the last are in the image
    by then. *)
Lemma data_insert_run (entropy : list Z) (img : Image) (key data method : list Z)
    (colours indexs : option (list Z)) (noise : bool) :
  rgb_image img ->
  15 <= (image_size img).1 * (image_size img).2 ->
  Forall (fun c => 0 <= c < 3) (default [0; 1; 2] colours) ->
  Forall (fun i => 0 <= i < 8) (default [6; 7] indexs) ->
  (method = lit "random" -> default [0; 1; 2] colours <> []) ->
  exists coords image_key cfg header hc img1 slots,
    generate_context seed_int draw_indices key img (size_of img) 16
    = OK (coords, image_key)
    /\ build_object image_key method noise colours indexs = OK cfg
    /\ generate_coords seed_int draw_indices cfg (size_of img) (slice_from coords 12)
       = OK slots
    /\ data_insert seed_int seed_str draw_indices draw_int entropy img key data method
         colours indexs noise
       = generate_message seed_str draw_int entropy cfg data slots
         ≫= (fun msg => attach_data img1 cfg msg slots)
    /\ NOISE cfg = noise
    /\ byte_image img1
    /\ NoDup slots
    /\ Forall (slot_in_image img1) slots
    /\ len slots = slot_capacity img method colours indexs
    /\ NoDup coords
    /\ generate_header cfg = OK header
    /\ random_sample seed_int draw_indices image_key [0; 1; 2] (len header) 1
       = OK (map (fun c => [c]) hc)
    /\ (forall (k : nat) xy c b,
          (k < 11)%nat ->
          coords !! k = Some xy -> hc !! k = Some c -> header !! k = Some b ->
          read_bit img1 (xy.1, xy.2, c, 7) = Some (bool_decide (b = c1))).
Proof.
  intros (Hw & Hh & Hcomplete & Hbytes & Hrgb) Hsize Hc Hi Hrandom.
  destruct (generate_context_OK seed_int draw_indices draw_indices_distinct key img
              Hcomplete Hw Hh Hsize) as (coords & image_key & Hctx & Hnd & Hgrid & Hlen).
  destruct (build_object_OK image_key method noise colours indexs Hc Hi)
    as (cs & ixs & Hcfg & Hcs & Hixs & Hcin & Hiin).
  set (cfg := mkConfiguration cs ixs _ method noise image_key) in *.
  assert (Forall (fun c => 0 <= c < 3) (values cs)) as Hcr.
  { apply Forall_forall. intros c Hcc. apply Hcin in Hcc.
    by apply (proj1 (Forall_forall _ _) Hc). }
  assert (Forall (fun i => 0 <= i < 8) (values ixs)) as Hir.
  { apply Forall_forall. intros c Hcc. apply Hiin in Hcc.
    by apply (proj1 (Forall_forall _ _) Hi). }
  pose proof (generate_header_bitmap cfg Hcr Hir) as Hheader.
  cbn [METHOD COLOURS INDEXS cfg] in Hheader.
  set (header := [if bool_decide (method = lit "random") then c1 else c0]
                 ++ bitmap 3 (values cs) ++ bitmap 8 (values ixs)) in *.
  assert (length header = 12%nat) as Hlen12 by reflexivity.
  assert (bitstring header) as Hhbits.
  { unfold header. repeat (apply Forall_app; split); try apply bitmap_bitstring.
    apply Forall_cons_2; [|apply Forall_nil_2].
    case_bool_decide; [by right|by left]. }
  assert (forall xy, xy ∈ coords -> exists p, image_data img !! xy = Some p /\ 3 <= len p)
    as Hpix.
  { intros xy Hxy. destruct (Hgrid xy Hxy) as [Hx Hy].
    destruct (Hcomplete xy.1 xy.2 Hx Hy) as [p Hp]. destruct xy as [x y].
    exists p. split; [done|]. by eapply Hrgb. }
  destruct (attach_header_OK seed_int draw_indices draw_indices_distinct img image_key
              header coords)
    as (hc & img1 & Hsample & Hhcr & Hattach & Hbytes1 & _ & Hshape & Hset);
    [done|by intros Hnil; rewrite Hnil in Hlen12
    |eapply sublist_NoDup; [exact Hnd|apply sublist_take]
    |done
    |intros xy Hxy; apply Hpix; eapply elem_of_sublist; [exact Hxy|apply sublist_take]|].
  rewrite Hlen12 in Hattach, Hset.
  assert (NoDup (drop 12 coords)) as Hndcut
    by (eapply sublist_NoDup; [exact Hnd|apply sublist_drop]).
  assert (len (drop 12 coords)
          = Z.max 0 ((image_size img).1 * (image_size img).2 - 28)) as Hlencut
    by (unfold len in *; rewrite length_drop; lia).
  destruct (generate_coords_OK seed_int draw_indices draw_indices_distinct cfg
              (size_of img) (drop 12 coords))
    as (picks & slots & Hslots & Hpicks & Hperm & Hlenslots).
  { intros Hm. cbn [METHOD COLOURS cfg] in *. split.
    - destruct (default [0; 1; 2] colours) as [|c l] eqn:Hd; [by apply Hrandom in Hm|].
      intros Hnil. assert (c ∈ values cs) as Hin by (apply Hcin; by left).
      rewrite Hnil in Hin. by apply elem_of_nil in Hin.
    - unfold size_of. cbn [PIXELS]. lia. }
  assert (forall s, s ∈ slots ->
            (s.1.1.1, s.1.1.2) ∈ drop 12 coords /\ s.1.2 ∈ values cs /\ s.2 ∈ values ixs)
    as Hin.
  { intros s Hs. rewrite Hperm in Hs. cbn [METHOD COLOURS INDEXS cfg] in Hs.
    destruct (bool_decide (method = lit "random")).
    - apply elem_of_random_slots in Hs as (? & Hc' & ?). split_and!; [done| |done].
      by apply (proj1 (Forall_forall _ _) Hpicks).
    - by apply elem_of_all_slots in Hs. }
  exists coords, image_key, cfg, header, hc, img1, slots.
  split_and!; try done.
  - unfold data_insert. cbv zeta. rewrite Hctx, bind_ret. cbv beta iota.
    rewrite Hcfg, bind_ret. cbv beta. rewrite Hheader, bind_ret. cbv beta.
    rewrite Hattach, bind_ret. cbv beta iota.
    by rewrite Hslots, bind_ret.
  - rewrite Hperm. cbn [METHOD COLOURS INDEXS cfg].
    destruct (bool_decide (method = lit "random")).
    + by apply NoDup_random_slots.
    + by apply NoDup_all_slots.
  - apply Forall_forall. intros s Hs. destruct (Hin s Hs) as (Hxy & Hcc & Hkk).
    destruct (Hpix (s.1.1.1, s.1.1.2)) as (p & Hp & Hp3);
      [eapply elem_of_sublist; [exact Hxy|apply sublist_drop]|].
    destruct (Hshape _ _ Hp) as (p' & Hp' & Hlenp).
    exists p'. split; [done|].
    pose proof (proj1 (Forall_forall _ _) Hcr _ Hcc) as Hc3.
    pose proof (proj1 (Forall_forall _ _) Hir _ Hkk) as Hk8.
    simpl in Hc3, Hk8. unfold len in *. lia.
  - rewrite Hlenslots, Hlencut. cbn [METHOD COLOURS INDEXS cfg]. unfold slot_capacity.
    rewrite (len_values_remove_dups ixs _ Hixs Hiin).
    by rewrite (len_values_remove_dups cs _ Hcs Hcin).
  - intros k xy c b Hk Hxy Hck Hb.
    destruct (Hpix xy) as (p & Hp & _); [by eapply list_elem_of_lookup_2|].
    destruct (Hset k xy c b p ltac:(lia) Hxy Hck Hb Hp) as (v & Hv & Hp').
    pose proof (Forall_lookup_1 _ _ _ _ Hhcr Hck) as Hc3. simpl in Hc3.
    unfold read_bit, channel_value. cbn [fst snd].
    destruct xy as [x y]. cbn [fst snd]. rewrite Hp'. simpl.
    destruct (Z.ltb_spec c 0); [lia|].
    rewrite list_lookup_insert_eq by (by eapply lookup_lt_Some). simpl.
    rewrite byte_bit_write_bit by lia. by rewrite (bool_decide_true (7 = 7)).
Qed.

(** The whole run when the message fits: the image returned holds the
    message bits at the slots planned, and differs from the image that
    holds the header at the coordinates of the slots only. *)
Lemma data_insert_fits (entropy : list Z) (img : Image)
    (key data bits method : list Z) (colours indexs : option (list Z)) (noise : bool) :
  rgb_image img ->
  15 <= (image_size img).1 * (image_size img).2 ->
  Forall (fun c => 0 <= c < 3) (default [0; 1; 2] colours) ->
  Forall (fun i => 0 <= i < 8) (default [6; 7] indexs) ->
  (method = lit "random" -> default [0; 1; 2] colours <> []) ->
  binary_conversion_binary data = OK bits ->
  length_prefix_width (slot_capacity img method colours indexs) + len bits
  <= slot_capacity img method colours indexs ->
  exists coords image_key cfg header hc img1 slots img',
    generate_context seed_int draw_indices key img (size_of img) 16
    = OK (coords, image_key)
    /\ build_object image_key method noise colours indexs = OK cfg
    /\ generate_coords seed_int draw_indices cfg (size_of img) (slice_from coords 12)
       = OK slots
    /\ len slots = slot_capacity img method colours indexs
    /\ NoDup coords
    /\ generate_header cfg = OK header
    /\ random_sample seed_int draw_indices image_key [0; 1; 2] (len header) 1
       = OK (map (fun c => [c]) hc)
    /\ (forall (k : nat) xy c b,
          (k < 11)%nat ->
          coords !! k = Some xy -> hc !! k = Some c -> header !! k = Some b ->
          read_bit img1 (xy.1, xy.2, c, 7) = Some (bool_decide (b = c1)))
    /\ data_insert seed_int seed_str draw_indices draw_int entropy img key data method
         colours indexs noise = OK img'
    /\ (forall xy, (forall c k, (xy.1, xy.2, c, k) ∉ slots) ->
                   image_data img' !! xy = image_data img1 !! xy)
    /\ (forall (k : nat) b,
          (zfill (length_prefix_width (len slots)) (integer_conversion_binary (len bits))
           ++ bits) !! k = Some b ->
          exists s, slots !! k = Some s
                    /\ read_bit img' s = Some (bool_decide (b = c1))).
Proof.
  intros Himg Hsize Hc Hi Hrandom Hbits Hfit.
  destruct (data_insert_run entropy img key data method colours indexs noise
              Himg Hsize Hc Hi Hrandom)
    as (coords & image_key & cfg & header & hc & img1 & slots
        & Hctx & Hcfg & Hslots & Hrun & Hnoise & Hbytes1 & Hnd & Hin & Hlen
        & Hndc & Hheader & Hsample & Hhdr).
  rewrite <- Hlen in Hfit.
  destruct (generate_message_fits seed_str draw_int entropy cfg data bits slots
              Hbits Hfit) as (noise_bits & Hmsg & _).
  destruct (generate_message_OK_inv seed_str draw_int draw_int_range entropy cfg data _
              slots Hmsg) as (bits' & noise' & Hbits' & _ & Heq & Hmbits & Hnlen).
  assert (bits' = bits) as -> by congruence.
  set (msg := zfill (length_prefix_width (len slots))
                (integer_conversion_binary (len bits)) ++ bits ++ noise_bits) in *.
  pose proof (len_nonneg bits) as Hd.
  assert (0 <= length_prefix_width (len slots)) as Hwn by apply len_nonneg.
  pose proof (end_key_len (len slots) (len bits) ltac:(lia)) as Hw.
  assert (len msg = length_prefix_width (len slots) + len bits + len noise') as Hmlen.
  { rewrite Heq, !len_app, Hw. lia. }
  assert (len (written_slots cfg msg slots) = len msg) as Hwlen.
  { unfold written_slots, slice_to, slice_bound, len in *.
    destruct (NOISE cfg); simpl.
    - lia.
    - destruct (Z.ltb_spec (Z.of_nat (length msg)) 0); [lia|].
      rewrite length_take. lia. }
  assert (sublist (written_slots cfg msg slots) slots) as Hsub.
  { unfold written_slots, slice_to. destruct (negb _); [apply sublist_take|done]. }
  destruct (attach_data_OK img1 cfg msg slots) as (img' & Hattach & Hout & _ & Hread);
    [done
    |apply Forall_forall; intros s Hs; apply (proj1 (Forall_forall _ _) Hin);
     by eapply elem_of_sublist
    |done
    |intros Hn; rewrite Hn in Hnlen; lia|].
  exists coords, image_key, cfg, header, hc, img1, slots, img'.
  split_and!; try done.
  - by rewrite Hrun, Hmsg, bind_ret.
  - intros xy Hxy. apply Hout. intros c k Hck. apply (Hxy c k).
    by eapply elem_of_sublist.
  - intros k b Hk.
    assert (msg !! k = Some b) as Hmk.
    { unfold msg. rewrite app_assoc. by apply lookup_app_l_Some. }
    assert (k < length (written_slots cfg msg slots))%nat as Hklt.
    { apply lookup_lt_Some in Hmk. unfold len in Hwlen. lia. }
    destruct (lookup_lt_is_Some_2 _ _ Hklt) as [s Hs].
    assert (NoDup (written_slots cfg msg slots)) as Hndw by (by eapply sublist_NoDup).
    exists s. split.
    + unfold written_slots, slice_to in Hs. destruct (negb _); [|done].
      by apply lookup_take_Some in Hs as [Hs _].
    + apply (Hread k s b Hs Hmk). intros j Hj Hsj.
      pose proof (NoDup_lookup _ _ _ _ Hndw Hs Hsj). lia.
Qed.

(** X21. On an image of bytes of fifteen pixels or more, for channels and
    bit positions in range and a text that has a UTF-8 encoding,
    [data_insert] raises the capacity error exactly as the payload builder
    does on [slot_capacity] slots: when the width of the length prefix plus
    the number of data bits exceeds the capacity, with the overage in the
    message. *)
Theorem data_insert_capacity_error (entropy : list Z) (img : Image)
    (key data bits method : list Z) (colours indexs : option (list Z)) (noise : bool) :
  rgb_image img ->
  15 <= (image_size img).1 * (image_size img).2 ->
  Forall (fun c => 0 <= c < 3) (default [0; 1; 2] colours) ->
  Forall (fun i => 0 <= i < 8) (default [6; 7] indexs) ->
  (method = lit "random" -> default [0; 1; 2] colours <> []) ->
  binary_conversion_binary data = OK bits ->
  slot_capacity img method colours indexs
  < length_prefix_width (slot_capacity img method colours indexs) + len bits ->
  data_insert seed_int seed_str draw_indices draw_int entropy img key data method
    colours indexs noise
  = Raise (capacity_error
             (length_prefix_width (slot_capacity img method colours indexs) + len bits
              - slot_capacity img method colours indexs)).
Proof.
  intros Himg Hsize Hc Hi Hrandom Hbits Hover.
  destruct (data_insert_run entropy img key data method colours indexs noise
              Himg Hsize Hc Hi Hrandom)
    as (coords & image_key & cfg & header & hc & img1 & slots
        & _ & _ & _ & -> & _ & _ & _ & _ & Hlen & _).
  rewrite <- Hlen in *.
  by rewrite (generate_message_exceeds seed_str draw_int entropy cfg data bits slots).
Qed.

(** X22. Under the same conditions, when the length prefix and the data
    bits fit the capacity, [data_insert] returns an image, and the message
    is in it: with the coordinates and derived key of [generate_context],
    the configuration that [build_object] makes of the arguments and the
    slots that [generate_coords] plans over the coordinates after the first
    twelve, the slot of rank [k] addresses, in the image returned, the bit
    of rank [k] of the length prefix followed by the data bits. *)
Theorem data_insert_embeds (entropy : list Z) (img : Image)
    (key data bits method : list Z) (colours indexs : option (list Z)) (noise : bool) :
  rgb_image img ->
  15 <= (image_size img).1 * (image_size img).2 ->
  Forall (fun c => 0 <= c < 3) (default [0; 1; 2] colours) ->
  Forall (fun i => 0 <= i < 8) (default [6; 7] indexs) ->
  (method = lit "random" -> default [0; 1; 2] colours <> []) ->
  binary_conversion_binary data = OK bits ->
  length_prefix_width (slot_capacity img method colours indexs) + len bits
  <= slot_capacity img method colours indexs ->
  exists coords image_key cfg slots img',
    generate_context seed_int draw_indices key img (size_of img) 16
    = OK (coords, image_key)
    /\ build_object image_key method noise colours indexs = OK cfg
    /\ generate_coords seed_int draw_indices cfg (size_of img) (slice_from coords 12)
       = OK slots
    /\ len slots = slot_capacity img method colours indexs
    /\ data_insert seed_int seed_str draw_indices draw_int entropy img key data method
         colours indexs noise = OK img'
    /\ forall (k : nat) b,
         (zfill (length_prefix_width (len slots)) (integer_conversion_binary (len bits))
          ++ bits) !! k = Some b ->
         exists s, slots !! k = Some s
                   /\ read_bit img' s = Some (bool_decide (b = c1)).
Proof.
  intros Himg Hsize Hc Hi Hrandom Hbits Hfit.
  destruct (data_insert_fits entropy img key data bits method colours indexs noise
              Himg Hsize Hc Hi Hrandom Hbits Hfit)
    as (coords & image_key & cfg & header & hc & img1 & slots & img'
        & Hctx & Hcfg & Hslots & Hlen & _ & _ & _ & _ & Hinsert & _ & Hread).
  by exists coords, image_key, cfg, slots, img'.
Qed.

(** X23. The data bits do not run over the header: under the same
    conditions, in the image that [data_insert] returns, every header bit
    but the last is still where [attach_header] wrote it, in the least
    significant bit of the channel drawn for its rank, at the coordinate of
    its rank. *)
Theorem data_insert_keeps_header (entropy : list Z) (img : Image)
    (key data bits method : list Z) (colours indexs : option (list Z)) (noise : bool) :
  rgb_image img ->
  15 <= (image_size img).1 * (image_size img).2 ->
  Forall (fun c => 0 <= c < 3) (default [0; 1; 2] colours) ->
  Forall (fun i => 0 <= i < 8) (default [6; 7] indexs) ->
  (method = lit "random" -> default [0; 1; 2] colours <> []) ->
  binary_conversion_binary data = OK bits ->
  length_prefix_width (slot_capacity img method colours indexs) + len bits
  <= slot_capacity img method colours indexs ->
  exists coords image_key cfg header hc img',
    generate_context seed_int draw_indices key img (size_of img) 16
    = OK (coords, image_key)
    /\ build_object image_key method noise colours indexs = OK cfg
    /\ generate_header cfg = OK header
    /\ random_sample seed_int draw_indices image_key [0; 1; 2] (len header) 1
       = OK (map (fun c => [c]) hc)
    /\ data_insert seed_int seed_str draw_indices draw_int entropy img key data method
         colours indexs noise = OK img'
    /\ forall (k : nat) xy c b,
         (k < 11)%nat ->
         coords !! k = Some xy -> hc !! k = Some c -> header !! k = Some b ->
         read_bit img' (xy.1, xy.2, c, 7) = Some (bool_decide (b = c1)).
Proof.
  intros Himg Hsize Hc Hi Hrandom Hbits Hfit.
  destruct (data_insert_fits entropy img key data bits method colours indexs noise
              Himg Hsize Hc Hi Hrandom Hbits Hfit)
    as (coords & image_key & cfg & header & hc & img1 & slots & img'
        & Hctx & Hcfg & Hslots & _ & Hnd & Hheader & Hsample & Hhdr & Hinsert
        & Hout & _).
  exists coords, image_key, cfg, header, hc, img'.
  split_and!; try done.
  intros k xy c b Hk Hxy Hck Hb.
  rewrite <- (Hhdr k xy c b Hk Hxy Hck Hb).
  unfold read_bit, channel_value. cbn [fst snd].
  replace (image_data img' !! (xy.1, xy.2)) with (image_data img1 !! (xy.1, xy.2));
    [done|].
  symmetry. apply (Hout (xy.1, xy.2)). cbn [fst snd]. intros c' k' Hs.
  apply (generate_coords_coordinates _ _ _ _ Hslots) in Hs. cbn [fst snd] in Hs.
  change (slice_from coords 12) with (drop 12 coords) in Hs.
  apply list_elem_of_lookup in Hs as [j Hj]. rewrite lookup_drop in Hj.
  destruct xy as [x y]. cbn [fst snd] in Hj.
  pose proof (NoDup_lookup _ _ _ _ Hnd Hxy Hj). lia.
Qed.

End Insertion.

Lemma flat_image_rgb (w h v : Z) :
  0 <= w -> 0 <= h -> 0 <= v < 256 -> rgb_image (flat_image w h v).
Proof.
  intros Hw Hh Hv. split_and!; [done|done|apply flat_image_complete
                               |by apply flat_image_bytes|].
  intros xy p Hp. unfold flat_image in Hp. simpl in Hp.
  by apply elem_of_list_to_map_2, list_elem_of_fmap in Hp as (xy' & [= -> ->] & _).
Qed.

Lemma data_insert_keeps_context_witness :
  exists img',
    data_insert Toy.seed_int Toy.seed_str Toy.draw_indices Toy.draw_int (lit "e")
      (flat_image 10 10 1) (lit "k") (lit "hi") (lit "all") (Some [0]) (Some [7]) false
    = OK img'
    /\ image_size img' = image_size (flat_image 10 10 1)
    /\ generate_context Toy.seed_int Toy.draw_indices (lit "k") img' (size_of img') 16
       = generate_context Toy.seed_int Toy.draw_indices (lit "k") (flat_image 10 10 1)
           (size_of (flat_image 10 10 1)) 16.
Proof.
  set (img' := match data_insert Toy.seed_int Toy.seed_str Toy.draw_indices Toy.draw_int
                       (lit "e") (flat_image 10 10 1) (lit "k") (lit "hi") (lit "all")
                       (Some [0]) (Some [7]) false with
               | OK img' => img'
               | Raise _ => flat_image 0 0 0
               end).
  assert (data_insert Toy.seed_int Toy.seed_str Toy.draw_indices Toy.draw_int (lit "e")
            (flat_image 10 10 1) (lit "k") (lit "hi") (lit "all") (Some [0]) (Some [7])
            false = OK img') as Hinsert by (vm_compute; reflexivity).
  exists img'. split; [exact Hinsert|].
  exact (data_insert_keeps_context Toy.seed_int Toy.seed_str Toy.draw_indices
           Toy.draw_int toy_draw_indices_distinct _ _ _ _ _ _ _ _ _ Hinsert).
Defined.

Lemma data_insert_capacity_error_witness :
  data_insert Toy.seed_int Toy.seed_str Toy.draw_indices Toy.draw_int (lit "e")
    (flat_image 6 6 0) (lit "k") (lit "hi") (lit "all") (Some [0]) (Some [7]) false
  = Raise (capacity_error 16).
Proof.
  rewrite (data_insert_capacity_error Toy.seed_int Toy.seed_str Toy.draw_indices
             Toy.draw_int toy_draw_indices_distinct (lit "e") (flat_image 6 6 0)
             (lit "k") (lit "hi") (lit "0110100001101001") (lit "all") (Some [0])
             (Some [7]) false).
  - reflexivity.
  - apply flat_image_rgb; lia.
  - simpl. lia.
  - apply Forall_cons_2; [simpl; lia|apply Forall_nil_2].
  - apply Forall_cons_2; [simpl; lia|apply Forall_nil_2].
  - intros _. done.
  - vm_compute. reflexivity.
  - vm_compute. reflexivity.
Defined.

Lemma data_insert_embeds_witness :
  exists slots img',
    len slots = 72
    /\ data_insert Toy.seed_int Toy.seed_str Toy.draw_indices Toy.draw_int (lit "e")
         (flat_image 10 10 0) (lit "k") (lit "hi") (lit "all") (Some [0]) (Some [7]) false
       = OK img'
    /\ forall (k : nat) b,
         (lit "00010000" ++ lit "0110100001101001") !! k = Some b ->
         exists s, slots !! k = Some s
                   /\ read_bit img' s = Some (bool_decide (b = c1)).
Proof.
  destruct (data_insert_embeds Toy.seed_int Toy.seed_str Toy.draw_indices Toy.draw_int
              toy_draw_indices_distinct toy_draw_int_range (lit "e") (flat_image 10 10 0)
              (lit "k") (lit "hi") (lit "0110100001101001") (lit "all") (Some [0])
              (Some [7]) false)
    as (coords & image_key & cfg & slots & img' & _ & _ & _ & Hlen & Hinsert & Hread).
  - apply flat_image_rgb; lia.
  - simpl. lia.
  - apply Forall_cons_2; [simpl; lia|apply Forall_nil_2].
  - apply Forall_cons_2; [simpl; lia|apply Forall_nil_2].
  - intros _. done.
  - vm_compute. reflexivity.
  - vm_compute. discriminate.
  - exists slots, img'. rewrite Hlen in Hread.
    split; [exact Hlen|]. split; [exact Hinsert|]. exact Hread.
Defined.

(** ** The text encoder *)

Lemma utf8_encode_char_scalar (c : Z) :
  scalar_value c ->
  exists bs, utf8_encode_char c = Some bs /\ len bs = utf8_width c.
Proof.
  intros Hc. unfold scalar_value in Hc. unfold utf8_encode_char, utf8_width.
  destruct (Z.ltb_spec c 0); [lia|].
  destruct (Z.ltb_spec c 0x80); [by eexists|].
  destruct (Z.ltb_spec c 0x800); [by eexists|].
  destruct (Z.ltb_spec c 0x10000).
  - destruct (Z.leb_spec 0xD800 c), (Z.leb_spec c 0xDFFF); simpl; try lia; by eexists.
  - destruct (Z.ltb_spec c 0x110000); [by eexists|lia].
Qed.

Lemma utf8_encode_char_surrogate (c : Z) : surrogate c -> utf8_encode_char c = None.
Proof.
  intros Hc. unfold surrogate in Hc. unfold utf8_encode_char.
  destruct (Z.ltb_spec c 0); [done|].
  destruct (Z.ltb_spec c 0x80); [lia|].
  destruct (Z.ltb_spec c 0x800); [lia|].
  destruct (Z.ltb_spec c 0x10000); [|lia].
  by destruct (Z.leb_spec 0xD800 c), (Z.leb_spec c 0xDFFF); try lia.
Qed.

Lemma utf8_encode_scalars (text : list Z) :
  Forall scalar_value text ->
  exists bss, mapM utf8_encode_char text = Some bss
              /\ len (concat bss) = foldr (fun c n => utf8_width c + n) 0 text.
Proof.
  induction 1 as [|c text Hc _ (bss & IH & IHlen)]; [by exists []|].
  destruct (utf8_encode_char_scalar c Hc) as (bs & Hbs & Hlen).
  exists (bs :: bss). simpl. rewrite Hbs, IH. simpl. split; [done|].
  rewrite len_app. lia.
Qed.

(** X24. A text of code points that are no surrogates is encoded:
    [binary_conversion] with the method 'binary' returns binary digits,
    eight for every byte of the UTF-8 encoding (one to four bytes for a
    character, by its code point), and, if the text is not empty, the other
    direction of [binary_conversion] gives the text back from them. *)
Theorem binary_conversion_encodes (text : list Z) :
  Forall scalar_value text ->
  exists data,
    binary_conversion_binary text = OK data
    /\ bitstring data
    /\ len data = 8 * foldr (fun c n => utf8_width c + n) 0 text
    /\ (text <> [] -> binary_conversion_text data = OK text).
Proof.
  intros Htext. destruct (utf8_encode_scalars text Htext) as (bss & Henc & Hlen).
  destruct (utf8_decode_encode text bss Henc) as (_ & Hbytes & _).
  destruct (pack_byte_bits (concat bss) Hbytes) as (Hbit & Hblen & _).
  assert (binary_conversion_binary text
          = OK (concat (map (fun byte => zfill 8 (drop 2 (bin byte))) (concat bss))))
    as Hdata by (unfold binary_conversion_binary, utf8_encode; by rewrite Henc).
  eexists. split; [exact Hdata|]. split_and!; [done|by rewrite Hblen, Hlen|].
  intros Hne. by apply binary_conversion_roundtrip.
Qed.

Lemma binary_conversion_encodes_witness :
  exists data,
    binary_conversion_binary [104; 233; 8364; 128512] = OK data
    /\ bitstring data
    /\ len data = 80
    /\ ([104; 233; 8364; 128512] <> [] ->
        binary_conversion_text data = OK [104; 233; 8364; 128512]).
Proof.
  apply (binary_conversion_encodes [104; 233; 8364; 128512]).
  repeat (apply Forall_cons_2; [unfold scalar_value; lia|]). apply Forall_nil_2.
Defined.

(** X25. A text that holds a surrogate code point is not encoded:
    [binary_conversion] with the method 'binary' raises
    [UnicodeEncodeError], wherever the surrogate stands. *)
Theorem binary_conversion_refuses_surrogate (text : list Z) :
  Exists surrogate text ->
  binary_conversion_binary text = Raise UnicodeEncodeError.
Proof.
  intros Htext. unfold binary_conversion_binary, utf8_encode.
  assert (mapM utf8_encode_char text = None) as ->; [|done].
  induction Htext as [c text Hc|c text _ IH]; simpl.
  - by rewrite (utf8_encode_char_surrogate c Hc).
  - rewrite IH. by destruct (utf8_encode_char c).
Qed.

Lemma binary_conversion_refuses_surrogate_witness :
  binary_conversion_binary [104; 55357; 105] = Raise UnicodeEncodeError.
Proof.
  apply binary_conversion_refuses_surrogate.
  apply Exists_cons_tl, Exists_cons_hd. unfold surrogate. lia.
Defined.

Lemma data_insert_keeps_header_witness :
  exists (coords : list (Z * Z)) (hc : list Z) img',
    data_insert Toy.seed_int Toy.seed_str Toy.draw_indices Toy.draw_int (lit "e")
      (flat_image 10 10 0) (lit "k") (lit "hi") (lit "all") (Some [0]) (Some [7]) false
    = OK img'
    /\ forall (k : nat) xy c b,
         (k < 11)%nat ->
         coords !! k = Some xy -> hc !! k = Some c ->
         lit "010000000001" !! k = Some b ->
         read_bit img' (xy.1, xy.2, c, 7) = Some (bool_decide (b = c1)).
Proof.
  destruct (data_insert_keeps_header Toy.seed_int Toy.seed_str Toy.draw_indices
              Toy.draw_int toy_draw_indices_distinct toy_draw_int_range (lit "e")
              (flat_image 10 10 0) (lit "k") (lit "hi") (lit "0110100001101001")
              (lit "all") (Some [0]) (Some [7]) false)
    as (coords & image_key & cfg & header & hc & img'
        & _ & Hcfg & Hheader & _ & Hinsert & Hread).
  - apply flat_image_rgb; lia.
  - simpl. lia.
  - apply Forall_cons_2; [simpl; lia|apply Forall_nil_2].
  - apply Forall_cons_2; [simpl; lia|apply Forall_nil_2].
  - intros _. done.
  - vm_compute. reflexivity.
  - vm_compute. discriminate.
  - vm_compute in Hcfg. injection Hcfg as <-.
    vm_compute in Hheader. injection Hheader as <-.
    exists coords, hc, img'. split; [exact Hinsert|exact Hread].
Defined.

(** ** The draws *)

Section Draws.

Context {rng : Type}.
Variable seed_int : Z -> rng.
Variable draw_indices : rng -> nat -> nat -> list nat * rng.

Hypothesis draw_indices_distinct : forall g n k,
  (k <= n)%nat ->
  length (draw_indices g n k).1 = k
  /\ NoDup (draw_indices g n k).1
  /\ Forall (fun j => (j < n)%nat) (draw_indices g n k).1.

Lemma sample_repeat_total {A} (g : rng) (options : list A) (k : Z) (n : nat) :
  0 <= k <= len options ->
  exists picks,
    sample_repeat draw_indices g options k n = OK picks
    /\ length picks = n
    /\ Forall (fun pick => len pick = k /\ pick ⊆+ options) picks.
Proof.
  intros Hk. revert g. induction n as [|n IH]; intros g.
  - exists []. by split_and!.
  - cbn [sample_repeat].
    destruct (sample_submseteq draw_indices draw_indices_distinct g options k Hk)
      as (picked & g' & -> & Hlen & Hsub).
    rewrite bind_ret. cbv beta. cbn [fst snd].
    destruct (IH g') as (picks & -> & Hn & Hin). rewrite bind_ret.
    exists (picked :: picks). split_and!; [done|simpl; lia|].
    apply Forall_cons_2; [|done]. split; [unfold len; lia|done].
Qed.

(** X26. [random_sample] asked for [number] of the options, at most as
    many as there are, returns [length] draws (none for a negative
    [length]), each of [number] of the options, none taken more often than
    it is among the options. *)
Theorem random_sample_draws {A} (key : Z) (options : list A) (length number : Z) :
  0 <= number <= len options ->
  exists picks,
    random_sample seed_int draw_indices key options length number = OK picks
    /\ len picks = Z.max 0 length
    /\ Forall (fun pick => len pick = number /\ pick ⊆+ options) picks.
Proof.
  intros Hk. unfold random_sample.
  destruct (sample_repeat_total (seed_int key) options number (Z.to_nat length) Hk)
    as (picks & Hpicks & Hlen & Hin).
  exists picks. split_and!; [done|unfold len; lia|done].
Qed.

(** X27. Asked for more of the options than there are, or for a negative
    number of them, [random_sample] raises the [ValueError] of [sample] as
    soon as it is asked for one draw. *)
Theorem random_sample_too_many {A} (key : Z) (options : list A) (length number : Z) :
  0 < length ->
  number < 0 \/ len options < number ->
  random_sample seed_int draw_indices key options length number = Raise sample_error.
Proof.
  intros Hlen Hk. unfold random_sample.
  destruct (Z.to_nat length) as [|n] eqn:Hn; [lia|].
  cbn [sample_repeat]. unfold sample.
  assert ((number <? 0) || (len options <? number) = true) as ->; [|done].
  apply orb_true_iff. rewrite Z.ltb_lt, Z.ltb_lt. done.
Qed.

End Draws.

Lemma random_sample_draws_witness :
  exists picks,
    random_sample Toy.seed_int Toy.draw_indices 7 [0; 1; 2] 4 2 = OK picks
    /\ len picks = 4
    /\ Forall (fun pick => len pick = 2 /\ pick ⊆+ [0; 1; 2]) picks.
Proof.
  apply (random_sample_draws Toy.seed_int Toy.draw_indices toy_draw_indices_distinct
           7 [0; 1; 2] 4 2).
  unfold len. simpl. lia.
Defined.

Lemma random_sample_too_many_witness :
  random_sample Toy.seed_int Toy.draw_indices 7 [0; 1; 2] 1 4 = Raise sample_error.
Proof.
  apply (random_sample_too_many Toy.seed_int Toy.draw_indices 7 [0; 1; 2] 1 4);
    [lia|right; unfold len; simpl; lia].
Defined.
